(** * dataweave: the template-generation and file-merge core

    A shallow embedding of the string-level logic of
    [DbtManager] (directory convention, configuration header, the restricted
    YAML reader and writer, the schema upsert) and of
    [DagsterManager.updateInitFile] (the [__init__.py] merger), together with
    the theorems that settle what the specification says about them.
    Further modules embed the asset, DBT asset and schedule generators of
    [DagsterManager], the list options of the command line and the two
    readers of the provider's answer in [AIEngine], with what the code
    shows about them.

    JavaScript strings are sequences of UTF-16 code units; here a string is a
    [string] of [ascii], each [ascii] standing for one code unit below 256.
    Files are a finite map from paths to contents. *)

From Stdlib Require Import String Ascii List Bool Arith NArith DecimalString Lia.
From stdpp Require Import gmap strings.
Import ListNotations.

Local Open Scope string_scope.

(** [simpl] unfolds [String.append] on a constructor, as it does for lists. *)
#[global] Arguments String.append : simpl nomatch.
(** A comparison of code units is computed when both are known. *)
#[global] Arguments Ascii.eqb !a !b.

(** ** JavaScript string primitives used by the two managers *)

Module JS.

Definition chr (n : nat) : string := String (ascii_of_nat n) EmptyString.
#[global] Arguments chr : simpl never.

(** The line feed, the double quote and the single quote as one-character
    strings. *)
Definition nl : string := chr 10.
Definition dq : string := chr 34.
Definition sq : string := chr 39.
#[global] Arguments nl : simpl never.
#[global] Arguments dq : simpl never.
#[global] Arguments sq : simpl never.

Definition isChar (n : nat) (c : ascii) : bool := Nat.eqb (nat_of_ascii c) n.

(** [WhiteSpace] and [LineTerminator] of ECMAScript among the code units
    below 256: TAB, LF, VT, FF, CR, SP and NBSP.  This is the class of
    [\s] and the set [trim] strips. *)
Definition isWhiteSpace (c : ascii) : bool :=
  isChar 9 c || isChar 10 c || isChar 11 c || isChar 12 c || isChar 13 c
  || isChar 32 c || isChar 160 c.

Definition isDigit (c : ascii) : bool :=
  (48 <=? nat_of_ascii c)%nat && (nat_of_ascii c <=? 57)%nat.

Definition digitVal (c : ascii) : nat := nat_of_ascii c - 48.

Fixpoint trimStart (s : string) : string :=
  match s with
  | EmptyString => EmptyString
  | String c r => if isWhiteSpace c then trimStart r else s
  end.

Fixpoint trimEnd (s : string) : string :=
  match s with
  | EmptyString => EmptyString
  | String c r =>
      match trimEnd r with
      | EmptyString => if isWhiteSpace c then EmptyString else String c EmptyString
      | r' => String c r'
      end
  end.

(** [s.trim()] *)
Definition trim (s : string) : string := trimEnd (trimStart s).

(** [s.startsWith(p)] *)
Fixpoint startsWith (s p : string) {struct p} : bool :=
  match p, s with
  | EmptyString, _ => true
  | String a p', String b s' => Ascii.eqb a b && startsWith s' p'
  | String _ _, EmptyString => false
  end.

#[global] Arguments startsWith !s !p.

(** The rest of [s] after the literal [p], when [s] starts with [p]. *)
Fixpoint stripPrefix (p s : string) {struct p} : option string :=
  match p, s with
  | EmptyString, _ => Some s
  | String a p', String b s' => if Ascii.eqb a b then stripPrefix p' s' else None
  | String _ _, EmptyString => None
  end.

#[global] Arguments stripPrefix !p !s.

(** [s.includes(needle)] *)
Fixpoint includes (s needle : string) : bool :=
  startsWith s needle ||
  match s with
  | EmptyString => false
  | String _ r => includes r needle
  end.

(** [s.split(sep)] for a one-character separator. *)
Fixpoint split (sep : ascii) (s : string) : list string :=
  match s with
  | EmptyString => [EmptyString]
  | String c r =>
      if Ascii.eqb c sep then EmptyString :: split sep r
      else match split sep r with
           | h :: t => String c h :: t
           | [] => [String c EmptyString]
           end
  end.

(** [l.join(sep)] *)
Fixpoint join (sep : string) (l : list string) : string :=
  match l with
  | [] => EmptyString
  | [x] => x
  | x :: r => x ++ sep ++ join sep r
  end.

(** Truthiness of a string: the empty string is falsy. *)
Definition truthy (s : string) : bool :=
  match s with EmptyString => false | String _ _ => true end.

(** Removal of every single and double quote: the replacement of the
    quote character class, with flag [g], by the empty string. *)
Fixpoint removeQuotes (s : string) : string :=
  match s with
  | EmptyString => EmptyString
  | String c r =>
      if isChar 39 c || isChar 34 c then removeQuotes r
      else String c (removeQuotes r)
  end.

(** Truthiness of a value that may be [null] or [undefined]. *)
Definition isSome {A} (o : option A) : bool :=
  match o with Some _ => true | None => false end.

(** [l.findIndex(p)], with [None] for JavaScript's [-1]. *)
Fixpoint findIndex {A} (p : A -> bool) (l : list A) : option nat :=
  match l with
  | [] => None
  | x :: r => if p x then Some 0%nat else option_map S (findIndex p r)
  end.

(** [l.splice(i, 0, a, b)]: insert [a] and [b] at index [i]. *)
Definition splice2 {A} (i : nat) (a b : A) (l : list A) : list A :=
  (firstn i l ++ a :: b :: skipn i l)%list.

(** [GetSubstitution] of ECMAScript for a replacement string: [$$], [$&],
    [$`], [$'] and [$n] / [$nn] against the captures of the match; there
    are no named groups in the patterns of this program, so [$<] is
    literal. *)
Definition capture (captures : list string) (idx : nat) : option string :=
  match idx with
  | O => None
  | S i => nth_error captures i
  end.

Fixpoint getSubstitution (matched pre post : string) (captures : list string)
    (template : string) : string :=
  match template with
  | EmptyString => EmptyString
  | String c rest =>
      if isChar 36 c then
        match rest with
        | EmptyString => String c EmptyString
        | String d1 r1 =>
            if isChar 36 d1 then String d1 (getSubstitution matched pre post captures r1)
            else if isChar 38 d1 then matched ++ getSubstitution matched pre post captures r1
            else if isChar 96 d1 then pre ++ getSubstitution matched pre post captures r1
            else if isChar 39 d1 then post ++ getSubstitution matched pre post captures r1
            else if isDigit d1 then
              let one :=
                match capture captures (digitVal d1) with
                | Some cap => cap ++ getSubstitution matched pre post captures r1
                | None => String c (String d1 (getSubstitution matched pre post captures r1))
                end in
              match r1 with
              | String d2 r2 =>
                  if isDigit d2 then
                    let idx := (10 * digitVal d1 + digitVal d2)%nat in
                    if (List.length captures <? idx)%nat then one
                    else
                      match capture captures idx with
                      | Some cap => cap ++ getSubstitution matched pre post captures r2
                      | None =>
                          String c (String d1 (String d2
                            (getSubstitution matched pre post captures r2)))
                      end
                  else one
              | EmptyString => one
              end
            else String c (getSubstitution matched pre post captures rest)
        end
      else String c (getSubstitution matched pre post captures rest)
  end.

(** A successful [RegExp] match inside a subject string: the text before
    it, the matched text, the capture groups and the text after it. *)
Record Match := mkMatch {
  m_pre : string;
  m_text : string;
  m_groups : list string;
  m_post : string
}.

Definition shiftMatch (c : ascii) (m : Match) : Match :=
  mkMatch (String c (m_pre m)) (m_text m) (m_groups m) (m_post m).

(** Leftmost match of a pattern, given its anchored matcher [matchAt]
    (captures and the rest of the subject after the match): every start
    index from the left is tried, the end of the subject included. *)
Fixpoint search (matchAt : string -> option (list string * string)) (s : string)
    : option Match :=
  match matchAt s with
  | Some (gs, post) =>
      Some (mkMatch EmptyString
              (substring 0 (String.length s - String.length post) s) gs post)
  | None =>
      match s with
      | EmptyString => None
      | String c r => option_map (shiftMatch c) (search matchAt r)
      end
  end.

(** [s.replace(re, template)] for a pattern without flag [g]: the first
    match is replaced by the expansion of [template]; no match, no
    change. *)
Definition replace (matchAt : string -> option (list string * string))
    (s template : string) : string :=
  match search matchAt s with
  | Some m =>
      m_pre m
      ++ getSubstitution (m_text m) (m_pre m) (m_post m) (m_groups m) template
      ++ m_post m
  | None => s
  end.

(** One expected code unit. *)
Definition expect (n : nat) (s : string) : option string :=
  match s with
  | String a r => if isChar n a then Some r else None
  | EmptyString => None
  end.

(** The text before and after the first occurrence of code unit [n]. *)
Fixpoint splitFirst (n : nat) (s : string) : option (string * string) :=
  match s with
  | EmptyString => None
  | String a r =>
      if isChar n a then Some (EmptyString, r)
      else match splitFirst n r with
           | Some (x, y) => Some (String a x, y)
           | None => None
           end
  end.

End JS.

(** ** The file system the managers read and write *)

Module Fs.

(** Files by path, the directories made so far, and the write requests
    issued, most recent first.  Every operation succeeds: the errors of the
    operating system are no part of this model. *)
Record t := mk {
  files : gmap string string;
  dirs : gset string;
  written : list (string * string)
}.

Definition empty : t := mk ∅ ∅ [].

Definition readFile (p : string) (fs : t) : option string := files fs !! p.

Definition writeFile (p content : string) (fs : t) : t :=
  mk (<[p := content]> (files fs)) (dirs fs) ((p, content) :: written fs).

Definition existsDir (p : string) (fs : t) : bool := bool_decide (p ∈ dirs fs).

Definition mkdir (p : string) (fs : t) : t :=
  mk (files fs) ({[p]} ∪ dirs fs) (written fs).

(** [path.join] where it has nothing to normalise: [a] a normalised
    directory and [b] one segment (no separator, not a dot segment).  For
    other arguments [path.join] answers the normalised path, which this
    concatenation is not; the statements that tell files apart by their
    paths assume names of one segment. *)
Definition join (a b : string) : string := a ++ "/" ++ b.

End Fs.

(** ** [DagsterManager]: the [__init__.py] merger *)

Module Dagster.
Import JS.

(** The pattern [__all__\s*=\s*\[] at the head of [s]; the rest after the
    bracket.  A greedy [\s*] in front of a character that is no white space
    never gives a character back, so it is [trimStart]. *)
Definition allOpener (s : string) : option string :=
  match stripPrefix "__all__" s with
  | Some r1 =>
      match expect 61 (trimStart r1) with
      | Some r2 => expect 91 (trimStart r2)
      | None => None
      end
  | None => None
  end.

(** The pattern [/__all__\s*=\s*\[(.*?)\]/s] anchored at the head of [s]:
    with flag [s] the lazy group runs to the first closing bracket. *)
Definition allAt (s : string) : option (list string * string) :=
  match allOpener s with
  | Some r =>
      match splitFirst 93 r with
      | Some (cap, post) => Some ([cap], post)
      | None => None
      end
  | None => None
  end.

Definition group1 (m : Match) : string := nth 0 (m_groups m) EmptyString.

Definition importLine (itemName : string) : string :=
  "from ." ++ itemName ++ " import " ++ itemName.

(** The members the merger reads out of the captured list text. *)
Definition parseItems (cap : string) : list string :=
  map (fun item => removeQuotes (trim item)) (split "," cap).

(** A name between double quotes. *)
Definition quoted (itemName : string) : string := dq ++ itemName ++ dq.

Definition allConstruct (items : list string) : string :=
  "__all__ = [" ++ join ", " items ++ "]".

(** The body of [updateInitFile] on the content of the index file
    ([None]: the file does not exist): the content to write, or [None]
    when the function returns without writing. *)
Definition updateInitContent (existing : option string) (itemName : string)
    : option string :=
  let content := match existing with Some c => c | None => EmptyString end in
  if includes content (importLine itemName) then None
  else
    let content := content ++ importLine itemName ++ nl in
    match search allAt content with
    | Some m =>
        let existingItems := parseItems (group1 m) in
        if existsb (String.eqb itemName) existingItems then Some content
        else
          let updatedItems :=
            (List.filter truthy existingItems ++ [quoted itemName])%list in
          Some (replace allAt content (allConstruct updatedItems))
    | None => Some (content ++ nl ++ "__all__ = [" ++ quoted itemName ++ "]" ++ nl)
    end.

Definition updateInitFile (initPath itemName : string) (fs : Fs.t) : Fs.t :=
  match updateInitContent (Fs.readFile initPath fs) itemName with
  | Some content => Fs.writeFile initPath content fs
  | None => fs
  end.

Record DagsterConfig := {
  projectPath : string;
  dagsterPath : string;
  assetsPath : string;
  jobsPath : string
}.

Definition updateAssetsInit (cfg : DagsterConfig) (assetName : string) : Fs.t -> Fs.t :=
  updateInitFile (Fs.join (assetsPath cfg) "__init__.py") assetName.

Definition updateJobsInit (cfg : DagsterConfig) (jobName : string) : Fs.t -> Fs.t :=
  updateInitFile (Fs.join (jobsPath cfg) "__init__.py") jobName.

End Dagster.

(** ** [DbtManager]: directory convention, configuration header, schema file *)

Module Dbt.
Import JS.

Record DbtColumn := mkDbtColumn {
  col_name : string;
  col_description : option string;
  col_type : option string;
  col_tests : option (list string)
}.

Record DbtModelOptions := mkOptions {
  opt_name : string;
  opt_sql : option string;
  opt_description : option string;
  opt_materializedAs : option string;
  opt_columns : option (list DbtColumn);
  opt_tests : option (list string);
  opt_tags : option (list string)
}.

Record DbtConfig := mkConfig {
  projectPath : string;
  profilesDir : string;
  modelsDir : string
}.

(** The objects of the schema document ([schemaData], of type [any] in the
    source): a field that may be missing on the object is an [option]. *)
Record SchemaColumn := mkColumn {
  sc_name : string;
  sc_description : option string;
  sc_tests : option (list string)
}.

Record SchemaModel := mkModel {
  sm_name : string;
  sm_description : option string;
  sm_tests : option (list string);
  sm_columns : option (list SchemaColumn)
}.

Record SchemaData := mkSchema {
  version : N;
  models : list SchemaModel
}.

Definition emptySchema : SchemaData := mkSchema 2 [].

Definition getModelDirectory (modelName : string) : string :=
  if startsWith modelName "stg_" then "staging"
  else if startsWith modelName "int_" then "intermediate"
  else if startsWith modelName "fct_" || startsWith modelName "dim_" then "marts"
  else "staging".

Definition generateDefaultSql (modelName : string) : string :=
  "-- Generated model: " ++ modelName ++ nl
  ++ "-- TODO: Replace this with your actual SQL logic" ++ nl
  ++ nl
  ++ "{{ config(materialized='view') }}" ++ nl
  ++ nl
  ++ "select" ++ nl
  ++ "    1 as id," ++ nl
  ++ "    'sample' as name," ++ nl
  ++ "    current_timestamp as created_at" ++ nl
  ++ nl
  ++ "-- TODO: Add your transformations here" ++ nl
  ++ "-- Uncomment and modify the following example:" ++ nl
  ++ "-- from {{ ref('source_table') }}" ++ nl
  ++ "-- where condition = 'value'" ++ nl.

(** The pattern [[^}]+\) \}\}] at the head of [s]: the class is greedy and
    gives characters back until the closing text follows. *)
Fixpoint configBody (s : string) : option string :=
  match s with
  | EmptyString => None
  | String c r =>
      if isChar 125 c then None
      else match configBody r with
           | Some rest => Some rest
           | None => stripPrefix ") }}" r
           end
  end.

(** The pattern [/\{\{ config\([^}]+\) \}\}/] anchored at the head of [s]. *)
Definition configAt (s : string) : option (list string * string) :=
  match stripPrefix "{{ config(" s with
  | Some r => option_map (fun rest => ([], rest)) (configBody r)
  | None => None
  end.

Definition configLineOf (materializedAs : string) (tags : list string) : string :=
  let configOptions :=
    ("materialized='" ++ materializedAs ++ "'")
    :: (if (0 <? List.length tags)%nat
        then ["tags=['" ++ join "', '" tags ++ "']"] else []) in
  "{{ config(" ++ join ", " configOptions ++ ") }}".

(** A line that is neither blank nor a [--] comment. *)
Definition substantive (line : string) : bool :=
  truthy (trim line) && negb (startsWith (trim line) "--").

Definition addModelConfig (sql materializedAs : string) (tags : list string) : string :=
  let configLine := configLineOf materializedAs tags in
  if includes sql "{{ config(" then replace configAt sql configLine
  else
    let lines := split "010" sql in
    match findIndex substantive lines with
    | None => configLine ++ nl ++ nl ++ sql
    | Some firstNonCommentLine =>
        join nl (splice2 firstNonCommentLine configLine EmptyString lines)
    end.

(** *** The restricted YAML reader *)

Record ParseState := mkState {
  result : list SchemaModel;
  currentModel : option SchemaModel;
  currentColumns : list SchemaColumn;
  inColumns : bool
}.

Definition withColumns (m : SchemaModel) (cols : list SchemaColumn) : SchemaModel :=
  mkModel (sm_name m) (sm_description m) (sm_tests m) (Some cols).

Definition withDescription (m : SchemaModel) (d : string) : SchemaModel :=
  mkModel (sm_name m) (Some d) (sm_tests m) (sm_columns m).

Definition withTests (m : SchemaModel) (ts : list string) : SchemaModel :=
  mkModel (sm_name m) (sm_description m) (Some ts) (sm_columns m).

(** [if (currentModel) { ...; result.models.push(currentModel) }] *)
Definition pushCurrent (st : ParseState) : list SchemaModel :=
  match currentModel st with
  | Some m =>
      (result st ++
        [if (0 <? List.length (currentColumns st))%nat
         then withColumns m (currentColumns st) else m])%list
  | None => result st
  end.

(** [trimmed.split(':')[1].trim()]; [None] is the [TypeError] of calling
    [trim] on [undefined]. *)
Definition nameField (trimmed : string) : option string :=
  option_map trim (nth_error (split ":" trimmed) 1).

(** [trimmed.split(':').slice(1).join(':').trim()] *)
Definition descriptionField (trimmed : string) : string :=
  trim (join ":" (skipn 1 (split ":" trimmed))).

(** One turn of the loop over the lines; [None] when the body throws. *)
Definition parseLine (st : ParseState) (line : string) : option ParseState :=
  let trimmed := trim line in
  if startsWith trimmed "- name:" && negb (inColumns st) then
    match nameField trimmed with
    | Some n => Some (mkState (pushCurrent st) (Some (mkModel n None None None)) [] false)
    | None => None
    end
  else if startsWith trimmed "description:" && isSome (currentModel st) then
    Some (mkState (result st)
            (option_map (fun m => withDescription m (descriptionField trimmed))
               (currentModel st))
            (currentColumns st) (inColumns st))
  else if String.eqb trimmed "columns:" then
    Some (mkState (result st) (currentModel st) (currentColumns st) true)
  else if startsWith trimmed "- name:" && inColumns st then
    match nameField trimmed with
    | Some n =>
        Some (mkState (result st) (currentModel st)
                (currentColumns st ++ [mkColumn n None None])%list (inColumns st))
    | None => None
    end
  else Some st.

Fixpoint parseLines (st : ParseState) (lines : list string) : option ParseState :=
  match lines with
  | [] => Some st
  | line :: rest =>
      match parseLine st line with
      | Some st' => parseLines st' rest
      | None => None
      end
  end.

Definition initialState : ParseState := mkState [] None [] false.

(** The [try] block of [parseBasicYaml]: [None] when it throws. *)
Definition parseBasicYamlTry (content : string) : option SchemaData :=
  match parseLines initialState (split "010" content) with
  | Some st => Some (mkSchema 2 (pushCurrent st))
  | None => None
  end.

(** [parseBasicYaml]: the [catch] clause answers the empty document. *)
Definition parseBasicYaml (content : string) : SchemaData :=
  match parseBasicYamlTry content with
  | Some data => data
  | None => emptySchema
  end.

(** *** The writer *)

Definition concatMap {A} (f : A -> string) (l : list A) : string :=
  fold_right (fun x acc => f x ++ acc) EmptyString l.

(** The decimal digits, as a template literal prints an integer below
    [10^21]; the version the reader answers is always 2. *)
Definition numberToString (n : N) : string :=
  NilEmpty.string_of_uint (N.to_uint n).

Definition nonEmptyList {A} (o : option (list A)) : list A :=
  match o with Some l => l | None => [] end.

Definition yamlColumn (column : SchemaColumn) : string :=
  "      - name: " ++ sc_name column ++ nl
  ++ match sc_description column with
     | Some d => if truthy d then "        description: " ++ d ++ nl else EmptyString
     | None => EmptyString
     end
  ++ match nonEmptyList (sc_tests column) with
     | [] => EmptyString
     | ts => "        tests:" ++ nl
             ++ concatMap (fun test => "          - " ++ test ++ nl) ts
     end.

Definition yamlModel (model : SchemaModel) : string :=
  "  - name: " ++ sm_name model ++ nl
  ++ match sm_description model with
     | Some d => if truthy d then "    description: " ++ d ++ nl else EmptyString
     | None => EmptyString
     end
  ++ match nonEmptyList (sm_tests model) with
     | [] => EmptyString
     | ts => "    tests:" ++ nl ++ concatMap (fun test => "      - " ++ test ++ nl) ts
     end
  ++ match nonEmptyList (sm_columns model) with
     | [] => EmptyString
     | cs => "    columns:" ++ nl ++ concatMap yamlColumn cs
     end
  ++ nl.

Definition generateBasicYaml (data : SchemaData) : string :=
  "version: " ++ numberToString (version data) ++ nl ++ nl ++ "models:" ++ nl
  ++ concatMap yamlModel (models data).

(** *** The schema upsert *)

Definition toSchemaColumn (col : DbtColumn) : SchemaColumn :=
  mkColumn (col_name col) (col_description col)
    (Some (match col_tests col with Some ts => ts | None => [] end)).

(** The three conditional assignments on [modelEntry]. *)
Definition updateEntry (description : string) (columns : list DbtColumn)
    (tests : list string) (modelEntry : SchemaModel) : SchemaModel :=
  let e1 := if truthy description then withDescription modelEntry description
            else modelEntry in
  let e2 := if (0 <? List.length tests)%nat then withTests e1 tests else e1 in
  if (0 <? List.length columns)%nat then withColumns e2 (map toSchemaColumn columns)
  else e2.

(** [models.find(m => m.name === modelName)] followed by the assignments:
    the entry found is an alias of the element of the list, so the first
    element of that name is the one updated. *)
Fixpoint updateFound (modelName : string) (f : SchemaModel -> SchemaModel)
    (ms : list SchemaModel) : option (list SchemaModel) :=
  match ms with
  | [] => None
  | m :: rest =>
      if String.eqb (sm_name m) modelName then Some (f m :: rest)
      else option_map (cons m) (updateFound modelName f rest)
  end.

Definition upsertModel (schemaData : SchemaData) (modelName description : string)
    (columns : list DbtColumn) (tests : list string) : SchemaData :=
  let f := updateEntry description columns tests in
  mkSchema (version schemaData)
    match updateFound modelName f (models schemaData) with
    | Some ms => ms
    | None => (models schemaData ++ [f (mkModel modelName None None None)])%list
    end.

(** The content [updateSchema] writes, from the content it finds
    ([None]: no schema file yet). *)
Definition updateSchemaContent (existing : option string) (modelName description : string)
    (columns : list DbtColumn) (tests : list string) : string :=
  let schemaData :=
    match existing with
    | Some existingContent => parseBasicYaml existingContent
    | None => emptySchema
    end in
  generateBasicYaml (upsertModel schemaData modelName description columns tests).

Definition schemaPath (cfg : DbtConfig) (modelDir : string) : string :=
  Fs.join (Fs.join (modelsDir cfg) modelDir) "schema.yml".

Definition updateSchema (cfg : DbtConfig) (modelDir modelName description : string)
    (columns : list DbtColumn) (tests : list string) (fs : Fs.t) : Fs.t :=
  Fs.writeFile (schemaPath cfg modelDir)
    (updateSchemaContent (Fs.readFile (schemaPath cfg modelDir) fs)
       modelName description columns tests)
    fs.

Definition orElse {A} (o : option A) (d : A) : A :=
  match o with Some x => x | None => d end.

(** [a || b] on an optional string: a missing or empty [a] gives [b]. *)
Definition orString (o : option string) (d : string) : string :=
  match o with
  | Some x => if truthy x then x else d
  | None => d
  end.

(** What [generateModel] answers: the promise resolves, or it rejects. *)
Inductive Outcome :=
| Resolved (fs : Fs.t)
| Rejected (message : string).

(** The body of [generateModel] has no [throw] and no test of its
    arguments: the promise can reject only where a file operation fails,
    which is outside the file system modelled here. *)
Definition generateModel (cfg : DbtConfig) (options : DbtModelOptions) (fs : Fs.t)
    : Outcome :=
  let name := opt_name options in
  let materializedAs := orElse (opt_materializedAs options) "view" in
  let columns := orElse (opt_columns options) [] in
  let tests := orElse (opt_tests options) [] in
  let tags := orElse (opt_tags options) [] in
  let modelDir := getModelDirectory name in
  let modelPath := Fs.join (modelsDir cfg) modelDir in
  let fs1 := if Fs.existsDir modelPath fs then fs else Fs.mkdir modelPath fs in
  let sqlContent := orString (opt_sql options) (generateDefaultSql name) in
  let sqlWithConfig := addModelConfig sqlContent materializedAs tags in
  let fs2 := Fs.writeFile (Fs.join modelPath (name ++ ".sql")) sqlWithConfig fs1 in
  Resolved
    (updateSchema cfg modelDir name (orString (opt_description options) EmptyString)
       columns tests fs2).

End Dbt.

(** ** Vocabulary of the statements *)

Module Spec.
Import JS Dbt.

(** Code unit [n] occurs in [s]. *)
Fixpoint hasChar (n : nat) (s : string) : bool :=
  match s with
  | EmptyString => false
  | String c r => isChar n c || hasChar n r
  end.

(** Every code unit of [s] is white space. *)
Fixpoint allSpace (s : string) : bool :=
  match s with
  | EmptyString => true
  | String c r => isWhiteSpace c && allSpace r
  end.

(** *** The written dialect of the schema file *)

Definition noNewline (s : string) : bool := negb (hasChar 10 s).
Definition noColon (s : string) : bool := negb (hasChar 58 s).

(** [trim] leaves the string alone. *)
Definition isTrimmed (s : string) : bool := String.eqb (trim s) s.

(** A name the reader gets back from its line: one line, trimmed, no colon. *)
Definition cleanName (s : string) : bool := isTrimmed s && noNewline s && noColon s.

(** A description the reader gets back: one line, trimmed. *)
Definition cleanText (s : string) : bool := isTrimmed s && noNewline s.

(** A test identifier whose line the reader passes over. *)
Definition cleanTest (s : string) : bool := noNewline s && noColon s.

Definition cleanDescription (o : option string) : bool :=
  match o with Some d => cleanText d | None => true end.

Definition cleanColumn (c : SchemaColumn) : bool :=
  cleanName (sc_name c) && cleanDescription (sc_description c)
  && forallb cleanTest (nonEmptyList (sc_tests c)).

Definition cleanModel (m : SchemaModel) : bool :=
  cleanName (sm_name m) && cleanDescription (sm_description m)
  && forallb cleanTest (nonEmptyList (sm_tests m))
  && forallb cleanColumn (nonEmptyList (sm_columns m)).

Definition noColumns (m : SchemaModel) : bool :=
  match nonEmptyList (sm_columns m) with [] => true | _ :: _ => false end.

(** Documents of the written dialect in which only the last model has a
    [columns:] block. *)
Fixpoint readable (ms : list SchemaModel) : bool :=
  match ms with
  | [] => true
  | m :: rest =>
      cleanModel m && match rest with [] => true | _ :: _ => noColumns m end
      && readable rest
  end.

(** A description that is written: present and not empty. *)
Definition said (o : option string) : option string :=
  match o with
  | Some d => if truthy d then Some d else None
  | None => None
  end.

(** What the reader makes of a written model: the description is the last
    [description:] line of the entry, its own or a column's (the reader
    assigns a [description:] line to [currentModel] whenever there is one,
    without asking for [inColumns], so a line below a column overwrites
    the description of the model); tests are not read; of a column only
    the name is read. *)
Definition readDescription (m : SchemaModel) : option string :=
  fold_left
    (fun acc c => match said (sc_description c) with Some d => Some d | None => acc end)
    (nonEmptyList (sm_columns m)) (said (sm_description m)).

Definition readColumn (c : SchemaColumn) : SchemaColumn := mkColumn (sc_name c) None None.

Definition readColumns (m : SchemaModel) : option (list SchemaColumn) :=
  match nonEmptyList (sm_columns m) with
  | [] => None
  | cs => Some (map readColumn cs)
  end.

Definition readModel (m : SchemaModel) : SchemaModel :=
  mkModel (sm_name m) (readDescription m) None (readColumns m).

(** The lines of the written text. *)
Definition unlines (ls : list string) : string := concatMap (fun l => l ++ nl) ls.

Definition descriptionLines (indent : string) (o : option string) : list string :=
  match said o with
  | Some d => [indent ++ "description: " ++ d]
  | None => []
  end.

Definition testLines (indent : string) (ts : list string) : list string :=
  match ts with
  | [] => []
  | _ :: _ => (indent ++ "tests:") :: map (fun t => indent ++ "  - " ++ t) ts
  end.

Definition columnLines (c : SchemaColumn) : list string :=
  (("      - name: " ++ sc_name c)%string
   :: descriptionLines "        " (sc_description c)
   ++ testLines "        " (nonEmptyList (sc_tests c)))%list.

Definition columnsLines (cs : list SchemaColumn) : list string :=
  match cs with
  | [] => []
  | _ :: _ => "    columns:" :: flat_map columnLines cs
  end.

Definition modelLines (m : SchemaModel) : list string :=
  (("  - name: " ++ sm_name m)%string
   :: descriptionLines "    " (sm_description m)
   ++ testLines "    " (nonEmptyList (sm_tests m))
   ++ columnsLines (nonEmptyList (sm_columns m))
   ++ [EmptyString])%list.

Definition documentLines (ms : list SchemaModel) : list string :=
  ("version: 2" :: EmptyString :: "models:" :: flat_map modelLines ms)%list.

(** The trimmed text of a [- name:] line at any indentation. *)
Definition trimmedNameLine (n : string) : string :=
  if truthy n then "- name: " ++ n else "- name:".

(** The trimmed text of a [description:] line at any indentation. *)
Definition trimmedDescriptionLine (d : string) : string :=
  if truthy d then "description: " ++ d else "description:".

(** No [- name:] line stands before the first [columns:] line: the reader
    never opens a model. *)
Fixpoint noModelLine (lines : list string) : bool :=
  match lines with
  | [] => true
  | line :: rest =>
      if startsWith (trim line) "- name:" then false
      else if String.eqb (trim line) "columns:" then true
      else noModelLine rest
  end.

(** A model without tests whose columns carry a name only: what the reader
    gets back in full. *)
Definition bareColumn (c : SchemaColumn) : bool :=
  negb (isSome (said (sc_description c)))
  && match nonEmptyList (sc_tests c) with [] => true | _ :: _ => false end.

Definition fullyRead (m : SchemaModel) : bool :=
  match nonEmptyList (sm_tests m) with [] => true | _ :: _ => false end
  && forallb bareColumn (nonEmptyList (sm_columns m)).

(** No column of the model carries a description. *)
Definition undocumentedColumns (m : SchemaModel) : bool :=
  forallb (fun c => negb (isSome (said (sc_description c)))) (nonEmptyList (sm_columns m)).

(** A project configuration for the examples. *)
Definition exampleConfig : DbtConfig := mkConfig "proj" "proj/config" "proj/models".

(** *** The index file *)

(** Number of occurrences of code unit [n] in [s]. *)
Fixpoint countChar (n : nat) (s : string) : nat :=
  match s with
  | EmptyString => 0%nat
  | String c r => ((if isChar n c then 1 else 0) + countChar n r)%nat
  end.

(** Somewhere in [s] the text [__all__ = [] opens a list, closed or not. *)
Fixpoint opens (s : string) : bool :=
  isSome (Dagster.allOpener s)
  || match s with
     | EmptyString => false
     | String _ r => opens r
     end.

(** The items of the exported-symbols construct of an index file, read as
    the merger reads them; [None] when the file has no construct. *)
Definition fileItems (content : string) : option (list string) :=
  option_map (fun m => Dagster.parseItems (Dagster.group1 m))
    (search Dagster.allAt content).

(** The members of the construct: its items that are not empty. *)
Definition members (content : string) : list string :=
  List.filter truthy (match fileItems content with Some items => items | None => [] end).

(** A member that survives being written bare and read again: trimmed, and
    free of [$], comma, closing bracket and quotes. *)
Definition plainMember (x : string) : bool :=
  isTrimmed x && negb (hasChar 36 x) && negb (hasChar 44 x) && negb (hasChar 93 x)
  && negb (hasChar 34 x) && negb (hasChar 39 x).

(** A symbol name of that kind, not empty and without opening bracket. *)
Definition plainSymbol (x : string) : bool :=
  plainMember x && negb (hasChar 91 x) && truthy x.

(** A well-formed index file: either it has no construct and no list is
    left open, or the members of its construct are plain and pairwise
    different. *)
Definition wellFormedIndex (content : string) : Prop :=
  match fileItems content with
  | Some items => List.NoDup (List.filter truthy items) /\ forallb plainMember items = true
  | None => opens content = false
  end.

(** The content of the index file after a call of [updateInitFile]. *)
Definition afterUpdate (content itemName : string) : string :=
  match Dagster.updateInitContent (Some content) itemName with
  | Some content' => content'
  | None => content
  end.

(** The content after a sequence of calls, one per name. *)
Definition afterUpdates (names : list string) (content : string) : string :=
  fold_left afterUpdate names content.

(** The text of a construct up to its opening bracket, and the whole
    construct around the list text [cap]. *)
Definition openerText (w1 w2 : string) : string := "__all__" ++ w1 ++ "=" ++ w2.

Definition constructText (v1 v2 cap : string) : string :=
  openerText v1 v2 ++ "[" ++ cap ++ "]".

(** *** The configuration header *)

(** The text every configuration header starts with. *)
Definition headerMark : string := "{{ config(".

(** Number of places of [s] where a configuration header starts. *)
Fixpoint headerCount (s : string) : nat :=
  ((if isSome (Dbt.configAt s) then 1 else 0)
   + match s with
     | EmptyString => 0
     | String _ r => headerCount r
     end)%nat.

(** Number of places of [x] where a configuration header starts, when [x]
    is followed by [y]. *)
Fixpoint headerCountIn (x y : string) : nat :=
  match x with
  | EmptyString => 0%nat
  | String c r =>
      ((if isSome (Dbt.configAt (String c r ++ y)) then 1 else 0) + headerCountIn r y)%nat
  end.

(** Option values without braces, and without [$]. *)
Definition braceFree (materializedAs : string) (tags : list string) : bool :=
  forallb (fun x => negb (hasChar 123 x) && negb (hasChar 125 x)) (materializedAs :: tags).

Definition dollarFree (materializedAs : string) (tags : list string) : bool :=
  forallb (fun x => negb (hasChar 36 x)) (materializedAs :: tags).

(** The string is empty or ends with a line feed. *)
Fixpoint endsLine (s : string) : bool :=
  match s with
  | EmptyString => true
  | String c r => match r with
                  | EmptyString => isChar 10 c
                  | String _ _ => endsLine r
                  end
  end.

(** A header around the text [body] of its options. *)
Definition headerText (body : string) : string := headerMark ++ body ++ ") }}".

(** The text between the parentheses of the header [addModelConfig] builds. *)
Definition optionsText (materializedAs : string) (tags : list string) : string :=
  join ", "
    (("materialized='" ++ materializedAs ++ "'")%string
     :: (if (0 <? List.length tags)%nat
         then [("tags=['" ++ join "', '" tags ++ "']")%string] else [])).

End Spec.

(** ** [DagsterManager]: the generated code and the files written *)

Module DagsterCode.
Import JS Dagster.

Record DagsterAssetOptions := mkAssetOptions {
  ao_name : string;
  ao_description : option string;
  ao_dependencies : option (list string);
  ao_code : option string;
  ao_partitions : option string;
  ao_schedule : option string;
  ao_tags : option (list string);
  ao_compute_kind : option string;
  ao_io_manager : option string
}.

(** [if (x)] on an optional string: the value when it is there and not
    empty. *)
Definition given (o : option string) : option string :=
  match o with
  | Some x => if truthy x then Some x else None
  | None => None
  end.

(** The element pushed under a condition, as a list to append. *)
Definition pushIf (b : bool) (x : string) : list string := if b then [x] else [].

Definition pushGiven (o : option string) (f : string -> string) : list string :=
  match given o with Some x => [f x] | None => [] end.

Definition assetImports (dependencies : list string) (partitions : option string)
    : list string :=
  (["from dagster import asset"; "import pandas as pd"]
   ++ pushIf (isSome (given partitions)) "from dagster import DailyPartitionsDefinition"
   ++ pushIf (0 <? List.length dependencies)%nat "from dagster import AssetIn")%list.

Definition assetDecoratorOptions (description : option string)
    (dependencies : list string) (partitions : option string) (tags : list string)
    (compute_kind io_manager : option string) : list string :=
  let ins :=
    "ins={"
    ++ join ", " (map (fun dep => dq ++ dep ++ dq ++ ": AssetIn()") dependencies)
    ++ "}" in
  let tagSet := "tags={" ++ join ", " (map (fun tag => dq ++ tag ++ dq) tags) ++ "}" in
  (pushIf (0 <? List.length dependencies)%nat ins
   ++ pushGiven description (fun d => "description=" ++ dq ++ d ++ dq)%string
   ++ pushIf (0 <? List.length tags)%nat tagSet
   ++ pushGiven compute_kind (fun k => "compute_kind=" ++ dq ++ k ++ dq)%string
   ++ pushGiven io_manager (fun k => "io_manager_key=" ++ dq ++ k ++ dq)%string
   ++ pushGiven partitions
        (fun p => "partitions_def=DailyPartitionsDefinition(start_date="
                  ++ dq ++ p ++ dq ++ ")")%string)%list.

Definition assetDecorator (decoratorOptions : list string) : string :=
  if (0 <? List.length decoratorOptions)%nat
  then "@asset(" ++ join ", " decoratorOptions ++ ")"
  else "@asset".

Definition assetDefaultLogic (dependencies : list string) : string :=
  if (0 <? List.length dependencies)%nat then
    "    # Process input data" ++ nl
    ++ "    processed_data = pd.DataFrame()" ++ nl
    ++ "    " ++ nl
    ++ "    # TODO: Add your asset logic here" ++ nl
    ++ "    # Example: processed_data = " ++ nth 0 dependencies "undefined" ++ ".copy()" ++ nl
    ++ "    " ++ nl
    ++ "    return processed_data"
  else
    "    # TODO: Add your asset logic here" ++ nl
    ++ "    # Example: Load data from external source" ++ nl
    ++ "    data = pd.DataFrame({" ++ nl
    ++ "        'id': [1, 2, 3]," ++ nl
    ++ "        'value': [100, 200, 300]" ++ nl
    ++ "    })" ++ nl
    ++ "    " ++ nl
    ++ "    return data".

Definition generateDefaultAssetCode (name : string) (description : option string)
    (dependencies : list string) (partitions : option string) (tags : list string)
    (compute_kind io_manager : option string) : string :=
  let imports := assetImports dependencies partitions in
  let decoratorOptions :=
    assetDecoratorOptions description dependencies partitions tags compute_kind
      io_manager in
  let decorator := assetDecorator decoratorOptions in
  let functionParams :=
    if (0 <? List.length dependencies)%nat
    then join ", " (map (fun dep => dep ++ ": pd.DataFrame") dependencies)
    else EmptyString in
  let defaultLogic := assetDefaultLogic dependencies in
  join nl imports ++ nl
  ++ nl
  ++ nl
  ++ decorator ++ nl
  ++ "def " ++ name ++ "(" ++ functionParams ++ "):" ++ nl
  ++ "    " ++ dq ++ dq ++ dq ++ nl
  ++ "    " ++ Dbt.orString description ("Asset: " ++ name) ++ nl
  ++ "    " ++ nl
  ++ "    Returns:" ++ nl
  ++ "        pd.DataFrame: Processed data" ++ nl
  ++ "    " ++ dq ++ dq ++ dq ++ nl
  ++ defaultLogic ++ nl.

Definition generateDbtAssetCode (modelName : string) : string :=
  "from dagster import asset" ++ nl
  ++ "from dagster_dbt import dbt_assets, DbtCliResource" ++ nl
  ++ "from dagster import Config" ++ nl
  ++ "import pandas as pd" ++ nl
  ++ nl
  ++ nl
  ++ "class DbtConfig(Config):" ++ nl
  ++ "    " ++ dq ++ dq ++ dq ++ "Configuration for DBT operations" ++ dq ++ dq ++ dq ++ nl
  ++ "    profiles_dir: str = " ++ dq ++ "config" ++ dq ++ nl
  ++ "    project_dir: str = " ++ dq ++ "data/dbt" ++ dq ++ nl
  ++ nl
  ++ nl
  ++ "@asset(compute_kind=" ++ dq ++ "dbt" ++ dq ++ ")" ++ nl
  ++ "def dbt_" ++ modelName ++ "(config: DbtConfig) -> pd.DataFrame:" ++ nl
  ++ "    " ++ dq ++ dq ++ dq ++ nl
  ++ "    Dagster asset for DBT model: " ++ modelName ++ nl
  ++ "    " ++ nl
  ++ "    This asset runs the DBT model and returns the results." ++ nl
  ++ "    " ++ dq ++ dq ++ dq ++ nl
  ++ "    # TODO: Implement DBT model execution" ++ nl
  ++ "    # This is a placeholder - in production you'd use dagster-dbt integration" ++ nl
  ++ "    " ++ nl
  ++ "    # For now, return empty DataFrame" ++ nl
  ++ "    return pd.DataFrame()" ++ nl
  ++ nl
  ++ nl
  ++ "# Alternative: Use dagster-dbt integration (recommended for production)" ++ nl
  ++ "# @dbt_assets(" ++ nl
  ++ "#     manifest=dbt_manifest_path," ++ nl
  ++ "#     select=" ++ dq ++ modelName ++ dq ++ "," ++ nl
  ++ "#     compute_kind=" ++ dq ++ "dbt" ++ dq ++ nl
  ++ "# )" ++ nl
  ++ "# def dbt_" ++ modelName
  ++ "_assets(context: AssetExecutionContext, dbt: DbtCliResource):" ++ nl
  ++ "#     yield from dbt.cli([" ++ dq ++ "build" ++ dq ++ "], context=context).stream()" ++ nl.

Definition generateScheduleCode (assetOrJobName schedule : string) (isJob : bool)
    : string :=
  let imports :=
    if isJob
    then "from dagster import schedule" ++ nl
         ++ "from ..jobs." ++ assetOrJobName ++ " import " ++ assetOrJobName
    else "from dagster import schedule, RunRequest" ++ nl
         ++ "from ..assets." ++ assetOrJobName ++ " import " ++ assetOrJobName in
  let scheduleFunction :=
    if isJob
    then "@schedule(cron_schedule=" ++ dq ++ schedule ++ dq ++ ", job=" ++ assetOrJobName
         ++ ")" ++ nl
         ++ "def " ++ assetOrJobName ++ "_schedule():" ++ nl
         ++ "    " ++ dq ++ dq ++ dq ++ "Schedule for " ++ assetOrJobName ++ " job"
         ++ dq ++ dq ++ dq ++ nl
         ++ "    return {}"
    else "@schedule(cron_schedule=" ++ dq ++ schedule ++ dq ++ ")" ++ nl
         ++ "def " ++ assetOrJobName ++ "_schedule():" ++ nl
         ++ "    " ++ dq ++ dq ++ dq ++ "Schedule for " ++ assetOrJobName ++ " asset"
         ++ dq ++ dq ++ dq ++ nl
         ++ "    return RunRequest(asset_selection=[" ++ assetOrJobName ++ "])" in
  imports ++ nl
  ++ nl
  ++ nl
  ++ scheduleFunction ++ nl.

Definition updateSchedulesInit (cfg : DagsterConfig) (scheduleName : string)
    : Fs.t -> Fs.t :=
  updateInitFile (Fs.join (Fs.join (dagsterPath cfg) "schedules") "__init__.py")
    scheduleName.

Definition generateSchedule (cfg : DagsterConfig) (assetOrJobName schedule : string)
    (isJob : bool) (fs : Fs.t) : Fs.t :=
  let schedulesPath := Fs.join (dagsterPath cfg) "schedules" in
  let fs1 := if Fs.existsDir schedulesPath fs then fs else Fs.mkdir schedulesPath fs in
  let scheduleCode := generateScheduleCode assetOrJobName schedule isJob in
  let schedulePath := Fs.join schedulesPath (assetOrJobName ++ "_schedule.py") in
  let fs2 := Fs.writeFile schedulePath scheduleCode fs1 in
  updateSchedulesInit cfg (assetOrJobName ++ "_schedule") fs2.

Definition generateAsset (cfg : DagsterConfig) (options : DagsterAssetOptions)
    (fs : Fs.t) : Fs.t :=
  let name := ao_name options in
  let dependencies := Dbt.orElse (ao_dependencies options) [] in
  let tags := Dbt.orElse (ao_tags options) [] in
  let fs1 :=
    if Fs.existsDir (assetsPath cfg) fs then fs else Fs.mkdir (assetsPath cfg) fs in
  let assetCode :=
    Dbt.orString (ao_code options)
      (generateDefaultAssetCode name (ao_description options) dependencies
         (ao_partitions options) tags (ao_compute_kind options)
         (ao_io_manager options)) in
  let assetPath := Fs.join (assetsPath cfg) (name ++ ".py") in
  let fs2 := Fs.writeFile assetPath assetCode fs1 in
  let fs3 := updateAssetsInit cfg name fs2 in
  match given (ao_schedule options) with
  | Some schedule => generateSchedule cfg name schedule false fs3
  | None => fs3
  end.

Definition generateDbtAsset (cfg : DagsterConfig) (modelName : string) (fs : Fs.t)
    : Fs.t :=
  let assetCode := generateDbtAssetCode modelName in
  let assetPath := Fs.join (assetsPath cfg) ("dbt_" ++ modelName ++ ".py") in
  let fs1 := Fs.writeFile assetPath assetCode fs in
  updateAssetsInit cfg ("dbt_" ++ modelName) fs1.

End DagsterCode.

(** ** The command line: list options *)

Module Cli.
Import JS.

(** [options.tags ? options.tags.split(',').map(t => t.trim()) : []], the
    reading of the options [--tags], [--deps] and [--assets]. *)
Definition listOption (o : option string) : list string :=
  match o with
  | Some s => if truthy s then map trim (split "," s) else []
  | None => []
  end.

End Cli.

(** ** [AIEngine]: reading the answer of the provider *)

Module Ai.
Import JS.

(** The text before and after the first occurrence of [needle]. *)
Fixpoint splitAt (needle s : string) : option (string * string) :=
  match stripPrefix needle s with
  | Some rest => Some (EmptyString, rest)
  | None =>
      match s with
      | EmptyString => None
      | String c r =>
          match splitAt needle r with
          | Some (a, b) => Some (String c a, b)
          | None => None
          end
      end
  end.

(** The opening and the closing line of a fenced block of language
    [lang]. *)
Definition fenceOpen (lang : string) : string := "```" ++ lang ++ nl.
Definition fenceClose : string := nl ++ "```".

(** The pattern [/```lang\n([\s\S]*?)\n```/] anchored at the head of [s]:
    the lazy group runs to the first closing line. *)
Definition fenceAt (lang s : string) : option (list string * string) :=
  match stripPrefix (fenceOpen lang) s with
  | Some r =>
      match splitAt fenceClose r with
      | Some (cap, post) => Some ([cap], post)
      | None => None
      end
  | None => None
  end.

(** [LineTerminator] among the code units below 256: the characters the
    dot of a pattern without flag [s] does not match. *)
Definition isLineTerminator (c : ascii) : bool := isChar 10 c || isChar 13 c.

(** The longest head of [s] without line terminator, and the rest. *)
Fixpoint lineRun (s : string) : string * string :=
  match s with
  | EmptyString => (EmptyString, EmptyString)
  | String c r =>
      if isLineTerminator c then (EmptyString, s)
      else let (a, b) := lineRun r in (String c a, b)
  end.

(** The pattern [\s*(.+)] at the head of [s]: the greedy [\s*] takes all
    the white space and gives it back, one character at a time, until a
    character follows that the dot matches. *)
Fixpoint spaceThenLine (s : string) : option (string * string) :=
  match s with
  | EmptyString => None
  | String c r =>
      if isWhiteSpace c then
        match spaceThenLine r with
        | Some found => Some found
        | None => if isLineTerminator c then None else Some (lineRun s)
        end
      else Some (lineRun s)
  end.

(** The pattern [/DESCRIPTION:\s*(.+)/] anchored at the head of [s]. *)
Definition descriptionAt (s : string) : option (list string * string) :=
  match stripPrefix "DESCRIPTION:" s with
  | Some r =>
      match spaceThenLine r with
      | Some (cap, post) => Some ([cap], post)
      | None => None
      end
  | None => None
  end.

(** What the two readers answer: the code and the description, or the
    error thrown. *)
Inductive Answer :=
| Parsed (code description : string)
| Thrown (message : string).

Definition parseDbtResponse (response : string) : Answer :=
  let sqlMatch := search (fenceAt "sql") response in
  let descriptionMatch := search descriptionAt response in
  match sqlMatch with
  | None => Thrown "Could not parse SQL from AI response"
  | Some m =>
      Parsed (trim (Dagster.group1 m))
        match descriptionMatch with
        | Some d => trim (Dagster.group1 d)
        | None => "AI-generated DBT model"
        end
  end.

Definition parseDagsterResponse (response : string) : Answer :=
  let codeMatch := search (fenceAt "python") response in
  let descriptionMatch := search descriptionAt response in
  match codeMatch with
  | None => Thrown "Could not parse Python code from AI response"
  | Some m =>
      Parsed (trim (Dagster.group1 m))
        match descriptionMatch with
        | Some d => trim (Dagster.group1 d)
        | None => "AI-generated Dagster asset"
        end
  end.

End Ai.

(** ** Vocabulary of the further properties *)

Module Notions.
Import JS Dbt Spec.

(** *** What the reader builds *)

(** A column as the reader builds it: a name and nothing else. *)
Definition nameOnly (c : SchemaColumn) : bool :=
  negb (isSome (sc_description c)) && negb (isSome (sc_tests c)).

(** A model as the reader builds it: no tests; columns, when there are
    any, are a list that is not empty of columns by name only. *)
Definition readShape (m : SchemaModel) : bool :=
  negb (isSome (sm_tests m))
  && match sm_columns m with
     | Some cs => (0 <? List.length cs)%nat && forallb nameOnly cs
     | None => true
     end.

(** Only the last model of the list has a [columns] field. *)
Fixpoint columnsLast (ms : list SchemaModel) : bool :=
  match ms with
  | [] => true
  | m :: rest =>
      match rest with [] => true | _ :: _ => negb (isSome (sm_columns m)) end
      && columnsLast rest
  end.

(** A model while the reader holds it: a clean name, a clean description
    or none, neither tests nor columns. *)
Definition openShape (m : SchemaModel) : bool :=
  cleanName (sm_name m) && cleanDescription (sm_description m)
  && negb (isSome (sm_tests m)) && negb (isSome (sm_columns m)).

(** A column while the reader holds it. *)
Definition columnRead (c : SchemaColumn) : bool := cleanName (sc_name c) && nameOnly c.

(** What holds of the variables of the reader's loop after every line:
    columns are collected in column scope only. *)
Definition readerInvariant (st : ParseState) : bool :=
  forallb openShape (result st)
  && match currentModel st with Some m => openShape m | None => true end
  && forallb columnRead (currentColumns st)
  && (inColumns st || match currentColumns st with [] => true | _ :: _ => false end).

(** The model with an empty description taken for none: the two are
    written alike. *)
Definition sayModel (m : SchemaModel) : SchemaModel :=
  mkModel (sm_name m) (said (sm_description m)) (sm_tests m) (sm_columns m).

(** No model of the list has a [columns] field. *)
Definition withoutColumns (ms : list SchemaModel) : bool :=
  forallb (fun m => negb (isSome (sm_columns m))) ms.

(** *** Reading a written document with [columns] blocks anywhere *)

(** A written model that stands after a [columns:] line, as the reader
    takes it: its name and the names of its columns are further columns,
    its description lines further description lines. *)
Definition asColumns (m : SchemaModel) : list SchemaColumn :=
  mkColumn (sm_name m) (sm_description m) None :: nonEmptyList (sm_columns m).

(** What the reader makes of a written list of models: up to the first
    model with columns each model is read by itself; that model takes in
    all the models after it. *)
Fixpoint reread (ms : list SchemaModel) : list SchemaModel :=
  match ms with
  | [] => []
  | m :: rest =>
      if noColumns m then readModel m :: reread rest
      else [readModel
              (withColumns m (nonEmptyList (sm_columns m) ++ flat_map asColumns rest))]
  end.

(** The model [A], as read, after [k] further models named [B] were each
    taken for one of its columns. *)
Definition grown (A : SchemaModel) (B : string) (k : nat) : SchemaModel :=
  mkModel (sm_name A) (readDescription A) None
    (Some (map readColumn (nonEmptyList (sm_columns A))
           ++ repeat (mkColumn B None None) k)%list).

(** *** The default model text *)

(** The text of [generateDefaultSql] around the header line [header]. *)
Definition defaultModelText (modelName header : string) : string :=
  ("-- Generated model: " ++ modelName ++ nl
   ++ "-- TODO: Replace this with your actual SQL logic" ++ nl
   ++ nl)
  ++ header
  ++ (nl
      ++ nl
      ++ "select" ++ nl
      ++ "    1 as id," ++ nl
      ++ "    'sample' as name," ++ nl
      ++ "    current_timestamp as created_at" ++ nl
      ++ nl
      ++ "-- TODO: Add your transformations here" ++ nl
      ++ "-- Uncomment and modify the following example:" ++ nl
      ++ "-- from {{ ref('source_table') }}" ++ nl
      ++ "-- where condition = 'value'" ++ nl).

(** *** The answer of the provider *)

(** An answer in the format the prompts ask for: an introduction, the
    fenced code, an empty line, the description line, and what follows
    it. *)
Definition documented (intro lang code description tail : string) : string :=
  intro ++ Ai.fenceOpen lang ++ code ++ Ai.fenceClose ++ nl ++ nl
  ++ "DESCRIPTION: " ++ description ++ tail.

(** The string is empty or starts with a line terminator. *)
Definition lineEnd (s : string) : bool :=
  match s with
  | EmptyString => true
  | String c _ => Ai.isLineTerminator c
  end.

(** No code unit of the string is a line terminator. *)
Fixpoint oneLine (s : string) : bool :=
  match s with
  | EmptyString => true
  | String c r => negb (Ai.isLineTerminator c) && oneLine r
  end.

(** *** The index file of identifiers *)

(** Letters, digits and the underscore. *)
Definition isWordChar (c : ascii) : bool :=
  let n := nat_of_ascii c in
  ((48 <=? n) && (n <=? 57) || (65 <=? n) && (n <=? 90) || (97 <=? n) && (n <=? 122)
   || (n =? 95))%nat.

Fixpoint allWord (s : string) : bool :=
  match s with
  | EmptyString => true
  | String c r => isWordChar c && allWord r
  end.

(** A name made of letters, digits and underscores, not empty. *)
Definition identifier (x : string) : bool := truthy x && allWord x.

(** The names registered so far, with one more: a name already there is
    not added. *)
Definition register (regs : list string) (x : string) : list string :=
  if existsb (String.eqb x) regs then regs else (regs ++ [x])%list.

(** The names of a sequence of calls, each once, in the order of their
    first call. *)
Definition registered (names : list string) : list string := fold_left register names [].

(** The members as the merger writes them: bare, the last one between
    double quotes. *)
Fixpoint listed (regs : list string) : list string :=
  match regs with
  | [] => []
  | x :: rest =>
      match rest with
      | [] => [Dagster.quoted x]
      | _ :: _ => x :: listed rest
      end
  end.

(** The index file of the names [regs]: the import line of the first, an
    empty line, the list, and the import lines of the others. *)
Definition indexText (regs : list string) : string :=
  match regs with
  | [] => EmptyString
  | first :: rest =>
      Dagster.importLine first ++ nl ++ nl ++ Dagster.allConstruct (listed regs) ++ nl
      ++ unlines (map Dagster.importLine rest)
  end.

(** A name that is one segment of a path: neither slash nor backslash, so
    that [path.join] puts it after the directory as it is. *)
Definition oneSegment (name : string) : bool :=
  negb (hasChar 47 name) && negb (hasChar 92 name).

End Notions.

(** ** Facts on strings and on the JavaScript primitives *)

Module StrFacts.
Import JS Spec.

Lemma append_nil_r (s : string) : s ++ "" = s.
Proof. induction s as [|c s IH]; simpl; [reflexivity | now rewrite IH]. Qed.

Lemma append_assoc (a b c : string) : (a ++ b) ++ c = a ++ b ++ c.
Proof. induction a as [|x a IH]; simpl; [reflexivity | now rewrite IH]. Qed.

Lemma length_append (a b : string) :
  String.length (a ++ b) = (String.length a + String.length b)%nat.
Proof. induction a as [|x a IH]; simpl; [reflexivity | now rewrite IH]. Qed.

Lemma append_inv_head (a b c : string) : a ++ b = a ++ c -> b = c.
Proof.
  induction a as [|x a IH]; simpl; intros H; [exact H | injection H; auto].
Qed.

Lemma append_eq_append (a b c d : string) :
  a ++ b = c ++ d ->
  exists l, (a = c ++ l /\ d = l ++ b) \/ (c = a ++ l /\ b = l ++ d).
Proof.
  revert c; induction a as [|x a IH]; intros c H; simpl in H.
  - exists c. right. split; [reflexivity | exact H].
  - destruct c as [|y c]; simpl in H.
    + exists (String x a). left. split; [reflexivity | now rewrite <- H].
    + injection H as -> H. destruct (IH _ H) as [l [[-> ->] | [-> ->]]];
        exists l; [left | right]; split; reflexivity.
Qed.

Lemma append_eq_nil (a b : string) : a ++ b = "" -> a = "" /\ b = "".
Proof. destruct a; simpl; [auto | discriminate]. Qed.

Lemma append_inv_tail (a b c : string) : a ++ c = b ++ c -> a = b.
Proof.
  revert b; induction a as [|x a IH]; intros b H.
  - destruct b as [|y b]; [reflexivity|].
    apply (f_equal String.length) in H. simpl in H.
    rewrite length_append in H. lia.
  - destruct b as [|y b].
    + apply (f_equal String.length) in H. simpl in H.
      rewrite length_append in H. lia.
    + simpl in H. injection H as -> H. f_equal. now apply IH.
Qed.

(** *** Literal prefixes *)

Lemma stripPrefix_spec (p s r : string) : stripPrefix p s = Some r <-> s = p ++ r.
Proof.
  revert s; induction p as [|a p IH]; intros s.
  - destruct s; simpl; (split; [now intros [= ->] | now intros ->]).
  - destruct s as [|b s]; simpl; [split; discriminate|].
    destruct (Ascii.eqb_spec a b) as [->|Hne].
    + rewrite IH. split; [now intros -> | now intros [= ->]].
    + split; [discriminate | intros [= E _]; congruence].
Qed.

Lemma stripPrefix_append (p r : string) : stripPrefix p (p ++ r) = Some r.
Proof. now apply stripPrefix_spec. Qed.

Lemma startsWith_stripPrefix (s p : string) :
  startsWith s p = match stripPrefix p s with Some _ => true | None => false end.
Proof.
  revert s; induction p as [|a p IH]; intros s.
  - now destruct s.
  - destruct s as [|b s]; simpl; [reflexivity|].
    destruct (Ascii.eqb a b); simpl; [apply IH | reflexivity].
Qed.

Lemma startsWith_spec (s p : string) :
  startsWith s p = true <-> exists r, s = p ++ r.
Proof.
  rewrite startsWith_stripPrefix. split.
  - destruct (stripPrefix p s) as [r|] eqn:E; [|discriminate].
    intros _. exists r. now apply stripPrefix_spec.
  - intros [r ->]. now rewrite stripPrefix_append.
Qed.

Lemma startsWith_append (p r : string) : startsWith (p ++ r) p = true.
Proof. apply startsWith_spec. now exists r. Qed.

Lemma includes_spec (s needle : string) :
  includes s needle = true <-> exists a b, s = a ++ needle ++ b.
Proof.
  induction s as [|c s IH]; simpl.
  - rewrite orb_false_r, startsWith_spec. split.
    + intros [r E]. exists "", r. exact E.
    + intros [a [b E]]. symmetry in E. apply append_eq_nil in E as [-> E].
      apply append_eq_nil in E as [-> ->]. now exists "".
  - rewrite orb_true_iff, startsWith_spec, IH. split.
    + intros [[r E] | [a [b ->]]].
      * exists "", r. exact E.
      * now exists (String c a), b.
    + intros [[|x a] [b E]]; simpl in E.
      * left. now exists b.
      * right. injection E as -> ->. now exists a, b.
Qed.

Lemma includes_append (a needle b : string) : includes (a ++ needle ++ b) needle = true.
Proof. apply includes_spec. now exists a, b. Qed.

(** *** Occurrences of one code unit *)

Lemma isChar_eq (n : nat) (c : ascii) :
  (n < 256)%nat -> isChar n c = true <-> c = ascii_of_nat n.
Proof.
  intros Hn. unfold isChar. rewrite Nat.eqb_eq. split.
  - intros <-. now rewrite ascii_nat_embedding.
  - intros ->. now apply nat_ascii_embedding.
Qed.

Lemma hasChar_append (n : nat) (a b : string) :
  hasChar n (a ++ b) = hasChar n a || hasChar n b.
Proof.
  induction a as [|c a IH]; simpl; [reflexivity | now rewrite IH, orb_assoc].
Qed.

Lemma isChar_ascii (n : nat) : (n < 256)%nat -> isChar n (ascii_of_nat n) = true.
Proof. intros Hn. now apply isChar_eq. Qed.

Lemma splitFirst_sound (n : nat) (s a b : string) :
  (n < 256)%nat ->
  splitFirst n s = Some (a, b) -> s = a ++ chr n ++ b /\ hasChar n a = false.
Proof.
  intros Hn. revert a b; induction s as [|c s IH]; intros a b; simpl; [discriminate|].
  destruct (isChar n c) eqn:Ec.
  - apply isChar_eq in Ec as ->; [|exact Hn]. intros [= <- <-]. now split.
  - destruct (splitFirst n s) as [[x y]|]; [|discriminate].
    intros [= <- <-]. destruct (IH x y eq_refl) as [-> Hx].
    simpl. rewrite Ec. now split.
Qed.

Lemma splitFirst_complete (n : nat) (a b : string) :
  (n < 256)%nat -> hasChar n a = false ->
  splitFirst n (a ++ chr n ++ b) = Some (a, b).
Proof.
  intros Hn. induction a as [|c a IH]; cbn; intros Ha.
  - unfold chr. simpl. now rewrite isChar_ascii.
  - apply orb_false_iff in Ha as [Hc Ha]. now rewrite Hc, IH.
Qed.

Lemma splitFirst_spec (n : nat) (s a b : string) :
  (n < 256)%nat ->
  splitFirst n s = Some (a, b) <-> s = a ++ chr n ++ b /\ hasChar n a = false.
Proof.
  intros Hn. split; [now apply splitFirst_sound|].
  intros [-> Ha]. now apply splitFirst_complete.
Qed.

Lemma splitFirst_None (n : nat) (s : string) :
  splitFirst n s = None <-> hasChar n s = false.
Proof.
  induction s as [|c s IH]; simpl; [tauto|].
  destruct (isChar n c); simpl; [split; discriminate|].
  destruct (splitFirst n s) as [[x y]|].
  - split; [discriminate|]. intros H. apply IH in H. discriminate.
  - split; [intros _; now apply IH | reflexivity].
Qed.

Lemma hasChar_chr (n : nat) : (n < 256)%nat -> hasChar n (chr n) = true.
Proof.
  intros Hn. unfold chr. simpl. now rewrite isChar_ascii.
Qed.

(** The first occurrence of a code unit is where it is. *)
Lemma first_occurrence (n : nat) (a b a' b' : string) :
  (n < 256)%nat ->
  a ++ chr n ++ b = a' ++ chr n ++ b' ->
  hasChar n a = false -> hasChar n a' = false ->
  a = a' /\ b = b'.
Proof.
  intros Hn E Ha Ha'.
  assert (splitFirst n (a ++ chr n ++ b) = Some (a, b)) as E1
    by (apply splitFirst_spec; auto).
  assert (splitFirst n (a ++ chr n ++ b) = Some (a', b')) as E2
    by (apply splitFirst_spec; auto).
  rewrite E1 in E2. now injection E2 as -> ->.
Qed.

Lemma split_nonempty (c : ascii) (s : string) : split c s <> [].
Proof.
  induction s as [|x s IH]; simpl; [discriminate|].
  destruct (Ascii.eqb x c); [discriminate|].
  destruct (split c s); [contradiction | discriminate].
Qed.

(** *** White space at the two ends *)

Lemma trimEnd_append (a b : string) :
  trimEnd (a ++ b) = if truthy (trimEnd b) then a ++ trimEnd b else trimEnd a.
Proof.
  induction a as [|c a IH]; simpl.
  - now destruct (trimEnd b).
  - rewrite IH. destruct (trimEnd b) as [|x r]; simpl; [reflexivity|].
    now destruct a.
Qed.

Lemma length_trimStart (s : string) : (String.length (trimStart s) <= String.length s)%nat.
Proof.
  induction s as [|c s IH]; simpl; [lia|].
  destruct (isWhiteSpace c); simpl; lia.
Qed.

Lemma length_trimEnd (s : string) : (String.length (trimEnd s) <= String.length s)%nat.
Proof.
  induction s as [|c s IH]; simpl; [lia|].
  destruct (trimEnd s); [destruct (isWhiteSpace c)|]; simpl in *; lia.
Qed.

Lemma trimStart_fixed (s : string) :
  String.length (trimStart s) = String.length s -> trimStart s = s.
Proof.
  destruct s as [|c s]; simpl; [reflexivity|].
  destruct (isWhiteSpace c); [|reflexivity].
  pose proof (length_trimStart s). lia.
Qed.

(** A string that [trim] leaves alone has no white space at either end. *)
Lemma trim_fixed (s : string) : trim s = s -> trimStart s = s /\ trimEnd s = s.
Proof.
  unfold trim. intros H.
  pose proof (length_trimStart s) as H1.
  pose proof (length_trimEnd (trimStart s)) as H2.
  assert (String.length (trimEnd (trimStart s)) = String.length s) as H3
    by now rewrite H.
  assert (trimStart s = s) as E by (apply trimStart_fixed; lia).
  split; [exact E | now rewrite E in H].
Qed.

Lemma trim_space_cons (s : string) : trim (String " " s) = trim s.
Proof. reflexivity. Qed.

(** *** Splitting and joining on one code unit *)

Lemma eqb_isChar (n : nat) (c : ascii) :
  (n < 256)%nat -> Ascii.eqb c (ascii_of_nat n) = isChar n c.
Proof.
  intros Hn. destruct (isChar n c) eqn:E.
  - apply isChar_eq in E as ->; [|exact Hn]. apply Ascii.eqb_refl.
  - apply Ascii.eqb_neq. intros ->. now rewrite isChar_ascii in E.
Qed.

Lemma split_no_sep (n : nat) (s : string) :
  (n < 256)%nat -> hasChar n s = false -> split (ascii_of_nat n) s = [s].
Proof.
  intros Hn. induction s as [|c s IH]; simpl; [reflexivity|].
  intros H. apply orb_false_iff in H as [Hc Hs].
  now rewrite eqb_isChar, Hc, IH.
Qed.

Lemma split_append (n : nat) (a b : string) :
  (n < 256)%nat -> hasChar n a = false ->
  split (ascii_of_nat n) (a ++ chr n ++ b) = a :: split (ascii_of_nat n) b.
Proof.
  intros Hn. induction a as [|c a IH]; cbn; intros Ha.
  - unfold chr. simpl. now rewrite Ascii.eqb_refl.
  - apply orb_false_iff in Ha as [Hc Ha].
    now rewrite eqb_isChar, Hc, IH.
Qed.

Lemma join_split (c : ascii) (s : string) : join (String c "") (split c s) = s.
Proof.
  induction s as [|x s IH]; simpl; [reflexivity|].
  destruct (Ascii.eqb_spec x c) as [->|Hne].
  - destruct (split c s) as [|h t] eqn:E; [now apply split_nonempty in E|].
    change (join (String c "") ("" :: h :: t)) with (String c (join (String c "") (h :: t))).
    now rewrite IH.
  - destruct (split c s) as [|h t] eqn:E; [now apply split_nonempty in E|].
    rewrite <- IH. destruct t; reflexivity.
Qed.

Lemma substring_prefix (t p : string) :
  substring 0 (String.length (t ++ p) - String.length p) (t ++ p) = t.
Proof.
  rewrite length_append.
  replace (String.length t + String.length p - String.length p)%nat
    with (String.length t) by lia.
  induction t as [|c t IH]; cbn [String.length String.append substring].
  - now destruct p.
  - now rewrite IH.
Qed.

Lemma hasChar_join (n : nat) (sep : string) (l : list string) :
  hasChar n sep = false -> forallb (fun e => negb (hasChar n e)) l = true ->
  hasChar n (join sep l) = false.
Proof.
  intros Hs. induction l as [|e l IH]; [reflexivity|].
  cbn [forallb]. intros H. apply andb_true_iff in H as [He Hl].
  apply negb_true_iff in He. destruct l as [|e' l]; [exact He|].
  change (join sep (e :: e' :: l)) with (e ++ sep ++ join sep (e' :: l)).
  now rewrite !hasChar_append, He, Hs, IH.
Qed.

Lemma forallb_weaken {A} (p q : A -> bool) (l : list A) :
  (forall x, p x = true -> q x = true) -> forallb p l = true -> forallb q l = true.
Proof. rewrite !forallb_forall. intros H Hp x Hx. auto. Qed.

Lemma forallb_filter {A} (p q : A -> bool) (l : list A) :
  forallb p l = true -> forallb p (List.filter q l) = true.
Proof.
  rewrite !forallb_forall. intros H x Hx. apply filter_In in Hx as [Hx _]. now apply H.
Qed.

Lemma some_eq (a b : string) : Some a = Some b -> a = b.
Proof. congruence. Qed.

Lemma getSubstitution_plain (matched pre post : string) (captures : list string)
    (template : string) :
  hasChar 36 template = false ->
  getSubstitution matched pre post captures template = template.
Proof.
  induction template as [|c t IH]; [reflexivity|].
  cbn [hasChar getSubstitution]. intros H. apply orb_false_iff in H as [Hc Ht].
  now rewrite Hc, IH.
Qed.

End StrFacts.

(** ** Facts on the file system *)

Module FsFacts.

Lemma readFile_writeFile (p content : string) (fs : Fs.t) :
  Fs.readFile p (Fs.writeFile p content fs) = Some content.
Proof. unfold Fs.readFile, Fs.writeFile. cbn. apply lookup_insert_eq. Qed.

Lemma readFile_other (p q content : string) (fs : Fs.t) :
  p <> q -> Fs.readFile q (Fs.writeFile p content fs) = Fs.readFile q fs.
Proof. intros H. unfold Fs.readFile, Fs.writeFile. cbn. now apply lookup_insert_ne. Qed.

End FsFacts.

(** ** The directory convention and the totality of the reader *)

Module DbtFacts.
Import JS Spec StrFacts Dbt.

Lemma nameField_defined (trimmed : string) :
  startsWith trimmed "- name:" = true -> exists n, nameField trimmed = Some n.
Proof.
  intros H. apply startsWith_spec in H as [r ->].
  unfold nameField. cbn.
  destruct (split ":" r) as [|h t] eqn:E; [now apply split_nonempty in E|].
  cbn. now exists (trim h).
Qed.

Lemma parseLine_defined (st : ParseState) (line : string) :
  exists st', parseLine st line = Some st'.
Proof.
  unfold parseLine.
  destruct (startsWith (trim line) "- name:") eqn:Hn; cbn.
  - destruct (nameField_defined _ Hn) as [n ->].
    destruct (inColumns st); cbn.
    + destruct (_ && _); [eauto|]. destruct (String.eqb _ _); eauto.
    + eauto.
  - destruct (_ && _); [eauto|]. destruct (String.eqb _ _); eauto.
Qed.

Lemma parseLines_defined (lines : list string) (st : ParseState) :
  exists st', parseLines st lines = Some st'.
Proof.
  revert st; induction lines as [|l ls IH]; intros st; simpl; [eauto|].
  destruct (parseLine_defined st l) as [st' ->]. apply IH.
Qed.

(** In column scope, with no model open, no model is ever opened. *)
Lemma parseLines_columns_only (lines : list string) (st : ParseState) :
  result st = [] -> currentModel st = None -> inColumns st = true ->
  exists st', parseLines st lines = Some st'
              /\ result st' = [] /\ currentModel st' = None.
Proof.
  revert st; induction lines as [|l ls IH]; intros st Hr Hc Hi; cbn [parseLines].
  - eauto.
  - unfold parseLine. rewrite Hc, Hi. cbn [negb isSome option_map].
    rewrite !andb_false_r, andb_true_r.
    destruct (String.eqb (trim l) "columns:"); [now apply IH|].
    destruct (startsWith (trim l) "- name:") eqn:E; [|now apply IH].
    destruct (nameField_defined _ E) as [n ->]. now apply IH.
Qed.

(** Once a model is open the models read are not the empty list. *)
Lemma parseLines_opened (lines : list string) (st st' : ParseState) :
  currentModel st <> None -> parseLines st lines = Some st' -> currentModel st' <> None.
Proof.
  revert st; induction lines as [|l ls IH]; intros st Hc; cbn [parseLines].
  - now intros [= <-].
  - destruct (parseLine st l) as [st1|] eqn:E; [|discriminate].
    apply IH. unfold parseLine in E.
    destruct (currentModel st) as [m|] eqn:Em; [|contradiction].
    destruct (startsWith (trim l) "- name:" && negb (inColumns st)).
    { destruct (nameField (trim l)); [|discriminate]. now injection E as <-. }
    destruct (startsWith (trim l) "description:" && isSome (Some m)).
    { injection E as <-. cbn. discriminate. }
    destruct (String.eqb (trim l) "columns:").
    { injection E as <-. cbn. discriminate. }
    destruct (startsWith (trim l) "- name:" && inColumns st).
    { destruct (nameField (trim l)); [|discriminate]. injection E as <-. cbn.
      discriminate. }
    injection E as <-. now rewrite Em.
Qed.

Lemma pushCurrent_opened (st : ParseState) :
  currentModel st <> None -> pushCurrent st <> [].
Proof.
  unfold pushCurrent. destruct (currentModel st); [|contradiction].
  intros _ H. now apply app_eq_nil in H as [_ H].
Qed.

(** The reader answers no model exactly when no [- name:] line stands
    before the first [columns:] line. *)
Lemma parseLines_noModelLine (lines : list string) (st : ParseState) :
  result st = [] -> currentModel st = None -> inColumns st = false ->
  exists st', parseLines st lines = Some st'
              /\ (pushCurrent st' = [] <-> noModelLine lines = true).
Proof.
  revert st; induction lines as [|l ls IH]; intros st Hr Hc Hi.
  - exists st. split; [reflexivity|]. unfold pushCurrent. rewrite Hc, Hr. now split.
  - cbn [parseLines noModelLine]. unfold parseLine. rewrite Hc, Hi.
    cbn [negb isSome option_map]. rewrite andb_true_r, !andb_false_r.
    destruct (startsWith (trim l) "- name:") eqn:E.
    + destruct (nameField_defined _ E) as [n ->].
      destruct (parseLines_defined ls
                  (mkState (pushCurrent st) (Some (mkModel n None None None)) [] false))
        as [st' Hst'].
      exists st'. split; [exact Hst'|]. split; [|discriminate].
      intros H. exfalso. apply (pushCurrent_opened st'); [|exact H].
      apply (parseLines_opened ls _ _) in Hst'; [exact Hst' | cbn; discriminate].
    + destruct (String.eqb (trim l) "columns:").
      * destruct (parseLines_columns_only ls
                    (mkState (result st) None (currentColumns st) true))
          as [st' (Hst' & Hr' & Hc')]; try assumption; try reflexivity.
        exists st'. split; [exact Hst'|]. unfold pushCurrent. rewrite Hc', Hr'.
        now split.
      * now apply IH.
Qed.

(** C3: [getModelDirectory] is defined on every string; a name that starts
    with [stg_] goes to staging, with [int_] to intermediate, with [fct_]
    or [dim_] to marts, every other name to staging; and so the five names
    of the specification go to staging, intermediate, marts, marts and
    staging. *)
Theorem getModelDirectory_dispatch (modelName : string) :
  (startsWith modelName "stg_" = true -> getModelDirectory modelName = "staging")
  /\ (startsWith modelName "int_" = true -> getModelDirectory modelName = "intermediate")
  /\ (startsWith modelName "fct_" = true \/ startsWith modelName "dim_" = true ->
      getModelDirectory modelName = "marts")
  /\ (startsWith modelName "stg_" = false -> startsWith modelName "int_" = false ->
      startsWith modelName "fct_" = false -> startsWith modelName "dim_" = false ->
      getModelDirectory modelName = "staging")
  /\ (getModelDirectory modelName = "staging"
      \/ getModelDirectory modelName = "intermediate"
      \/ getModelDirectory modelName = "marts")
  /\ map getModelDirectory ["stg_x"; "int_x"; "fct_x"; "dim_x"; "other_x"]
     = ["staging"; "intermediate"; "marts"; "marts"; "staging"].
Proof.
  unfold getModelDirectory.
  assert (forall a b c : ascii, Ascii.eqb a c = true -> Ascii.eqb b c = true -> a = b)
    as Heq by (intros a b c Ha Hb; apply Ascii.eqb_eq in Ha, Hb; congruence).
  repeat split.
  - now intros ->.
  - intros Hi. destruct (startsWith modelName "stg_") eqn:Hs; [|now rewrite Hi].
    destruct modelName as [|c r]; [discriminate|]. cbn in Hi, Hs.
    apply andb_true_iff in Hi as [Hi _]. apply andb_true_iff in Hs as [Hs _].
    now specialize (Heq _ _ _ Hi Hs).
  - intros Hm.
    assert (startsWith modelName "stg_" = false) as ->.
    { destruct (startsWith modelName "stg_") eqn:Hs; [|reflexivity].
      destruct modelName as [|c r]; [discriminate|]. cbn in Hm, Hs.
      apply andb_true_iff in Hs as [Hs _].
      destruct Hm as [Hm | Hm]; apply andb_true_iff in Hm as [Hm _];
        now specialize (Heq _ _ _ Hm Hs). }
    assert (startsWith modelName "int_" = false) as ->.
    { destruct (startsWith modelName "int_") eqn:Hs; [|reflexivity].
      destruct modelName as [|c r]; [discriminate|]. cbn in Hm, Hs.
      apply andb_true_iff in Hs as [Hs _].
      destruct Hm as [Hm | Hm]; apply andb_true_iff in Hm as [Hm _];
        now specialize (Heq _ _ _ Hm Hs). }
    destruct Hm as [-> | ->]; [reflexivity | now rewrite orb_true_r].
  - now intros -> -> -> ->.
  - destruct (startsWith modelName "stg_"); [now left|].
    destruct (startsWith modelName "int_"); [now right; left|].
    destruct (_ || _); [now right; right | now left].
Qed.

Lemma getModelDirectory_dispatch_witness :
  startsWith "fct_sales" "fct_" = true /\ getModelDirectory "fct_sales" = "marts".
Proof.
  split; [reflexivity|].
  apply (getModelDirectory_dispatch "fct_sales"). left. reflexivity.
Defined.

(** C7: on every input the [try] block of [parseBasicYaml] runs to its end
    (the [catch] clause is never entered) and the answer is a version 2
    document; the answer is the empty document exactly when no [- name:]
    line stands before the first [columns:] line, so a content in which the
    reader recognises no model gives the empty document. *)
Theorem parseBasicYaml_total (content : string) :
  (exists ms, parseBasicYamlTry content = Some (mkSchema 2 ms)
              /\ parseBasicYaml content = mkSchema 2 ms)
  /\ (parseBasicYaml content = emptySchema
      <-> noModelLine (split "010" content) = true).
Proof.
  unfold parseBasicYaml, parseBasicYamlTry. split.
  - destruct (parseLines_defined (split "010" content) initialState) as [st ->].
    eauto.
  - destruct (parseLines_noModelLine (split "010" content) initialState
                eq_refl eq_refl eq_refl) as [st [-> H]].
    unfold emptySchema. rewrite <- H. split; [now intros [= ->] | now intros ->].
Qed.

Lemma parseBasicYaml_total_witness :
  parseBasicYaml ("{ not: [yaml" ++ nl ++ "  description: lost" ++ nl ++ "columns:"
                  ++ nl ++ "  - name: nobody")
  = emptySchema.
Proof.
  apply (parseBasicYaml_total
           ("{ not: [yaml" ++ nl ++ "  description: lost" ++ nl ++ "columns:"
            ++ nl ++ "  - name: nobody")).
  reflexivity.
Defined.

End DbtFacts.

(** ** The schema file: what the reader makes of what the writer wrote *)

Module SchemaFacts.
Import JS Spec StrFacts FsFacts Dbt.

Lemma concatMap_app {A} (f : A -> string) (l1 l2 : list A) :
  concatMap f (l1 ++ l2) = concatMap f l1 ++ concatMap f l2.
Proof.
  induction l1 as [|x l1 IH]; simpl; [reflexivity|].
  now rewrite IH, append_assoc.
Qed.

Lemma concatMap_map {A B} (g : A -> B) (f : B -> string) (l : list A) :
  concatMap f (map g l) = concatMap (fun x => f (g x)) l.
Proof. induction l as [|x l IH]; simpl; [reflexivity | now rewrite IH]. Qed.

Lemma concatMap_ext {A} (f g : A -> string) (l : list A) :
  (forall x, f x = g x) -> concatMap f l = concatMap g l.
Proof.
  intros H. induction l as [|x l IH]; simpl; [reflexivity | now rewrite H, IH].
Qed.

Lemma concatMap_flat_map {A} (f : A -> list string) (l : list A) :
  unlines (flat_map f l) = concatMap (fun x => unlines (f x)) l.
Proof.
  unfold unlines. induction l as [|x l IH]; simpl; [reflexivity|].
  now rewrite concatMap_app, IH.
Qed.

Lemma unlines_app (l1 l2 : list string) : unlines (l1 ++ l2) = unlines l1 ++ unlines l2.
Proof. apply concatMap_app. Qed.

Lemma unlines_cons (l : string) (ls : list string) : unlines (l :: ls) = l ++ nl ++ unlines ls.
Proof. unfold unlines. simpl. now rewrite append_assoc. Qed.

Lemma unlines_descriptionLines (indent : string) (o : option string) :
  unlines (descriptionLines indent o)
  = match o with
    | Some d => if truthy d then indent ++ "description: " ++ d ++ nl else EmptyString
    | None => EmptyString
    end.
Proof.
  unfold descriptionLines, said. destruct o as [d|]; [|reflexivity].
  destruct (truthy d); [|reflexivity].
  rewrite unlines_cons. cbn. now rewrite ?append_assoc, append_nil_r.
Qed.

Lemma unlines_testLines (indent : string) (ts : list string) :
  unlines (testLines indent ts)
  = match ts with
    | [] => EmptyString
    | _ :: _ => indent ++ "tests:" ++ nl
                ++ concatMap (fun test => indent ++ "  - " ++ test ++ nl) ts
    end.
Proof.
  destruct ts as [|t ts]; [reflexivity|].
  unfold testLines. rewrite unlines_cons. unfold unlines.
  rewrite concatMap_map, !append_assoc. do 3 f_equal.
  apply concatMap_ext. intros x. now rewrite ?append_assoc.
Qed.

Lemma yamlColumn_lines (c : SchemaColumn) : yamlColumn c = unlines (columnLines c).
Proof.
  unfold yamlColumn, columnLines.
  rewrite unlines_cons, unlines_app, unlines_descriptionLines, unlines_testLines.
  rewrite ?append_assoc.
  destruct (sc_description c) as [d|]; [destruct (truthy d)|];
    destruct (nonEmptyList (sc_tests c)); reflexivity.
Qed.

Lemma unlines_columnsLines (cs : list SchemaColumn) :
  unlines (columnsLines cs)
  = match cs with
    | [] => EmptyString
    | _ :: _ => "    columns:" ++ nl ++ concatMap yamlColumn cs
    end.
Proof.
  destruct cs as [|c cs]; [reflexivity|].
  unfold columnsLines. rewrite unlines_cons, concatMap_flat_map.
  do 2 f_equal. apply concatMap_ext. intros x. now rewrite yamlColumn_lines.
Qed.

Lemma yamlModel_lines (m : SchemaModel) : yamlModel m = unlines (modelLines m).
Proof.
  unfold yamlModel, modelLines.
  rewrite unlines_cons, !unlines_app, unlines_descriptionLines, unlines_testLines,
    unlines_columnsLines.
  rewrite ?append_assoc.
  destruct (sm_description m) as [d|]; [destruct (truthy d)|];
    destruct (nonEmptyList (sm_tests m)); destruct (nonEmptyList (sm_columns m));
    reflexivity.
Qed.

Lemma generateBasicYaml_lines (ms : list SchemaModel) :
  generateBasicYaml (mkSchema 2 ms) = unlines (documentLines ms).
Proof.
  unfold generateBasicYaml, documentLines.
  rewrite !unlines_cons, concatMap_flat_map. cbn [version models].
  assert (numberToString 2 = "2") as -> by reflexivity.
  rewrite ?append_assoc.
  assert (concatMap yamlModel ms = concatMap (fun x => unlines (modelLines x)) ms) as ->
    by (apply concatMap_ext; intros x; apply yamlModel_lines).
  reflexivity.
Qed.

Lemma split_unlines (ls : list string) :
  forallb noNewline ls = true -> split "010" (unlines ls) = (ls ++ [EmptyString])%list.
Proof.
  change "010"%char with (ascii_of_nat 10).
  induction ls as [|l ls IH]; [reflexivity|].
  cbn [forallb]. intros H. apply andb_true_iff in H as [Hl Hls].
  rewrite unlines_cons. unfold nl.
  rewrite split_append; [now rewrite IH | lia | now apply negb_true_iff].
Qed.

Lemma parseLines_app (l1 l2 : list string) (st : ParseState) :
  parseLines st (l1 ++ l2)
  = match parseLines st l1 with
    | Some st' => parseLines st' l2
    | None => None
    end.
Proof.
  revert st; induction l1 as [|l l1 IH]; intros st; simpl; [reflexivity|].
  destruct (parseLine st l); [apply IH | reflexivity].
Qed.

(** *** What each kind of line does to the state of the reader *)

Lemma hasChar_trimStart (n : nat) (s : string) :
  hasChar n s = false -> hasChar n (trimStart s) = false.
Proof.
  induction s as [|c s IH]; simpl; [reflexivity|].
  intros H. apply orb_false_iff in H as [Hc Hs].
  destruct (isWhiteSpace c); [now apply IH | simpl; now rewrite Hc, Hs].
Qed.

Lemma hasChar_trimEnd (n : nat) (s : string) :
  hasChar n s = false -> hasChar n (trimEnd s) = false.
Proof.
  induction s as [|c s IH]; simpl; [reflexivity|].
  intros H. apply orb_false_iff in H as [Hc Hs]. specialize (IH Hs).
  destruct (trimEnd s); [destruct (isWhiteSpace c)|]; simpl in *;
    rewrite ?Hc, ?IH; reflexivity.
Qed.

Lemma hasChar_trim (n : nat) (s : string) :
  hasChar n s = false -> hasChar n (trim s) = false.
Proof. intros H. now apply hasChar_trimEnd, hasChar_trimStart. Qed.

Lemma startsWith_hasChar (n : nat) (s p : string) :
  hasChar n p = true -> startsWith s p = true -> hasChar n s = true.
Proof.
  intros Hp H. apply startsWith_spec in H as [r ->].
  now rewrite hasChar_append, Hp.
Qed.

(** A line without a colon is passed over. *)
Lemma parseLine_ignored (st : ParseState) (line : string) :
  hasChar 58 line = false -> parseLine st line = Some st.
Proof.
  intros H. apply hasChar_trim in H. unfold parseLine.
  destruct (startsWith (trim line) "- name:") eqn:E1.
  { apply (startsWith_hasChar 58) in E1; [congruence | reflexivity]. }
  destruct (startsWith (trim line) "description:") eqn:E2.
  { apply (startsWith_hasChar 58) in E2; [congruence | reflexivity]. }
  destruct (String.eqb_spec (trim line) "columns:") as [E3|_].
  { rewrite E3 in H. discriminate. }
  reflexivity.
Qed.

Lemma parseLines_ignored (lines : list string) (st : ParseState) :
  forallb noColon lines = true -> parseLines st lines = Some st.
Proof.
  induction lines as [|l ls IH]; simpl; [reflexivity|].
  intros H. apply andb_true_iff in H as [Hl Hls].
  rewrite parseLine_ignored; [now apply IH | now apply negb_true_iff].
Qed.

Lemma cleanName_inv (n : string) :
  cleanName n = true -> trim n = n /\ hasChar 10 n = false /\ hasChar 58 n = false.
Proof.
  unfold cleanName, isTrimmed, noNewline, noColon. intros H.
  apply andb_true_iff in H as [H H3]. apply andb_true_iff in H as [H1 H2].
  apply String.eqb_eq in H1. apply negb_true_iff in H2, H3. auto.
Qed.

Lemma cleanText_inv (d : string) :
  cleanText d = true -> trim d = d /\ hasChar 10 d = false.
Proof.
  unfold cleanText, isTrimmed, noNewline. intros H.
  apply andb_true_iff in H as [H1 H2].
  apply String.eqb_eq in H1. apply negb_true_iff in H2. auto.
Qed.

Lemma trimEnd_nameLine (n : string) :
  trim n = n -> trimEnd ("- name: " ++ n) = trimmedNameLine n.
Proof.
  intros H. apply trim_fixed in H as [_ H]. rewrite trimEnd_append, H.
  unfold trimmedNameLine. now destruct n.
Qed.

Lemma trim_modelNameLine (n : string) :
  trim n = n -> trim ("  - name: " ++ n) = trimmedNameLine n.
Proof. intros H. now rewrite <- trimEnd_nameLine. Qed.

Lemma trim_columnNameLine (n : string) :
  trim n = n -> trim ("      - name: " ++ n) = trimmedNameLine n.
Proof. intros H. now rewrite <- trimEnd_nameLine. Qed.

Lemma nameField_nameLine (n : string) :
  trim n = n -> hasChar 58 n = false -> nameField (trimmedNameLine n) = Some n.
Proof.
  intros Ht Hc. unfold trimmedNameLine, nameField.
  destruct n as [|c r]; [reflexivity|]. cbn [truthy].
  change ("- name: " ++ String c r) with ("- name" ++ chr 58 ++ String " " (String c r)).
  change ":"%char with (ascii_of_nat 58).
  rewrite split_append; [|lia|reflexivity].
  rewrite split_no_sep; [|lia|].
  - cbn [nth_error option_map]. now rewrite trim_space_cons, Ht.
  - cbn [hasChar]. cbn [hasChar] in Hc. now rewrite Hc.
Qed.

Lemma startsWith_nameLine (n : string) : startsWith (trimmedNameLine n) "- name:" = true.
Proof. unfold trimmedNameLine. now destruct (truthy n). Qed.

Lemma parseLine_modelName (st : ParseState) (n : string) :
  cleanName n = true -> inColumns st = false ->
  parseLine st ("  - name: " ++ n)
  = Some (mkState (pushCurrent st) (Some (mkModel n None None None)) [] false).
Proof.
  intros Hn Hin. apply cleanName_inv in Hn as (Ht & _ & Hc).
  unfold parseLine. rewrite trim_modelNameLine by exact Ht.
  now rewrite startsWith_nameLine, Hin, nameField_nameLine.
Qed.

Lemma parseLine_columnName (st : ParseState) (n : string) :
  cleanName n = true -> inColumns st = true ->
  parseLine st ("      - name: " ++ n)
  = Some (mkState (result st) (currentModel st)
            (currentColumns st ++ [mkColumn n None None]) true).
Proof.
  intros Hn Hin. apply cleanName_inv in Hn as (Ht & _ & Hc).
  unfold parseLine. rewrite trim_columnNameLine by exact Ht.
  rewrite startsWith_nameLine, Hin, nameField_nameLine by assumption.
  assert (startsWith (trimmedNameLine n) "description:" = false) as ->
    by (unfold trimmedNameLine; now destruct (truthy n)).
  assert (String.eqb (trimmedNameLine n) "columns:" = false) as ->
    by (unfold trimmedNameLine; now destruct (truthy n)).
  reflexivity.
Qed.

Lemma parseLine_columnsHeader (st : ParseState) :
  parseLine st "    columns:"
  = Some (mkState (result st) (currentModel st) (currentColumns st) true).
Proof. reflexivity. Qed.

Lemma trimEnd_descriptionLine (d : string) :
  trim d = d -> trimEnd ("description: " ++ d) = trimmedDescriptionLine d.
Proof.
  intros H. apply trim_fixed in H as [_ H]. rewrite trimEnd_append, H.
  unfold trimmedDescriptionLine. now destruct d.
Qed.

Lemma descriptionField_line (d : string) :
  trim d = d -> descriptionField (trimmedDescriptionLine d) = d.
Proof.
  intros Ht. unfold trimmedDescriptionLine, descriptionField.
  destruct d as [|c r]; [reflexivity|]. cbn [truthy].
  change ("description: " ++ String c r)
    with ("description" ++ chr 58 ++ String " " (String c r)).
  change ":"%char with (ascii_of_nat 58).
  rewrite split_append; [|lia|reflexivity].
  cbn [skipn]. rewrite skipn_O.
  change (ascii_of_nat 58) with ":"%char.
  now rewrite join_split, trim_space_cons, Ht.
Qed.

Lemma parseLine_description (st : ParseState) (m : SchemaModel) (line d : string) :
  trim line = trimmedDescriptionLine d -> trim d = d ->
  currentModel st = Some m ->
  parseLine st line
  = Some (mkState (result st) (Some (withDescription m d))
            (currentColumns st) (inColumns st)).
Proof.
  intros Hl Ht Hm. unfold parseLine. rewrite Hl, Hm.
  assert (startsWith (trimmedDescriptionLine d) "- name:" = false) as ->
    by (unfold trimmedDescriptionLine; now destruct (truthy d)).
  assert (startsWith (trimmedDescriptionLine d) "description:" = true) as ->
    by (unfold trimmedDescriptionLine; now destruct (truthy d)).
  cbn. now rewrite descriptionField_line.
Qed.

(** *** The blocks of an entry *)

Lemma cleanDescription_said (o : option string) (d : string) :
  cleanDescription o = true -> said o = Some d -> trim d = d /\ hasChar 10 d = false.
Proof.
  unfold said. destruct o as [x|]; [|discriminate].
  destruct (truthy x); [|discriminate]. intros H [= <-]. now apply cleanText_inv.
Qed.

Lemma parseLines_tests (indent : string) (ts : list string) (st : ParseState) :
  parseLine st (indent ++ "tests:") = Some st ->
  hasChar 58 indent = false ->
  forallb cleanTest ts = true ->
  parseLines st (testLines indent ts) = Some st.
Proof.
  intros Hh Hi Hts. destruct ts as [|t ts]; [reflexivity|].
  unfold testLines. cbn [parseLines]. rewrite Hh.
  apply parseLines_ignored. rewrite forallb_forall in *.
  intros l Hl. apply in_map_iff in Hl as [x [<- Hx]].
  specialize (Hts x Hx). unfold cleanTest in Hts.
  apply andb_true_iff in Hts as [_ Hc]. unfold noColon in *.
  apply negb_true_iff in Hc. apply negb_true_iff.
  now rewrite !hasChar_append, Hi, Hc.
Qed.

Lemma parseLines_modelDescription (o : option string) (n : string) (st : ParseState) :
  cleanDescription o = true ->
  currentModel st = Some (mkModel n None None None) ->
  parseLines st (descriptionLines "    " o)
  = Some (mkState (result st) (Some (mkModel n (said o) None None))
            (currentColumns st) (inColumns st)).
Proof.
  intros Hc Hm. unfold descriptionLines.
  destruct (said o) as [d|] eqn:E.
  - destruct (cleanDescription_said _ _ Hc E) as [Ht _].
    cbn [parseLines].
    rewrite (parseLine_description st (mkModel n None None None) _ d) by
      (try assumption; now rewrite <- trimEnd_descriptionLine).
    reflexivity.
  - cbn [parseLines]. rewrite <- Hm. now destruct st.
Qed.

(** The description a column leaves on the model entry being read. *)
Lemma parseLines_column (c : SchemaColumn) (n : string) (d0 : option string)
    (st : ParseState) :
  cleanColumn c = true -> inColumns st = true ->
  currentModel st = Some (mkModel n d0 None None) ->
  parseLines st (columnLines c)
  = Some (mkState (result st)
            (Some (mkModel n
                     match said (sc_description c) with Some d => Some d | None => d0 end
                     None None))
            (currentColumns st ++ [readColumn c]) true).
Proof.
  intros Hc Hin Hm. unfold cleanColumn in Hc.
  apply andb_true_iff in Hc as [Hc Hts]. apply andb_true_iff in Hc as [Hn Hd].
  unfold columnLines. cbn [parseLines].
  rewrite parseLine_columnName by assumption.
  rewrite parseLines_app. unfold descriptionLines.
  destruct (said (sc_description c)) as [d|] eqn:E.
  - destruct (cleanDescription_said _ _ Hd E) as [Ht _].
    cbn [parseLines].
    rewrite (parseLine_description _ (mkModel n d0 None None) _ d) by
      (try assumption; now rewrite <- trimEnd_descriptionLine).
    now rewrite parseLines_tests.
  - cbn [parseLines]. rewrite parseLines_tests by (assumption || reflexivity).
    now rewrite Hm.
Qed.

Lemma parseLines_columns (cs : list SchemaColumn) (n : string) (d0 : option string)
    (st : ParseState) :
  forallb cleanColumn cs = true -> inColumns st = true ->
  currentModel st = Some (mkModel n d0 None None) ->
  parseLines st (flat_map columnLines cs)
  = Some (mkState (result st)
            (Some (mkModel n
                     (fold_left
                        (fun acc c => match said (sc_description c) with
                                      | Some d => Some d
                                      | None => acc
                                      end) cs d0)
                     None None))
            (currentColumns st ++ map readColumn cs) true).
Proof.
  revert d0 st; induction cs as [|c cs IH]; intros d0 st Hcs Hin Hm.
  - cbn. rewrite app_nil_r, <- Hm, <- Hin. now destruct st.
  - cbn [forallb] in Hcs. apply andb_true_iff in Hcs as [Hc Hcs].
    cbn [flat_map]. rewrite parseLines_app.
    rewrite (parseLines_column c n d0) by assumption.
    erewrite IH; [|exact Hcs|reflexivity|reflexivity].
    cbn [result currentColumns fold_left map]. now rewrite <- app_assoc.
Qed.

(** One entry, read from a state in model scope. *)
Lemma parseLines_model (m : SchemaModel) (st : ParseState) :
  cleanModel m = true -> inColumns st = false ->
  parseLines st (modelLines m)
  = Some (mkState (pushCurrent st)
            (Some (mkModel (sm_name m) (readDescription m) None None))
            (map readColumn (nonEmptyList (sm_columns m)))
            (negb (noColumns m))).
Proof.
  intros Hm Hin. unfold cleanModel in Hm.
  apply andb_true_iff in Hm as [Hm Hcs]. apply andb_true_iff in Hm as [Hm Hts].
  apply andb_true_iff in Hm as [Hn Hd].
  unfold modelLines. cbn [parseLines].
  rewrite parseLine_modelName by assumption.
  rewrite parseLines_app, (parseLines_modelDescription _ (sm_name m)) by
    (assumption || reflexivity).
  rewrite parseLines_app, parseLines_tests by (assumption || reflexivity).
  rewrite parseLines_app. unfold readDescription, noColumns.
  destruct (nonEmptyList (sm_columns m)) as [|c cs] eqn:E.
  - reflexivity.
  - unfold columnsLines. cbn [parseLines]. rewrite parseLine_columnsHeader.
    rewrite (parseLines_columns (c :: cs) (sm_name m) (said (sm_description m)))
      by (assumption || reflexivity).
    reflexivity.
Qed.

Lemma pushCurrent_model (st : ParseState) (m : SchemaModel) :
  pushCurrent
    (mkState (pushCurrent st)
       (Some (mkModel (sm_name m) (readDescription m) None None))
       (map readColumn (nonEmptyList (sm_columns m)))
       (negb (noColumns m)))
  = (pushCurrent st ++ [readModel m])%list.
Proof.
  unfold pushCurrent at 1. cbn [currentModel result currentColumns].
  unfold readModel, readColumns, withColumns.
  now destruct (nonEmptyList (sm_columns m)).
Qed.

(** The entries of a readable document, read one after the other. *)
Lemma parseLines_models (ms : list SchemaModel) (st : ParseState) :
  readable ms = true -> inColumns st = false ->
  exists st', parseLines st (flat_map modelLines ms) = Some st'
              /\ pushCurrent st' = (pushCurrent st ++ map readModel ms)%list.
Proof.
  revert st; induction ms as [|m ms IH]; intros st Hr Hin.
  - exists st. split; [reflexivity | now rewrite app_nil_r].
  - cbn [readable] in Hr. apply andb_true_iff in Hr as [Hr Hms].
    apply andb_true_iff in Hr as [Hm Hlast].
    cbn [flat_map]. rewrite parseLines_app, parseLines_model by assumption.
    destruct ms as [|m' ms].
    + eexists. split; [reflexivity|]. now rewrite pushCurrent_model.
    + pose proof (pushCurrent_model st m) as Hp. rewrite Hlast in *. cbn [negb] in *.
      edestruct IH as [st' [-> Hst']]; [exact Hms | reflexivity |].
      exists st'. split; [reflexivity|].
      now rewrite Hst', Hp, <- app_assoc.
Qed.

Lemma noNewline_append (a b : string) :
  noNewline (a ++ b) = noNewline a && noNewline b.
Proof. unfold noNewline. now rewrite hasChar_append, negb_orb. Qed.

Lemma noNewline_descriptionLines (indent : string) (o : option string) :
  noNewline indent = true -> cleanDescription o = true ->
  forallb noNewline (descriptionLines indent o) = true.
Proof.
  intros Hi Hc. unfold descriptionLines. destruct (said o) as [d|] eqn:E; [|reflexivity].
  destruct (cleanDescription_said _ _ Hc E) as [_ Hd].
  cbn [forallb]. rewrite andb_true_r, !noNewline_append, Hi.
  unfold noNewline. now rewrite Hd.
Qed.

Lemma noNewline_testLines (indent : string) (ts : list string) :
  noNewline indent = true -> forallb cleanTest ts = true ->
  forallb noNewline (testLines indent ts) = true.
Proof.
  intros Hi Hts. destruct ts as [|t ts]; [reflexivity|].
  unfold testLines. cbn [forallb]. rewrite noNewline_append, Hi.
  change (noNewline "tests:") with true. cbn [andb].
  rewrite forallb_forall in *. intros l Hl.
  apply in_map_iff in Hl as [x [<- Hx]]. specialize (Hts x Hx).
  unfold cleanTest in Hts. apply andb_true_iff in Hts as [Hx' _].
  now rewrite !noNewline_append, Hi, Hx'.
Qed.

Lemma forallb_app' {A} (p : A -> bool) (l1 l2 : list A) :
  forallb p l1 = true -> forallb p l2 = true -> forallb p (l1 ++ l2) = true.
Proof. intros H1 H2. rewrite forallb_app. now rewrite H1, H2. Qed.

Lemma noNewline_columnLines (c : SchemaColumn) :
  cleanColumn c = true -> forallb noNewline (columnLines c) = true.
Proof.
  unfold cleanColumn. intros Hc.
  apply andb_true_iff in Hc as [Hc Hts]. apply andb_true_iff in Hc as [Hn Hd].
  apply cleanName_inv in Hn as (_ & Hn & _).
  unfold columnLines. cbn [forallb]. rewrite noNewline_append.
  change (noNewline "      - name: ") with true.
  unfold noNewline at 1. rewrite Hn. cbn [negb andb].
  apply forallb_app'.
  - now apply noNewline_descriptionLines.
  - now apply noNewline_testLines.
Qed.

Lemma forallb_flat_map {A} (p : string -> bool) (f : A -> list string) (l : list A) :
  (forall x, In x l -> forallb p (f x) = true) -> forallb p (flat_map f l) = true.
Proof.
  induction l as [|x l IH]; intros H; [reflexivity|].
  cbn [flat_map]. apply forallb_app'.
  - apply H. now left.
  - apply IH. intros y Hy. apply H. now right.
Qed.

Lemma noNewline_modelLines (m : SchemaModel) :
  cleanModel m = true -> forallb noNewline (modelLines m) = true.
Proof.
  unfold cleanModel. intros Hm.
  apply andb_true_iff in Hm as [Hm Hcs]. apply andb_true_iff in Hm as [Hm Hts].
  apply andb_true_iff in Hm as [Hn Hd].
  apply cleanName_inv in Hn as (_ & Hn & _).
  unfold modelLines. cbn [forallb]. rewrite noNewline_append.
  change (noNewline "  - name: ") with true.
  unfold noNewline at 1. rewrite Hn. cbn [negb andb].
  repeat apply forallb_app'.
  - now apply noNewline_descriptionLines.
  - now apply noNewline_testLines.
  - unfold columnsLines. destruct (nonEmptyList (sm_columns m)) as [|c cs]; [reflexivity|].
    cbn [forallb]. cbn [andb]. change (noNewline "    columns:") with true. cbn [andb].
    apply forallb_flat_map. intros x Hx. apply noNewline_columnLines.
    rewrite forallb_forall in Hcs. now apply Hcs.
  - reflexivity.
Qed.

Lemma readable_clean (ms : list SchemaModel) :
  readable ms = true -> forall m, In m ms -> cleanModel m = true.
Proof.
  induction ms as [|x ms IH]; intros Hr m Hm; [contradiction|].
  cbn [readable] in Hr. apply andb_true_iff in Hr as [Hr Hms].
  apply andb_true_iff in Hr as [Hx _].
  destruct Hm as [<- | Hm]; [exact Hx | now apply IH].
Qed.

(** The reader on the text of a readable document. *)
Theorem parse_generate (ms : list SchemaModel) :
  readable ms = true ->
  parseBasicYaml (generateBasicYaml (mkSchema 2 ms)) = mkSchema 2 (map readModel ms).
Proof.
  intros Hr. unfold parseBasicYaml, parseBasicYamlTry.
  rewrite generateBasicYaml_lines, split_unlines.
  - unfold documentLines.
    change (("version: 2" :: "" :: "models:" :: flat_map modelLines ms) ++ [""])%list
      with (["version: 2"; ""; "models:"] ++ flat_map modelLines ms ++ [""])%list.
    rewrite parseLines_app.
    change (parseLines initialState ["version: 2"; ""; "models:"]) with (Some initialState).
    cbv beta iota. rewrite parseLines_app.
    destruct (parseLines_models ms initialState Hr eq_refl) as [st' [-> Hst']].
    cbn [parseLines]. rewrite parseLine_ignored by reflexivity.
    now rewrite Hst'.
  - unfold documentLines. cbn [forallb]. change (noNewline "version: 2") with true.
    change (noNewline "") with true. change (noNewline "models:") with true.
    cbn [andb]. apply forallb_flat_map. intros m Hm.
    apply noNewline_modelLines. now apply (readable_clean ms).
Qed.

(** *** Writing back what was read *)

Lemma yamlModel_said (n : string) (d : option string) (ts : option (list string))
    (cs : option (list SchemaColumn)) :
  yamlModel (mkModel n (said d) ts cs) = yamlModel (mkModel n d ts cs).
Proof.
  unfold yamlModel, said. cbn [sm_name sm_description sm_tests sm_columns].
  destruct d as [x|]; [|reflexivity]. now destruct x.
Qed.

Lemma readDescription_undocumented (m : SchemaModel) :
  undocumentedColumns m = true -> readDescription m = said (sm_description m).
Proof.
  unfold undocumentedColumns, readDescription.
  generalize (said (sm_description m)). 
  induction (nonEmptyList (sm_columns m)) as [|c cs IH]; intros acc H; [reflexivity|].
  cbn [forallb] in H. apply andb_true_iff in H as [Hc Hcs].
  cbn [fold_left]. destruct (said (sc_description c)); [discriminate|].
  now apply IH.
Qed.

Lemma yamlColumn_bare (c : SchemaColumn) :
  bareColumn c = true -> yamlColumn (readColumn c) = yamlColumn c.
Proof.
  unfold bareColumn, yamlColumn, readColumn, said.
  cbn [sc_name sc_description sc_tests nonEmptyList].
  intros H. apply andb_true_iff in H as [Hd Ht].
  destruct (nonEmptyList (sc_tests c)); [|discriminate].
  destruct (sc_description c) as [d|]; [|reflexivity].
  now destruct (truthy d).
Qed.

Lemma fullyRead_undocumented (m : SchemaModel) :
  fullyRead m = true -> undocumentedColumns m = true.
Proof.
  unfold fullyRead, undocumentedColumns. intros H.
  apply andb_true_iff in H as [_ H]. rewrite forallb_forall in *.
  intros c Hc. specialize (H c Hc). unfold bareColumn in H.
  now apply andb_true_iff in H as [H _].
Qed.

Lemma yamlModel_fullyRead (m : SchemaModel) :
  fullyRead m = true -> yamlModel (readModel m) = yamlModel m.
Proof.
  intros H. unfold readModel.
  rewrite readDescription_undocumented by now apply fullyRead_undocumented.
  rewrite yamlModel_said. unfold fullyRead in H.
  apply andb_true_iff in H as [Ht Hc].
  unfold yamlModel, readColumns.
  cbn [sm_name sm_description sm_tests sm_columns nonEmptyList].
  destruct (nonEmptyList (sm_tests m)); [|discriminate].
  destruct (nonEmptyList (sm_columns m)) as [|c cs]; [reflexivity|].
  cbn [nonEmptyList]. 
  assert (concatMap yamlColumn (map readColumn (c :: cs)) = concatMap yamlColumn (c :: cs))
    as E.
  { rewrite concatMap_map. generalize dependent (c :: cs). intros l Hl.
    induction l as [|x l IH]; [reflexivity|].
    cbn [forallb] in Hl. apply andb_true_iff in Hl as [Hx Hl].
    cbn [concatMap fold_right]. rewrite yamlColumn_bare by exact Hx.
    f_equal. now apply IH. }
  cbn [map] in *. now rewrite E.
Qed.

Lemma generateBasicYaml_ext (v : N) (ms ms' : list SchemaModel) :
  map yamlModel ms = map yamlModel ms' ->
  generateBasicYaml (mkSchema v ms) = generateBasicYaml (mkSchema v ms').
Proof.
  intros H. unfold generateBasicYaml. cbn [version models].
  assert (forall l, concatMap yamlModel l = concatMap (fun x => x) (map yamlModel l)) as E
    by (intros l; now rewrite concatMap_map).
  now rewrite (E ms), (E ms'), H.
Qed.

(** C2, as the reader allows it: for every version 2 document of the
    written dialect (names and descriptions on one line and trimmed, names
    without colon) that carries no tests, whose columns carry a name only,
    and in which only the last model has columns, writing, reading and
    writing again gives the text of the first writing. *)
Theorem roundtrip_stable (ms : list SchemaModel) :
  readable ms = true -> forallb fullyRead ms = true ->
  generateBasicYaml (parseBasicYaml (generateBasicYaml (mkSchema 2 ms)))
  = generateBasicYaml (mkSchema 2 ms).
Proof.
  intros Hr Hf. rewrite parse_generate by exact Hr.
  apply generateBasicYaml_ext. rewrite map_map.
  induction ms as [|m ms IH]; [reflexivity|].
  cbn [forallb] in Hf. apply andb_true_iff in Hf as [Hm Hms].
  cbn [readable] in Hr. apply andb_true_iff in Hr as [_ Hr].
  cbn [map]. rewrite yamlModel_fullyRead by exact Hm. f_equal. now apply IH.
Qed.

Lemma roundtrip_stable_witness :
  let ms := [mkModel "stg_users" (Some "Users: staged") None None;
             mkModel "fct_orders" None None
               (Some [mkColumn "id" None None; mkColumn "total" None None])] in
  generateBasicYaml (parseBasicYaml (generateBasicYaml (mkSchema 2 ms)))
  = generateBasicYaml (mkSchema 2 ms).
Proof.
  intros ms. apply (roundtrip_stable ms); reflexivity.
Defined.

(** C2 fails as stated: the tests of a model are written and never read. *)
Lemma roundtrip_loses_tests :
  let data := mkSchema 2 [mkModel "a" None (Some ["unique"]) None] in
  generateBasicYaml (parseBasicYaml (generateBasicYaml data)) <> generateBasicYaml data.
Proof. vm_compute. discriminate. Qed.

(** *** The upsert on a file the writer wrote *)

Lemma readFile_updateSchema (cfg : DbtConfig) (modelDir modelName description : string)
    (columns : list DbtColumn) (tests : list string) (fs : Fs.t) :
  Fs.readFile (schemaPath cfg modelDir)
    (updateSchema cfg modelDir modelName description columns tests fs)
  = Some (updateSchemaContent (Fs.readFile (schemaPath cfg modelDir) fs)
            modelName description columns tests).
Proof. unfold updateSchema. apply readFile_writeFile. Qed.

Lemma readModel_undocumented (m : SchemaModel) :
  undocumentedColumns m = true ->
  yamlModel (readModel m)
  = yamlModel (mkModel (sm_name m) (sm_description m) None (readColumns m)).
Proof.
  intros H. unfold readModel. rewrite readDescription_undocumented by exact H.
  apply yamlModel_said.
Qed.

Lemma updateSchemaContent_new (A : SchemaModel) (B description : string)
    (columns : list DbtColumn) (tests : list string) :
  cleanModel A = true -> sm_name A <> B ->
  updateSchemaContent (Some (generateBasicYaml (mkSchema 2 [A]))) B description columns tests
  = generateBasicYaml
      (mkSchema 2 [readModel A;
                   updateEntry description columns tests (mkModel B None None None)]).
Proof.
  intros HA Hne. unfold updateSchemaContent.
  rewrite parse_generate by (cbn [readable]; now rewrite HA).
  unfold upsertModel. cbn [models version map updateFound readModel sm_name].
  apply String.eqb_neq in Hne. now rewrite Hne.
Qed.

(** C5, as the reader allows it: on a schema file holding one model [A] of
    the written dialect whose columns carry no description, the upsert of a
    model of another name [B] writes [A] first and [B] second; [A] keeps
    its name, its description and the names of its columns in their order,
    and its tests are not written back; when [A] has no tests at all, [A]
    is written back as it was. *)
Theorem upsert_appends_after (cfg : DbtConfig) (modelDir : string) (A : SchemaModel)
    (B description : string) (columns : list DbtColumn) (tests : list string)
    (fs : Fs.t) :
  cleanModel A = true -> undocumentedColumns A = true -> sm_name A <> B ->
  Fs.readFile (schemaPath cfg modelDir) fs = Some (generateBasicYaml (mkSchema 2 [A])) ->
  let entryB := updateEntry description columns tests (mkModel B None None None) in
  let fs' := updateSchema cfg modelDir B description columns tests fs in
  Fs.readFile (schemaPath cfg modelDir) fs'
  = Some (generateBasicYaml
            (mkSchema 2 [mkModel (sm_name A) (sm_description A) None (readColumns A);
                         entryB]))
  /\ (fullyRead A = true ->
      Fs.readFile (schemaPath cfg modelDir) fs'
      = Some (generateBasicYaml (mkSchema 2 [A; entryB]))).
Proof.
  intros HA Hu Hne Hfile entryB fs'. unfold fs'.
  rewrite readFile_updateSchema, Hfile, updateSchemaContent_new by assumption.
  split; [|intros Hf]; f_equal; apply generateBasicYaml_ext; cbn [map]; f_equal.
  - now apply readModel_undocumented.
  - now apply yamlModel_fullyRead.
Qed.

Lemma upsert_appends_after_witness :
  let A := mkModel "stg_users" (Some "Users") (Some ["unique"])
             (Some [mkColumn "id" None (Some ["not_null"])]) in
  let fs := Fs.writeFile (schemaPath exampleConfig "staging")
              (generateBasicYaml (mkSchema 2 [A])) Fs.empty in
  Fs.readFile (schemaPath exampleConfig "staging")
    (updateSchema exampleConfig "staging" "stg_orders" "Orders" [] [] fs)
  = Some (generateBasicYaml
            (mkSchema 2 [mkModel "stg_users" (Some "Users") None
                           (Some [mkColumn "id" None None]);
                         mkModel "stg_orders" (Some "Orders") None None])).
Proof.
  intros A fs.
  apply (upsert_appends_after exampleConfig "staging" A "stg_orders" "Orders" [] [] fs);
    first [reflexivity | discriminate | apply readFile_writeFile].
Defined.

(** C5 fails as stated: the tests of [A] are gone after the upsert of [B]. *)
Lemma upsert_loses_tests :
  let A := mkModel "a" (Some "first") (Some ["unique"]) None in
  let content :=
    updateSchemaContent (Some (generateBasicYaml (mkSchema 2 [A]))) "b" "" [] [] in
  includes (generateBasicYaml (mkSchema 2 [A])) "unique" = true
  /\ includes content "unique" = false
  /\ content <> generateBasicYaml (mkSchema 2 [A; mkModel "b" None None None])
  /\ forall fs,
       Fs.readFile (schemaPath exampleConfig "staging") fs
       = Some (generateBasicYaml (mkSchema 2 [A])) ->
       Fs.readFile (schemaPath exampleConfig "staging")
         (updateSchema exampleConfig "staging" "b" "" [] [] fs)
       = Some content.
Proof.
  intros A content.
  split; [reflexivity|]. split; [reflexivity|]. split; [vm_compute; discriminate|].
  intros fs Hfs. now rewrite readFile_updateSchema, Hfs.
Qed.


(** The entry [find] answers is the first one of the name. *)
Lemma updateFound_In (n : string) (f : SchemaModel -> SchemaModel)
    (l1 l2 : list SchemaModel) (m : SchemaModel) :
  sm_name m = n -> ~ In n (map sm_name l1) ->
  updateFound n f (l1 ++ m :: l2) = Some (l1 ++ f m :: l2)%list.
Proof.
  intros Hm. induction l1 as [|x l1 IH]; intros Hl; cbn [app updateFound].
  - apply String.eqb_eq in Hm. now rewrite Hm.
  - assert (String.eqb (sm_name x) n = false) as ->
      by (apply String.eqb_neq; intros E; apply Hl; now left).
    rewrite IH; [reflexivity|]. intros H. apply Hl. now right.
Qed.




(** *** [generateModel] and the empty name *)

Lemma sql_path_not_schema (dir name : string) :
  Fs.join dir (name ++ ".sql") <> Fs.join dir "schema.yml".
Proof.
  unfold Fs.join. intros H. apply append_inv_head in H.
  apply (append_inv_head "/") in H.
  assert (forall a b, a ++ ".sql" = b ++ ".yml" -> False) as Hs.
  { intros a b E. apply (f_equal (fun s => hasChar 115 (substring (String.length s - 4) 4 s))) in E.
    revert E. generalize a b. clear. intros a b.
    assert (forall x t, String.length t = 4%nat ->
              substring (String.length (x ++ t) - 4) 4 (x ++ t) = t) as Hsub.
    { intros x t Ht. rewrite length_append, Ht.
      replace (String.length x + 4 - 4)%nat with (String.length x) by lia.
      induction x as [|c x IH]; cbn [String.length String.append].
      - destruct t as [|c1 [|c2 [|c3 [|c4 [|c5 t]]]]]; try discriminate. reflexivity.
      - exact IH. }
    rewrite (Hsub a ".sql" eq_refl), (Hsub b ".yml" eq_refl). discriminate. }
  apply (Hs name "schema"). exact H.
Qed.

(** C8, as the code has it: [generateModel] does not look at the name before
    it writes.  With the empty name the promise resolves; the model file
    [.sql] is written into the staging directory and an entry with the
    empty name is upserted into the schema file of that directory. *)
Theorem generateModel_empty_name (cfg : DbtConfig) (options : DbtModelOptions)
    (fs : Fs.t) :
  opt_name options = EmptyString ->
  let dir := Fs.join (modelsDir cfg) "staging" in
  let sqlText :=
    addModelConfig (orString (opt_sql options) (generateDefaultSql EmptyString))
      (orElse (opt_materializedAs options) "view") (orElse (opt_tags options) []) in
  let schemaText :=
    updateSchemaContent (Fs.readFile (schemaPath cfg "staging") fs) EmptyString
      (orString (opt_description options) EmptyString)
      (orElse (opt_columns options) []) (orElse (opt_tests options) []) in
  exists fs',
    generateModel cfg options fs = Resolved fs'
    /\ Fs.written fs'
       = (schemaPath cfg "staging", schemaText) :: (Fs.join dir ".sql", sqlText)
         :: Fs.written fs
    /\ Fs.readFile (Fs.join dir ".sql") fs' = Some sqlText
    /\ Fs.readFile (schemaPath cfg "staging") fs' = Some schemaText.
Proof.
  intros Hn dir sqlText schemaText. unfold generateModel. rewrite Hn.
  change (getModelDirectory "") with "staging". fold dir.
  change ("" ++ ".sql") with ".sql". fold sqlText.
  set (fs1 := if Fs.existsDir dir fs then fs else Fs.mkdir dir fs).
  assert (Fs.readFile (schemaPath cfg "staging") fs1
          = Fs.readFile (schemaPath cfg "staging") fs) as E1
    by (unfold fs1; now destruct (Fs.existsDir dir fs)).
  assert (Fs.written fs1 = Fs.written fs) as E2
    by (unfold fs1; now destruct (Fs.existsDir dir fs)).
  pose proof (sql_path_not_schema dir "") as Hp. change ("" ++ ".sql") with ".sql" in Hp.
  change (Fs.join dir "schema.yml") with (schemaPath cfg "staging") in Hp.
  eexists. split; [reflexivity|].
  unfold updateSchema. rewrite readFile_other, E1 by exact Hp. fold schemaText.
  split; [|split].
  - cbn [Fs.written Fs.writeFile]. now rewrite E2.
  - rewrite readFile_other by (intros E; now apply Hp). apply readFile_writeFile.
  - apply readFile_writeFile.
Qed.

Lemma generateModel_empty_name_witness :
  exists fs',
    generateModel exampleConfig (mkOptions "" None None None None None None) Fs.empty
    = Resolved fs'
    /\ List.length (Fs.written fs') = 2%nat.
Proof.
  destruct (generateModel_empty_name exampleConfig
              (mkOptions "" None None None None None None) Fs.empty eq_refl)
    as [fs' [H1 [H2 _]]].
  exists fs'. split; [exact H1 | now rewrite H2].
Defined.

(** C8 fails as stated: with the empty name nothing is rejected and two
    files are written. *)
Lemma empty_name_is_written :
  let outcome :=
    generateModel exampleConfig (mkOptions "" None None None None None None) Fs.empty in
  (forall message, outcome <> Rejected message)
  /\ exists fs',
       outcome = Resolved fs'
       /\ map fst (Fs.written fs')
          = ["proj/models/staging/schema.yml"; "proj/models/staging/.sql"]
       /\ Fs.readFile "proj/models/staging/schema.yml" fs'
          = Some ("version: 2" ++ nl ++ nl ++ "models:" ++ nl ++ "  - name: " ++ nl ++ nl).
Proof.
  intros outcome. split; [intros message; discriminate|].
  eexists. split; [reflexivity|]. split; [reflexivity|]. vm_compute. reflexivity.
Qed.

End SchemaFacts.

(** ** The pattern of the exported-symbols construct *)

Module AllFacts.
Import JS Spec StrFacts Dagster.

Lemma allSpace_countChar (n : nat) (w : string) :
  (forall c, isWhiteSpace c = true -> isChar n c = false) ->
  allSpace w = true -> countChar n w = 0%nat.
Proof.
  intros Hn. induction w as [|c w IH]; cbn [allSpace countChar]; [reflexivity|].
  intros H. apply andb_true_iff in H as [Hc Hw]. now rewrite (Hn c Hc), IH.
Qed.

Lemma allSpace_hasChar (n : nat) (w : string) :
  (forall c, isWhiteSpace c = true -> isChar n c = false) ->
  allSpace w = true -> hasChar n w = false.
Proof.
  intros Hn. induction w as [|c w IH]; cbn [allSpace hasChar]; [reflexivity|].
  intros H. apply andb_true_iff in H as [Hc Hw]. now rewrite (Hn c Hc), IH.
Qed.

(** A code unit that is not white space, by its number. *)
Lemma space_not (n : nat) (c : ascii) :
  (n < 256)%nat -> isWhiteSpace (ascii_of_nat n) = false ->
  isWhiteSpace c = true -> isChar n c = false.
Proof.
  intros Hn Hw Hc. destruct (isChar n c) eqn:E; [|reflexivity].
  apply isChar_eq in E; [|exact Hn]. congruence.
Qed.

Lemma countChar_append (n : nat) (a b : string) :
  countChar n (a ++ b) = (countChar n a + countChar n b)%nat.
Proof.
  induction a as [|c a IH]; cbn [String.append countChar]; [reflexivity|].
  rewrite IH. lia.
Qed.

(** [\s*] followed by one code unit that is no white space. *)
Lemma expect_trimStart (n : nat) (s r : string) :
  (n < 256)%nat -> isWhiteSpace (ascii_of_nat n) = false ->
  expect n (trimStart s) = Some r
  <-> exists w, allSpace w = true /\ s = w ++ chr n ++ r.
Proof.
  intros Hn Hw. induction s as [|c s IH]; cbn [trimStart].
  - split; [discriminate|]. intros [w [_ E]]. destruct w; discriminate.
  - destruct (isWhiteSpace c) eqn:Ec.
    + rewrite IH. split.
      * intros [w [Hs ->]]. exists (String c w). cbn [allSpace]. now rewrite Ec, Hs.
      * intros [[|x w] [Hs E]].
        -- unfold chr in E. cbn in E. injection E as -> _. congruence.
        -- cbn [allSpace] in Hs. apply andb_true_iff in Hs as [_ Hs].
           cbn in E. injection E as _ ->. now exists w.
    + cbn [expect]. destruct (isChar n c) eqn:En.
      * apply isChar_eq in En as ->; [|exact Hn]. split.
        -- intros [= ->]. now exists "".
        -- intros [[|x w] [Hs E]].
           ++ unfold chr in E. cbn in E. now injection E as ->.
           ++ cbn [allSpace] in Hs. cbn in E. injection E as <- _.
              rewrite Ec in Hs. discriminate.
      * split; [discriminate|]. intros [[|x w] [Hs E]].
        -- unfold chr in E. cbn in E. injection E as -> _.
           now rewrite isChar_ascii in En.
        -- cbn [allSpace] in Hs. cbn in E. injection E as <- _.
           rewrite Ec in Hs. discriminate.
Qed.

Lemma allOpener_spec (s r : string) :
  allOpener s = Some r
  <-> exists w1 w2, allSpace w1 = true /\ allSpace w2 = true
                    /\ s = openerText w1 w2 ++ "[" ++ r.
Proof.
  unfold allOpener, openerText. split.
  - destruct (stripPrefix "__all__" s) as [r1|] eqn:E1; [|discriminate].
    apply stripPrefix_spec in E1 as ->.
    destruct (expect 61 (trimStart r1)) as [r2|] eqn:E2; [|discriminate].
    apply expect_trimStart in E2 as [w1 [H1 ->]]; [|lia|reflexivity].
    intros E3. apply expect_trimStart in E3 as [w2 [H2 ->]]; [|lia|reflexivity].
    exists w1, w2. repeat split; try assumption.
    now rewrite ?append_assoc.
  - intros [w1 [w2 (H1 & H2 & ->)]]. rewrite ?append_assoc.
    rewrite stripPrefix_append.
    assert (expect 61 (trimStart (w1 ++ "=" ++ w2 ++ "[" ++ r)) = Some (w2 ++ "[" ++ r)) as ->
      by (apply expect_trimStart; [lia | reflexivity | now exists w1]).
    apply expect_trimStart; [lia | reflexivity | now exists w2].
Qed.

Lemma openerText_no_bracket (w1 w2 : string) :
  allSpace w1 = true -> allSpace w2 = true -> hasChar 91 (openerText w1 w2) = false.
Proof.
  intros H1 H2. unfold openerText. rewrite !hasChar_append.
  rewrite (allSpace_hasChar 91 w1), (allSpace_hasChar 91 w2); try assumption;
    try (intros c; apply space_not; [lia | reflexivity]).
  reflexivity.
Qed.

Lemma openerText_underscores (w1 w2 : string) :
  allSpace w1 = true -> allSpace w2 = true -> countChar 95 (openerText w1 w2) = 4%nat.
Proof.
  intros H1 H2. unfold openerText. rewrite !countChar_append.
  rewrite (allSpace_countChar 95 w1), (allSpace_countChar 95 w2); try assumption;
    try (intros c; apply space_not; [lia | reflexivity]).
  reflexivity.
Qed.

Lemma allOpener_hasChar (s r : string) : allOpener s = Some r -> hasChar 91 s = true.
Proof.
  intros H. apply allOpener_spec in H as [w1 [w2 (_ & _ & ->)]].
  rewrite !hasChar_append. cbn. now rewrite orb_true_r.
Qed.

(** An opener that ends inside [x] does not look at what follows [x]. *)
Lemma allOpener_inside (x y : string) :
  hasChar 91 x = true ->
  allOpener (x ++ y) = option_map (fun r => r ++ y) (allOpener x).
Proof.
  intros Hx.
  destruct (splitFirst 91 x) as [[a b]|] eqn:Ex;
    [|apply splitFirst_None in Ex; congruence].
  apply splitFirst_sound in Ex as [-> Ha]; [|lia].
  destruct (allOpener (a ++ chr 91 ++ b)) as [r|] eqn:E1.
  - apply allOpener_spec in E1 as [w1 [w2 (H1 & H2 & E)]].
    change (String.append "[" r) with (chr 91 ++ r) in E.
    apply first_occurrence in E as [-> ->];
      [|lia|exact Ha|now apply openerText_no_bracket].
    cbn [option_map]. apply allOpener_spec. exists w1, w2.
    repeat split; try assumption. now rewrite ?append_assoc.
  - cbn [option_map]. destruct (allOpener ((a ++ chr 91 ++ b) ++ y)) as [r|] eqn:E2;
      [|reflexivity].
    apply allOpener_spec in E2 as [w1 [w2 (H1 & H2 & E)]].
    rewrite ?append_assoc in E.
    change (String.append "[" r) with (chr 91 ++ r) in E.
    apply first_occurrence in E as [-> E];
      [|lia|exact Ha|now apply openerText_no_bracket].
    assert (allOpener (openerText w1 w2 ++ chr 91 ++ b) = Some b) as E3
      by (apply allOpener_spec; now exists w1, w2).
    congruence.
Qed.

(** No opener starts before a construct and runs into it. *)
Lemma allOpener_no_straddle (x v1 v2 rest : string) :
  x <> EmptyString -> hasChar 91 x = false ->
  allSpace v1 = true -> allSpace v2 = true ->
  allOpener (x ++ openerText v1 v2 ++ "[" ++ rest) = None.
Proof.
  intros Hx Hb H1 H2.
  destruct (allOpener (x ++ openerText v1 v2 ++ "[" ++ rest)) as [r|] eqn:E; [|reflexivity].
  apply allOpener_spec in E as [w1 [w2 (Hw1 & Hw2 & E)]].
  rewrite <- append_assoc in E.
  change (String.append "[" rest) with (chr 91 ++ rest) in E.
  change (String.append "[" r) with (chr 91 ++ r) in E.
  apply first_occurrence in E as [E _]; [|lia| |now apply openerText_no_bracket].
  - pose proof (f_equal (countChar 95) E) as Hc.
    rewrite countChar_append, !openerText_underscores in Hc by assumption.
    destruct x as [|c x]; [contradiction|].
    unfold openerText in E. cbn in E. injection E as -> _.
    cbn [countChar] in Hc. change (isChar 95 "_") with true in Hc.
    cbv iota in Hc. lia.
  - rewrite hasChar_append, Hb. now apply openerText_no_bracket.
Qed.

(** *** The anchored pattern *)

Lemma allAt_spec (s cap post : string) :
  allAt s = Some ([cap], post)
  <-> exists v1 v2, allSpace v1 = true /\ allSpace v2 = true
                    /\ hasChar 93 cap = false
                    /\ s = constructText v1 v2 cap ++ post.
Proof.
  unfold allAt, constructText. split.
  - destruct (allOpener s) as [r|] eqn:E1; [|discriminate].
    apply allOpener_spec in E1 as [v1 [v2 (H1 & H2 & ->)]].
    destruct (splitFirst 93 r) as [[a b]|] eqn:E2; [|discriminate].
    apply splitFirst_sound in E2 as [-> Ha]; [|lia].
    intros [= -> ->]. exists v1, v2. repeat split; try assumption.
    now rewrite ?append_assoc.
  - intros [v1 [v2 (H1 & H2 & Hc & ->)]]. rewrite ?append_assoc.
    assert (allOpener (openerText v1 v2 ++ "[" ++ cap ++ "]" ++ post)
            = Some (cap ++ "]" ++ post)) as ->
      by (apply allOpener_spec; now exists v1, v2).
    change (String.append "]" post) with (chr 93 ++ post).
    now rewrite splitFirst_complete by (lia || assumption).
Qed.

Lemma allAt_groups (s : string) (gs : list string) (post : string) :
  allAt s = Some (gs, post) -> exists cap, gs = [cap].
Proof.
  unfold allAt. destruct (allOpener s); [|discriminate].
  destruct (splitFirst 93 s0) as [[a b]|]; [|discriminate].
  intros [= <- <-]. now exists a.
Qed.

Lemma allAt_opener (s : string) : allOpener s = None -> allAt s = None.
Proof. unfold allAt. now intros ->. Qed.

Lemma opens_step (c : ascii) (s : string) :
  opens (String c s) = isSome (allOpener (String c s)) || opens s.
Proof. reflexivity. Qed.

Lemma opens_hasChar (s : string) : opens s = true -> hasChar 91 s = true.
Proof.
  induction s as [|c s IH].
  - cbn. discriminate.
  - rewrite opens_step. intros H. apply orb_true_iff in H as [H | H].
    + destruct (allOpener (String c s)) as [r|] eqn:E; [|discriminate].
      now apply allOpener_hasChar in E.
    + cbn [hasChar]. rewrite (IH H). apply orb_true_r.
Qed.

(** Text without an opening bracket, put after [s], opens nothing new. *)
Lemma opens_append_free (s u : string) :
  opens s = false -> hasChar 91 u = false -> opens (s ++ u) = false.
Proof.
  intros Hs Hu. induction s as [|c s IH].
  - cbn [String.append]. destruct (opens u) eqn:E; [|reflexivity].
    apply opens_hasChar in E. congruence.
  - rewrite opens_step in Hs. apply orb_false_iff in Hs as [Hc Hs].
    cbn [String.append]. rewrite opens_step, (IH Hs), orb_false_r.
    destruct (hasChar 91 (String c s)) eqn:Hb.
    + change (String c (s ++ u)) with (String c s ++ u).
      rewrite allOpener_inside by exact Hb.
      now destruct (allOpener (String c s)).
    + destruct (allOpener (String c (s ++ u))) as [r|] eqn:E; [|reflexivity].
      apply allOpener_hasChar in E.
      change (String c (s ++ u)) with (String c s ++ u) in E.
      rewrite hasChar_append, Hb, Hu in E. discriminate.
Qed.

Lemma search_not_opens (s : string) : opens s = false -> search allAt s = None.
Proof.
  induction s as [|c s IH].
  - reflexivity.
  - rewrite opens_step. intros H. apply orb_false_iff in H as [Hc Hs].
    cbn [search]. rewrite allAt_opener by now destruct (allOpener (String c s)).
    now rewrite (IH Hs).
Qed.

(** The leftmost construct is found where no opener precedes it. *)
Lemma search_construct (pre v1 v2 cap post : string) :
  opens pre = false -> allSpace v1 = true -> allSpace v2 = true ->
  hasChar 93 cap = false ->
  search allAt (pre ++ constructText v1 v2 cap ++ post)
  = Some (mkMatch pre (constructText v1 v2 cap) [cap] post).
Proof.
  intros Hp H1 H2 Hc. induction pre as [|c pre IH].
  - cbn [String.append].
    assert (allAt (constructText v1 v2 cap ++ post) = Some ([cap], post)) as E
      by (apply allAt_spec; now exists v1, v2).
    destruct (constructText v1 v2 cap ++ post) as [|x t] eqn:Et.
    + cbn [search]. rewrite E. f_equal. f_equal.
      apply append_eq_nil in Et as [-> ->]. reflexivity.
    + cbn [search]. rewrite E, <- Et. now rewrite substring_prefix.
  - rewrite opens_step in Hp. apply orb_false_iff in Hp as [Hc1 Hp].
    cbn [String.append search].
    assert (allOpener (String c (pre ++ constructText v1 v2 cap ++ post)) = None) as E.
    { change (String c (pre ++ constructText v1 v2 cap ++ post))
        with (String c pre ++ constructText v1 v2 cap ++ post).
      destruct (hasChar 91 (String c pre)) eqn:Hb.
      - rewrite allOpener_inside by exact Hb. now destruct (allOpener (String c pre)).
      - unfold constructText. rewrite append_assoc.
        now apply allOpener_no_straddle. }
    rewrite (allAt_opener _ E), (IH Hp). reflexivity.
Qed.

Lemma constructText_closed (v1 v2 cap : string) :
  hasChar 93 (constructText v1 v2 cap) = true.
Proof.
  unfold constructText. rewrite !hasChar_append. cbn. now rewrite !orb_true_r.
Qed.

(** What a successful search has found. *)
Lemma search_inv (s : string) (m : Match) :
  search allAt s = Some m ->
  exists v1 v2 cap,
    allSpace v1 = true /\ allSpace v2 = true /\ hasChar 93 cap = false
    /\ m = mkMatch (m_pre m) (constructText v1 v2 cap) [cap] (m_post m)
    /\ s = m_pre m ++ constructText v1 v2 cap ++ m_post m
    /\ opens (m_pre m) = false.
Proof.
  revert m; induction s as [|c s IH]; intros m.
  - cbn [search]. destruct (allAt "") as [[gs post]|] eqn:E; [|discriminate].
    destruct (allAt_groups _ _ _ E) as [cap ->].
    apply allAt_spec in E as [v1 [v2 (_ & _ & _ & E)]].
    unfold constructText, openerText in E. discriminate.
  - cbn [search]. destruct (allAt (String c s)) as [[gs post]|] eqn:E.
    + destruct (allAt_groups _ _ _ E) as [cap ->].
      apply allAt_spec in E as [v1 [v2 (H1 & H2 & Hc & E)]].
      rewrite E, substring_prefix.
      intros [= <-]. exists v1, v2, cap. cbn [m_pre m_post].
      repeat split; assumption || reflexivity.
    + destruct (search allAt s) as [m'|] eqn:Es; [|discriminate].
      intros [= <-].
      destruct (IH m' eq_refl) as [v1 [v2 [cap (H1 & H2 & Hc & Hm & Hs & Hp)]]].
      exists v1, v2, cap. cbn [shiftMatch m_pre m_post].
      repeat split; try assumption.
      * rewrite Hm. reflexivity.
      * cbn [String.append]. now rewrite <- Hs.
      * rewrite opens_step, Hp, orb_false_r.
        destruct (allOpener (String c (m_pre m'))) as [r|] eqn:Eo; [|reflexivity].
        exfalso.
        assert (allOpener (String c s)
                = Some (r ++ constructText v1 v2 cap ++ m_post m')) as Eo'.
        { rewrite Hs. change (String c (m_pre m' ++ ?x)) with (String c (m_pre m') ++ x).
          rewrite allOpener_inside by now apply allOpener_hasChar in Eo.
          now rewrite Eo. }
        unfold allAt in E. rewrite Eo' in E.
        destruct (splitFirst 93 (r ++ constructText v1 v2 cap ++ m_post m'))
          as [[a b]|] eqn:Ef; [discriminate|].
        apply splitFirst_None in Ef.
        rewrite !hasChar_append, constructText_closed, orb_true_r in Ef. discriminate.
Qed.

End AllFacts.

(** ** The index file merger *)

Module DagsterFacts.
Import JS Spec StrFacts FsFacts Dagster AllFacts.

(** *** The replacement text and the items read back *)

Lemma existsb_eqb (x : string) (l : list string) :
  existsb (String.eqb x) l = true <-> In x l.
Proof.
  rewrite existsb_exists. split.
  - intros [y [Hy E]]. apply String.eqb_eq in E. now subst.
  - intros H. exists x. split; [exact H | apply String.eqb_refl].
Qed.

Lemma removeQuotes_free (x : string) :
  hasChar 34 x = false -> hasChar 39 x = false -> removeQuotes x = x.
Proof.
  induction x as [|c x IH]; [reflexivity|].
  cbn [hasChar removeQuotes]. intros H1 H2.
  apply orb_false_iff in H1 as [H1 H1']. apply orb_false_iff in H2 as [H2 H2'].
  now rewrite H1, H2, IH.
Qed.

Lemma removeQuotes_append (a b : string) :
  removeQuotes (a ++ b) = removeQuotes a ++ removeQuotes b.
Proof.
  induction a as [|c a IH]; [reflexivity|].
  cbn [String.append removeQuotes]. destruct (_ || _); [exact IH|].
  cbn [String.append]. now rewrite IH.
Qed.

(** No quote is left in what [removeQuotes] answers. *)
Lemma removeQuotes_clean (x : string) :
  hasChar 34 (removeQuotes x) = false /\ hasChar 39 (removeQuotes x) = false.
Proof.
  induction x as [|c x [IH1 IH2]]; [now split|].
  cbn [removeQuotes]. destruct (isChar 39 c || isChar 34 c) eqn:E; [now split|].
  apply orb_false_iff in E as [E1 E2]. cbn [hasChar]. now rewrite E1, E2, IH1, IH2.
Qed.

Lemma plainMember_inv (x : string) :
  plainMember x = true ->
  trim x = x /\ hasChar 36 x = false /\ hasChar 44 x = false /\ hasChar 93 x = false
  /\ hasChar 34 x = false /\ hasChar 39 x = false.
Proof.
  unfold plainMember, isTrimmed. intros H.
  repeat (apply andb_true_iff in H as [H ?]).
  apply String.eqb_eq in H.
  repeat match goal with E : negb _ = true |- _ => apply negb_true_iff in E end.
  auto 10.
Qed.

Lemma plainSymbol_inv (x : string) :
  plainSymbol x = true -> plainMember x = true /\ hasChar 91 x = false /\ truthy x = true.
Proof.
  unfold plainSymbol. intros H.
  apply andb_true_iff in H as [H H3]. apply andb_true_iff in H as [H1 H2].
  apply negb_true_iff in H2. auto.
Qed.

Lemma trim_quoted (x : string) : trim (quoted x) = quoted x.
Proof.
  unfold quoted, trim. change (trimStart (dq ++ x ++ dq)) with (dq ++ x ++ dq).
  rewrite trimEnd_append.
  assert (trimEnd (x ++ dq) = x ++ dq) as ->
    by (rewrite trimEnd_append; reflexivity).
  now destruct x.
Qed.

Lemma readBack_quoted (x : string) :
  hasChar 34 x = false -> hasChar 39 x = false -> removeQuotes (trim (quoted x)) = x.
Proof.
  intros H1 H2. rewrite trim_quoted. unfold quoted.
  rewrite !removeQuotes_append, (removeQuotes_free x) by assumption.
  cbn. apply append_nil_r.
Qed.

Lemma readBack_plain (x : string) : plainMember x = true -> removeQuotes (trim x) = x.
Proof.
  intros H. apply plainMember_inv in H as (Ht & _ & _ & _ & H1 & H2).
  rewrite Ht. now apply removeQuotes_free.
Qed.

Lemma parseItems_space (s : string) : parseItems (String " " s) = parseItems s.
Proof.
  unfold parseItems. cbn [split].
  change (Ascii.eqb " " ",") with false. cbv iota.
  destruct (split "," s) as [|h t] eqn:E; [now apply split_nonempty in E|].
  cbn [map]. now rewrite trim_space_cons.
Qed.

(** The items written with [join(', ')] are the items read back, one by one. *)
Lemma parseItems_join (l : list string) :
  l <> [] -> forallb (fun e => negb (hasChar 44 e)) l = true ->
  parseItems (join ", " l) = map (fun e => removeQuotes (trim e)) l.
Proof.
  induction l as [|e l IH]; [contradiction|]. intros _ H.
  cbn [forallb] in H. apply andb_true_iff in H as [He Hl].
  apply negb_true_iff in He.
  destruct l as [|e' l].
  - cbn [join map]. unfold parseItems.
    change ","%char with (ascii_of_nat 44). now rewrite split_no_sep by (lia || assumption).
  - change (join ", " (e :: e' :: l))
      with (e ++ chr 44 ++ String " " (join ", " (e' :: l))).
    unfold parseItems at 1. change ","%char with (ascii_of_nat 44).
    rewrite split_append by (lia || assumption).
    change (ascii_of_nat 44) with ","%char. cbn [map]. f_equal.
    change (map (fun item => removeQuotes (trim item))
              (split "," (String " " (join ", " (e' :: l)))))
      with (parseItems (String " " (join ", " (e' :: l)))).
    rewrite parseItems_space. apply IH; [discriminate | exact Hl].
Qed.

Lemma parseItems_updated (xs : list string) (itemName : string) :
  forallb plainMember xs = true -> plainMember itemName = true ->
  parseItems (join ", " (xs ++ [quoted itemName])) = (xs ++ [itemName])%list.
Proof.
  intros Hxs Hs.
  pose proof (plainMember_inv _ Hs) as (_ & _ & Hc & _ & Hq1 & Hq2).
  rewrite parseItems_join.
  - rewrite map_app. cbn [map]. rewrite readBack_quoted by assumption. f_equal.
    rewrite forallb_forall in Hxs. clear -Hxs.
    induction xs as [|x xs IH]; [reflexivity|].
    cbn [map]. rewrite readBack_plain by (apply Hxs; now left).
    f_equal. apply IH. intros y Hy. apply Hxs. now right.
  - now destruct xs.
  - rewrite forallb_app. apply andb_true_iff. split.
    + rewrite forallb_forall in *. intros x Hx.
      apply Hxs, plainMember_inv in Hx as (_ & _ & Hx & _). now rewrite Hx.
    + cbn [forallb]. unfold quoted. rewrite !hasChar_append, Hc. reflexivity.
Qed.

Lemma hasChar_updated (n : nat) (xs : list string) (itemName : string) :
  hasChar n ", " = false -> hasChar n dq = false ->
  forallb (fun e => negb (hasChar n e)) xs = true -> hasChar n itemName = false ->
  hasChar n (join ", " (xs ++ [quoted itemName])) = false.
Proof.
  intros H1 H2 Hxs Hs. apply hasChar_join; [exact H1|].
  rewrite forallb_app, Hxs. cbn [forallb andb]. unfold quoted.
  now rewrite !hasChar_append, H2, Hs.
Qed.

(** *** The construct of a file under text put after it *)

Lemma fileItems_append (content t : string) (l : list string) :
  fileItems content = Some l ->
  exists m, search allAt (content ++ t) = Some m
            /\ parseItems (group1 m) = l
            /\ exists post0, m_post m = post0 ++ t
                             /\ content = m_pre m ++ m_text m ++ post0
                             /\ search allAt content
                                = Some (mkMatch (m_pre m) (m_text m) (m_groups m) post0).
Proof.
  unfold fileItems. destruct (search allAt content) as [m0|] eqn:E; [|discriminate].
  intros [= <-].
  destruct (search_inv _ _ E) as [v1 [v2 [cap (H1 & H2 & Hc & Hm & Hs & Hp)]]].
  exists (mkMatch (m_pre m0) (constructText v1 v2 cap) [cap] (m_post m0 ++ t)).
  split.
  - rewrite Hs, ?append_assoc. now apply search_construct.
  - rewrite Hm. cbn [m_pre m_text m_groups m_post group1 nth]. split; [reflexivity|].
    exists (m_post m0). repeat split; assumption || reflexivity.
Qed.

Lemma search_append_free (content t : string) :
  opens content = false -> hasChar 91 t = false -> search allAt (content ++ t) = None.
Proof. intros H Ht. now apply search_not_opens, opens_append_free. Qed.

Lemma importLine_no_bracket (itemName : string) :
  hasChar 91 itemName = false -> hasChar 91 (importLine itemName ++ nl) = false.
Proof.
  intros H. unfold importLine. now rewrite !hasChar_append, H.
Qed.

(** *** The four ways through [updateInitFile] *)

Lemma update_present (content itemName : string) :
  includes content (importLine itemName) = true ->
  updateInitContent (Some content) itemName = None.
Proof. unfold updateInitContent. now intros ->. Qed.

Lemma update_listed (content itemName : string) (items : list string) :
  includes content (importLine itemName) = false ->
  fileItems content = Some items -> In itemName items ->
  updateInitContent (Some content) itemName = Some (content ++ importLine itemName ++ nl)
  /\ fileItems (content ++ importLine itemName ++ nl) = Some items.
Proof.
  intros Hi Hf Hin.
  destruct (fileItems_append content (importLine itemName ++ nl) items Hf)
    as [m (Hs & Hp & _)].
  unfold updateInitContent, fileItems. rewrite Hi, Hs, Hp.
  apply existsb_eqb in Hin. rewrite Hin. cbn [option_map]. now rewrite Hp.
Qed.

Lemma allConstruct_text (items : list string) :
  allConstruct items = constructText " " " " (join ", " items).
Proof. reflexivity. Qed.

Lemma update_appended (content itemName : string) (items : list string) :
  includes content (importLine itemName) = false ->
  fileItems content = Some items -> ~ In itemName items ->
  forallb plainMember items = true -> plainMember itemName = true ->
  exists pre post,
    updateInitContent (Some content) itemName
    = Some (pre ++ allConstruct (List.filter truthy items ++ [quoted itemName])
              ++ post ++ importLine itemName ++ nl)
    /\ fileItems (pre ++ allConstruct (List.filter truthy items ++ [quoted itemName])
                    ++ post ++ importLine itemName ++ nl)
       = Some (List.filter truthy items ++ [itemName])%list.
Proof.
  intros Hi Hf Hin Hitems Hname.
  destruct (fileItems_append content (importLine itemName ++ nl) items Hf)
    as [m (Hs & Hp & post0 & Hpost & Hc & Hs0)].
  destruct (search_inv _ _ Hs0) as [v1 [v2 [cap (_ & _ & _ & _ & _ & Hopen)]]].
  cbn [m_pre] in Hopen.
  pose proof (plainMember_inv _ Hname) as (_ & Hd & _ & Hb & _ & _).
  set (xs := List.filter truthy items).
  assert (forallb plainMember xs = true) as Hxs by now apply forallb_filter.
  exists (m_pre m), post0. split.
  - unfold updateInitContent. rewrite Hi, Hs, Hp.
    destruct (existsb (String.eqb itemName) items) eqn:Ex;
      [now apply existsb_eqb in Ex|].
    unfold replace. rewrite Hs. fold xs.
    rewrite getSubstitution_plain, Hpost; [now rewrite ?append_assoc|].
    unfold allConstruct. rewrite !hasChar_append.
    rewrite hasChar_updated; try reflexivity; try assumption.
    apply (forallb_weaken plainMember); [|exact Hxs].
    intros x Hx. apply plainMember_inv in Hx as (_ & Hx & _). now rewrite Hx.
  - unfold fileItems. rewrite allConstruct_text.
    rewrite search_construct; try reflexivity; try assumption.
    + cbn [option_map group1 m_groups nth]. f_equal. now apply parseItems_updated.
    + apply hasChar_updated; try reflexivity; try assumption.
      apply (forallb_weaken plainMember); [|exact Hxs].
      intros x Hx. apply plainMember_inv in Hx as (_ & _ & _ & Hx & _). now rewrite Hx.
Qed.

Lemma construct_assoc (cap post : string) :
  "__all__ = [" ++ cap ++ "]" ++ post = constructText " " " " cap ++ post.
Proof. unfold constructText, openerText. now rewrite ?append_assoc. Qed.

Lemma update_created (content itemName : string) :
  includes content (importLine itemName) = false ->
  opens content = false -> plainSymbol itemName = true ->
  updateInitContent (Some content) itemName
  = Some ((content ++ importLine itemName ++ nl) ++ nl
            ++ "__all__ = [" ++ quoted itemName ++ "]" ++ nl)
  /\ fileItems ((content ++ importLine itemName ++ nl) ++ nl
                  ++ "__all__ = [" ++ quoted itemName ++ "]" ++ nl)
     = Some [itemName].
Proof.
  intros Hi Ho Hname. apply plainSymbol_inv in Hname as (Hname & Hb & _).
  pose proof (plainMember_inv _ Hname) as (_ & _ & _ & Hc & _ & _).
  split.
  - unfold updateInitContent. rewrite Hi.
    rewrite search_append_free by (assumption || now apply importLine_no_bracket).
    reflexivity.
  - unfold fileItems. rewrite construct_assoc, <- (append_assoc _ nl).
    rewrite search_construct; try reflexivity.
    + cbn [option_map group1 m_groups nth join]. f_equal.
      exact (parseItems_updated [] itemName eq_refl Hname).
    + rewrite ?append_assoc. apply opens_append_free; [exact Ho|].
      rewrite <- append_assoc, hasChar_append.
      now rewrite importLine_no_bracket.
    + unfold quoted. now rewrite !hasChar_append, Hc.
Qed.

(** *** The invariant of the index file *)

Lemma filter_truthy_app (xs : list string) (x : string) :
  truthy x = true ->
  List.filter truthy (List.filter truthy xs ++ [x]) = (List.filter truthy xs ++ [x])%list.
Proof.
  intros Hx. rewrite List.filter_app. cbn [List.filter]. rewrite Hx. f_equal.
  induction xs as [|y xs IH]; [reflexivity|].
  cbn [List.filter]. destruct (truthy y) eqn:E; [|exact IH].
  cbn [List.filter]. now rewrite E, IH.
Qed.

Lemma NoDup_snoc (xs : list string) (x : string) :
  List.NoDup xs -> ~ In x xs -> List.NoDup (xs ++ [x]).
Proof.
  intros Hn Hx. induction Hn as [|y ys Hy Hn IH]; cbn [app].
  - constructor; [intros []|constructor].
  - constructor.
    + rewrite in_app_iff. intros [H | [H | []]]; [now apply Hy|].
      subst. apply Hx. now left.
    + apply IH. intros H. apply Hx. now right.
Qed.

Lemma afterUpdate_step (content itemName : string) :
  wellFormedIndex content -> plainSymbol itemName = true ->
  wellFormedIndex (afterUpdate content itemName)
  /\ (members (afterUpdate content itemName) = members content
      \/ (~ In itemName (members content)
          /\ members (afterUpdate content itemName)
             = (members content ++ [itemName])%list)).
Proof.
  intros Hwf Hname. pose proof (plainSymbol_inv _ Hname) as (Hm & Hb & Ht).
  unfold afterUpdate.
  destruct (includes content (importLine itemName)) eqn:Hi.
  { rewrite update_present by exact Hi. split; [exact Hwf | now left]. }
  unfold wellFormedIndex in Hwf.
  destruct (fileItems content) as [items|] eqn:Hf.
  - assert (members content = List.filter truthy items) as Hmem
      by (unfold members; now rewrite Hf).
    rewrite Hmem. destruct Hwf as [Hnd Hplain].
    destruct (in_dec string_dec itemName items) as [Hin | Hin].
    + destruct (update_listed _ _ _ Hi Hf Hin) as [-> Hf'].
      unfold wellFormedIndex, members. rewrite Hf'. split; [now split | now left].
    + destruct (update_appended _ _ _ Hi Hf Hin Hplain Hm) as [pre [post [-> Hf']]].
      unfold wellFormedIndex, members. rewrite Hf'.
      rewrite filter_truthy_app by exact Ht.
      assert (~ In itemName (List.filter truthy items)) as Hnot
        by (intros H; apply filter_In in H as [H _]; contradiction).
      split; [split|right; now split].
      * now apply NoDup_snoc.
      * rewrite forallb_app, (forallb_filter _ _ _ Hplain). cbn [forallb].
        now rewrite Hm.
  - assert (members content = []) as Hmem by (unfold members; now rewrite Hf).
    rewrite Hmem.
    destruct (update_created _ _ Hi Hwf Hname) as [-> Hf'].
    unfold wellFormedIndex, members. rewrite Hf'. cbn [List.filter]. rewrite Ht.
    split; [split|right; split].
    + constructor; [intros []|constructor].
    + cbn [forallb]. now rewrite Hm.
    + intros [].
    + reflexivity.
Qed.

Lemma wellFormed_NoDup (content : string) :
  wellFormedIndex content -> List.NoDup (members content).
Proof.
  unfold wellFormedIndex, members. destruct (fileItems content).
  - now intros [H _].
  - intros _. constructor.
Qed.

Lemma afterUpdates_invariant (names : list string) (content : string) :
  wellFormedIndex content -> forallb plainSymbol names = true ->
  wellFormedIndex (afterUpdates names content)
  /\ exists added, members (afterUpdates names content) = (members content ++ added)%list
                   /\ incl added names.
Proof.
  revert content; induction names as [|x names IH]; intros content Hwf Hnames.
  - split; [exact Hwf|]. exists []. split; [now rewrite app_nil_r | intros ? []].
  - cbn [forallb] in Hnames. apply andb_true_iff in Hnames as [Hx Hnames].
    destruct (afterUpdate_step content x Hwf Hx) as [Hwf' Hmem].
    destruct (IH _ Hwf' Hnames) as [Hwf'' [added [Hadd Hincl]]].
    cbn [afterUpdates fold_left]. fold (afterUpdates names (afterUpdate content x)).
    split; [exact Hwf''|].
    destruct Hmem as [E | [_ E]]; rewrite E in Hadd.
    + exists added. split; [exact Hadd | now apply incl_tl].
    + exists (x :: added). split.
      * now rewrite Hadd, <- app_assoc.
      * intros y [<- | Hy]; [now left | right; now apply Hincl].
Qed.

(** The index file after a call, disk or no disk. *)
Lemma readFile_updateInitFile (initPath itemName : string) (fs : Fs.t) :
  Fs.readFile initPath (updateInitFile initPath itemName fs)
  = Some (afterUpdate
            match Fs.readFile initPath fs with Some c => c | None => EmptyString end
            itemName).
Proof.
  unfold updateInitFile, afterUpdate.
  destruct (Fs.readFile initPath fs) as [c|] eqn:E.
  - destruct (updateInitContent (Some c) itemName) as [c'|];
      [apply readFile_writeFile | exact E].
  - assert (updateInitContent None itemName = updateInitContent (Some "") itemName) as ->
      by reflexivity.
    destruct (updateInitContent (Some "") itemName) as [c'|] eqn:E';
      [apply readFile_writeFile|].
    unfold updateInitContent in E'.
    assert (includes "" (importLine itemName) = false) as Hi by reflexivity.
    rewrite Hi in E'. destruct (search allAt _); [destruct (existsb _ _)|]; discriminate.
Qed.

(** C9, for the names the merger can write and read again: from a
    well-formed index file (the empty file is one) and through every
    sequence of calls with plain symbol names (not empty, trimmed, without
    quote, comma, square bracket or [$]), the file stays well formed, the
    members of [__all__] are pairwise different, and they are the members
    at the start, in their order, followed by members taken from the names
    registered.  A call with a name not yet imported and not yet listed
    rewrites the list as its members, in their order, followed by the new
    name; when the file has no list (and leaves none open), the call
    creates one that holds the new name alone. *)
Theorem registration_invariant (content : string) (names : list string) :
  wellFormedIndex content -> forallb plainSymbol names = true ->
  let final := afterUpdates names content in
  wellFormedIndex final
  /\ List.NoDup (members final)
  /\ (exists added, members final = (members content ++ added)%list /\ incl added names)
  /\ (forall itemName,
        plainSymbol itemName = true ->
        includes final (importLine itemName) = false ->
        (forall items, fileItems final = Some items -> ~ In itemName items ->
           fileItems (afterUpdate final itemName)
           = Some (List.filter truthy items ++ [itemName])%list)
        /\ (fileItems final = None ->
            afterUpdate final itemName
            = (final ++ importLine itemName ++ nl) ++ nl
              ++ "__all__ = [" ++ quoted itemName ++ "]" ++ nl
            /\ fileItems (afterUpdate final itemName) = Some [itemName]))
  /\ wellFormedIndex EmptyString
  /\ (forall initPath itemName fs,
        Fs.readFile initPath (updateInitFile initPath itemName fs)
        = Some (afterUpdate
                  match Fs.readFile initPath fs with Some c => c | None => EmptyString end
                  itemName)).
Proof.
  intros Hwf Hnames final.
  destruct (afterUpdates_invariant names content Hwf Hnames) as [Hfinal Hadded].
  fold final in Hfinal, Hadded.
  split; [exact Hfinal|]. split; [now apply wellFormed_NoDup|].
  split; [exact Hadded|].
  split; [|split; [reflexivity | intros; apply readFile_updateInitFile]].
  intros itemName Hname Hi. pose proof (plainSymbol_inv _ Hname) as (Hm & _ & _).
  split.
  - intros items Hf Hin. unfold wellFormedIndex in Hfinal. rewrite Hf in Hfinal.
    destruct Hfinal as [_ Hplain].
    destruct (update_appended _ _ _ Hi Hf Hin Hplain Hm) as [pre [post [Hu Hf']]].
    unfold afterUpdate. now rewrite Hu.
  - intros Hf. unfold wellFormedIndex in Hfinal. rewrite Hf in Hfinal.
    destruct (update_created _ _ Hi Hfinal Hname) as [Hu Hf'].
    unfold afterUpdate. rewrite Hu. split; [reflexivity | exact Hf'].
Qed.

Lemma registration_invariant_witness :
  members (afterUpdates ["asset1"; "asset2"; "asset1"; "job_a"] EmptyString)
  = ["asset1"; "asset2"; "job_a"]
  /\ List.NoDup (members (afterUpdates ["asset1"; "asset2"; "asset1"; "job_a"] EmptyString)).
Proof.
  split; [reflexivity|].
  apply (registration_invariant EmptyString ["asset1"; "asset2"; "asset1"; "job_a"]);
    reflexivity.
Defined.

(** C9 fails as stated: with the names [a] and [a'] the list holds, as the
    merger itself reads it, the member [a] twice; and one call with a name
    that holds quotes and a comma creates a list with the same string
    twice. *)
Lemma quote_in_name_duplicates :
  let final := afterUpdates ["a"; "a" ++ sq] EmptyString in
  let twice := "x" ++ dq ++ ", " ++ dq ++ "x" in
  final = "from .a import a" ++ nl ++ nl
          ++ "__all__ = [a, " ++ dq ++ "a'" ++ dq ++ "]" ++ nl
          ++ "from .a' import a'" ++ nl
  /\ fileItems final = Some ["a"; "a"] /\ ~ List.NoDup (members final)
  /\ afterUpdate EmptyString twice
     = importLine twice ++ nl ++ nl
       ++ "__all__ = [" ++ dq ++ "x" ++ dq ++ ", " ++ dq ++ "x" ++ dq ++ "]" ++ nl
  /\ fileItems (afterUpdate EmptyString twice) = Some ["x"; "x"].
Proof.
  intros final twice. split; [reflexivity|]. split; [reflexivity|].
  split; [|split; reflexivity].
  intros H. change (members final) with ["a"; "a"] in H.
  inversion H as [|x l Hx _]. apply Hx. now left.
Qed.

(** *** Idempotence *)

Lemma last_char_in (n : nat) (a c l : string) :
  (n < 256)%nat -> a ++ chr n = c ++ l -> l <> EmptyString -> hasChar n l = true.
Proof.
  intros Hn. revert a; induction c as [|x c IH]; intros a E Hl.
  - cbn [String.append] in E. subst l. rewrite hasChar_append, hasChar_chr by exact Hn.
    apply orb_true_r.
  - destruct a as [|y a].
    + unfold chr in E. cbn in E. injection E as _ E. symmetry in E.
      apply append_eq_nil in E as [_ E]. contradiction.
    + cbn [String.append] in E. injection E as _ E. now apply (IH a).
Qed.

(** Text without code unit [n] at the end of a string lies after the last
    [n] of that string. *)
Lemma suffix_after (n : nat) (a b c t : string) :
  (n < 256)%nat -> a ++ chr n ++ b = c ++ t -> hasChar n t = false ->
  exists b0, b = b0 ++ t.
Proof.
  intros Hn E Ht. rewrite <- append_assoc in E.
  apply append_eq_append in E as [l [[E1 E2] | [E1 E2]]].
  - destruct l as [|x l].
    + exists "". now rewrite E2.
    + apply last_char_in in E1; [|exact Hn|discriminate].
      rewrite E2, hasChar_append, E1 in Ht. discriminate.
  - now exists l.
Qed.

Lemma constructText_end (v1 v2 cap : string) :
  constructText v1 v2 cap = (openerText v1 v2 ++ "[" ++ cap) ++ chr 93.
Proof. unfold constructText. now rewrite ?append_assoc. Qed.

(** Whatever a call writes holds the import line, when the name has no
    closing bracket. *)
Lemma update_includes (existing : option string) (itemName content' : string) :
  hasChar 93 itemName = false ->
  updateInitContent existing itemName = Some content' ->
  includes content' (importLine itemName) = true.
Proof.
  intros Hb. unfold updateInitContent.
  set (content := match existing with Some c => c | None => "" end).
  destruct (includes content (importLine itemName)); [discriminate|].
  destruct (search allAt (content ++ importLine itemName ++ nl)) as [m|] eqn:Es.
  - destruct (existsb _ _).
    + intros E. apply some_eq in E. subst content'. apply includes_append.
    + intros E. apply some_eq in E. subst content'. unfold replace. rewrite Es.
      destruct (search_inv _ _ Es) as [v1 [v2 [cap (_ & _ & _ & _ & E & _)]]].
      rewrite constructText_end, append_assoc in E. symmetry in E.
      rewrite <- append_assoc in E.
      apply suffix_after in E as [b0 ->]; [|lia|].
      * rewrite <- !append_assoc. rewrite (append_assoc _ (importLine itemName)).
        apply includes_append.
      * unfold importLine. now rewrite !hasChar_append, Hb.
  - intros E. apply some_eq in E. subst content'.
    rewrite !append_assoc. apply includes_append.
Qed.

(** C1, for the names without closing bracket: a second call of
    [updateInitFile] with the same name on the same index file changes
    nothing, neither the files nor the write requests issued, because it
    returns before it writes; and whenever the import line is in the file
    the call returns without writing. *)
Theorem updateInitFile_idempotent (initPath itemName : string) (fs : Fs.t) :
  hasChar 93 itemName = false ->
  updateInitFile initPath itemName (updateInitFile initPath itemName fs)
  = updateInitFile initPath itemName fs
  /\ updateInitContent (Fs.readFile initPath (updateInitFile initPath itemName fs)) itemName
     = None
  /\ (forall content,
        includes content (importLine itemName) = true ->
        updateInitContent (Some content) itemName = None)
  /\ (forall cfg,
        updateAssetsInit cfg itemName (updateAssetsInit cfg itemName fs)
        = updateAssetsInit cfg itemName fs
        /\ updateJobsInit cfg itemName (updateJobsInit cfg itemName fs)
           = updateJobsInit cfg itemName fs).
Proof.
  intros Hb.
  assert (forall initPath,
            updateInitContent
              (Fs.readFile initPath (updateInitFile initPath itemName fs)) itemName
            = None) as Hsecond'.
  { intros p. unfold updateInitFile at 1.
    destruct (updateInitContent (Fs.readFile p fs) itemName) as [c'|] eqn:E.
    - rewrite readFile_writeFile.
      apply update_present. exact (update_includes _ _ _ Hb E).
    - exact E. }
  assert (forall initPath,
            updateInitFile initPath itemName (updateInitFile initPath itemName fs)
            = updateInitFile initPath itemName fs) as Hsame
    by (intros p; unfold updateInitFile at 1; now rewrite Hsecond').
  assert (updateInitContent (Fs.readFile initPath (updateInitFile initPath itemName fs))
            itemName = None) as Hsecond.
  { unfold updateInitFile at 1.
    destruct (updateInitContent (Fs.readFile initPath fs) itemName) as [c'|] eqn:E.
    - unfold Fs.readFile, Fs.writeFile. cbn [Fs.files]. rewrite lookup_insert_eq.
      apply update_present. exact (update_includes _ _ _ Hb E).
    - exact E. }
  split; [apply Hsame|]. split; [exact Hsecond|].
  split; [intros content H; now apply update_present|].
  intros cfg. unfold updateAssetsInit, updateJobsInit. split; apply Hsame.
Qed.

Lemma updateInitFile_idempotent_witness :
  let fs1 := updateInitFile "assets/__init__.py" "duplicate_asset" Fs.empty in
  updateInitFile "assets/__init__.py" "duplicate_asset" fs1 = fs1.
Proof.
  intros fs1.
  apply (updateInitFile_idempotent "assets/__init__.py" "duplicate_asset" Fs.empty).
  reflexivity.
Defined.

(** C1 fails as stated: a name that holds a construct of its own is
    rewritten by the first call, so the second call does not find the
    import line and writes again. *)
Lemma second_call_writes_again :
  let first := updateInitContent None "__all__=[]" in
  let second := updateInitContent first "__all__=[]" in
  first = Some ("from .__all__ = [" ++ dq ++ "__all__=[]" ++ dq ++ "] import __all__=[]" ++ nl)
  /\ second <> None /\ second <> first
  /\ forall fs,
       Fs.readFile "assets/__init__.py" fs = None ->
       let fs1 := updateInitFile "assets/__init__.py" "__all__=[]" fs in
       Fs.readFile "assets/__init__.py" (updateInitFile "assets/__init__.py" "__all__=[]" fs1)
       = second.
Proof.
  intros first second. split; [reflexivity|].
  split; [vm_compute; discriminate|]. split; [vm_compute; discriminate|].
  intros fs Hfs fs1. unfold fs1, updateInitFile at 2. rewrite Hfs.
  change (updateInitContent None "__all__=[]") with first.
  assert (first = Some ("from .__all__ = [" ++ dq ++ "__all__=[]" ++ dq
                        ++ "] import __all__=[]" ++ nl)) as E by reflexivity.
  rewrite E. unfold updateInitFile. rewrite readFile_writeFile. rewrite <- E.
  fold second.
  assert (exists c, second = Some c) as [c Hc] by (vm_compute; eauto).
  rewrite Hc. apply readFile_writeFile.
Qed.

(** *** The list the merger writes *)

(** The list text holds a [$] only where an item does. *)
Lemma dollarFree_list_text (items : list string) :
  forallb (fun x => negb (hasChar 36 x)) items = true ->
  hasChar 36 ("__all__ = [" ++ join ", " items ++ "]") = false.
Proof.
  intros Hitems.
  now rewrite !hasChar_append, (hasChar_join 36 ", " items) by (reflexivity || exact Hitems).
Qed.

(** C10, on its domain: when [updateInitFile] rewrites a construct to add
    a name that is not listed, and neither the name nor an old member
    holds a [$], the first construct of the file is replaced by the list
    of the old members that are not empty, read without any quote and
    written bare, in their order, followed by the new name between double
    quotes; what stands before and after the construct stays. *)
Theorem rewrite_emits_bare_members (existing : option string) (itemName : string)
    (m : Match) :
  let old := match existing with Some c => c | None => EmptyString end in
  let content := old ++ importLine itemName ++ nl in
  let kept := List.filter truthy (parseItems (group1 m)) in
  includes old (importLine itemName) = false ->
  search allAt content = Some m ->
  ~ In itemName (parseItems (group1 m)) ->
  forallb (fun x => negb (hasChar 36 x)) (itemName :: kept) = true ->
  (exists v1 v2,
     allSpace v1 = true /\ allSpace v2 = true
     /\ content = m_pre m ++ constructText v1 v2 (group1 m) ++ m_post m)
  /\ updateInitContent existing itemName
     = Some (m_pre m
             ++ "__all__ = [" ++ join ", " (kept ++ [dq ++ itemName ++ dq]) ++ "]"
             ++ m_post m)
  /\ Forall (fun x => hasChar 34 x = false /\ hasChar 39 x = false) kept.
Proof.
  intros old content kept Hi Hs Hin Hd.
  cbn [forallb] in Hd. apply andb_true_iff in Hd as [Hname Hkept].
  apply negb_true_iff in Hname.
  split; [|split].
  - destruct (search_inv _ _ Hs) as [v1 [v2 [cap (H1 & H2 & _ & Hm & E & _)]]].
    exists v1, v2. split; [exact H1|]. split; [exact H2|].
    rewrite Hm. exact E.
  - unfold updateInitContent. fold old. rewrite Hi. fold content. rewrite Hs.
    destruct (existsb (String.eqb itemName) (parseItems (group1 m))) eqn:Ex;
      [now apply existsb_eqb in Ex|].
    unfold replace. rewrite Hs. fold kept. unfold allConstruct, quoted.
    rewrite getSubstitution_plain; [now rewrite ?append_assoc|].
    apply dollarFree_list_text.
    rewrite forallb_app, Hkept. cbn [forallb]. unfold dq.
    now rewrite !hasChar_append, Hname.
  - apply List.Forall_forall. intros x Hx. unfold kept in Hx.
    apply filter_In in Hx as [Hx _]. unfold parseItems in Hx.
    apply in_map_iff in Hx as [y [<- _]]. apply removeQuotes_clean.
Qed.

Lemma rewrite_emits_bare_members_witness :
  updateInitContent
    (Some ("from .a import a" ++ nl ++ "__all__ = ['a', " ++ dq ++ "b" ++ dq ++ "]" ++ nl))
    "c"
  = Some ("from .a import a" ++ nl ++ "__all__ = [a, b, " ++ dq ++ "c" ++ dq ++ "]" ++ nl
          ++ "from .c import c" ++ nl).
Proof.
  pose (old := "from .a import a" ++ nl ++ "__all__ = ['a', " ++ dq ++ "b" ++ dq ++ "]" ++ nl).
  pose (m := mkMatch ("from .a import a" ++ nl)
               ("__all__ = ['a', " ++ dq ++ "b" ++ dq ++ "]")
               ["'a', " ++ dq ++ "b" ++ dq] (nl ++ "from .c import c" ++ nl)).
  destruct (rewrite_emits_bare_members (Some old) "c" m) as (_ & H & _).
  - reflexivity.
  - reflexivity.
  - vm_compute. intros [H | [H | []]]; discriminate.
  - reflexivity.
  - exact H.
Defined.

(** C10 fails as stated: a [$] in an old member or in the new name is
    read by [String.replace] as a replacement pattern.  The member
    [a$$b] is written back as [a$b], and for the new name [$&] the old
    construct stands between the double quotes. *)
Lemma dollar_is_expanded :
  members ("__all__ = [a$$b]" ++ nl) = ["a$$b"]
  /\ updateInitContent (Some ("__all__ = [a$$b]" ++ nl)) "c"
     = Some ("__all__ = [a$b, " ++ dq ++ "c" ++ dq ++ "]" ++ nl
             ++ "from .c import c" ++ nl)
  /\ updateInitContent (Some ("__all__ = [a]" ++ nl)) "$&"
     = Some ("__all__ = [a, " ++ dq ++ "__all__ = [a]" ++ dq ++ "]" ++ nl
             ++ "from .$& import $&" ++ nl).
Proof. split; [|split]; reflexivity. Qed.

End DagsterFacts.

(** ** The configuration header of a model file *)

Module HeaderFacts.
Import JS Spec StrFacts Dbt.

Lemma configBody_closing (rest : string) : configBody (") }}" ++ rest) = None.
Proof. reflexivity. Qed.

Lemma configBody_sound (s rest : string) :
  configBody s = Some rest ->
  exists body, body <> EmptyString /\ hasChar 125 body = false
               /\ s = body ++ ") }}" ++ rest.
Proof.
  revert rest; induction s as [|c s IH]; intros rest; cbn [configBody]; [discriminate|].
  destruct (isChar 125 c) eqn:Ec; [discriminate|].
  destruct (configBody s) as [r|] eqn:Es.
  - intros [= <-]. destruct (IH r eq_refl) as [body (Hb & Hc & ->)].
    exists (String c body). cbn [hasChar]. rewrite Ec, Hc. now repeat split.
  - intros E. apply stripPrefix_spec in E as ->.
    exists (String c ""). cbn [hasChar]. rewrite Ec. now repeat split.
Qed.

Lemma configBody_cons (c : ascii) (r : string) :
  configBody (String c r)
  = if isChar 125 c then None
    else match configBody r with
         | Some rest => Some rest
         | None => stripPrefix ") }}" r
         end.
Proof. reflexivity. Qed.

Lemma configBody_complete (body rest : string) :
  body <> EmptyString -> hasChar 125 body = false ->
  configBody (body ++ ") }}" ++ rest) = Some rest.
Proof.
  induction body as [|c body IH]; [contradiction|]. intros _ H.
  cbn [hasChar] in H. apply orb_false_iff in H as [Hc Hb].
  change (String c body ++ ") }}" ++ rest) with (String c (body ++ ") }}" ++ rest)).
  rewrite configBody_cons, Hc.
  destruct body as [|c' body].
  - change ("" ++ ") }}" ++ rest) with (") }}" ++ rest).
    rewrite configBody_closing. apply stripPrefix_append.
  - now rewrite IH.
Qed.

Lemma configAt_spec (s : string) (gs : list string) (post : string) :
  configAt s = Some (gs, post)
  <-> gs = [] /\ exists body, body <> EmptyString /\ hasChar 125 body = false
                              /\ s = headerText body ++ post.
Proof.
  unfold configAt, headerText, headerMark. split.
  - destruct (stripPrefix "{{ config(" s) as [r|] eqn:E; [|discriminate].
    apply stripPrefix_spec in E as ->.
    destruct (configBody r) as [rest|] eqn:Er; [|discriminate].
    intros [= <- <-]. split; [reflexivity|].
    apply configBody_sound in Er as [body (Hb & Hc & ->)].
    exists body. repeat split; try assumption. now rewrite ?append_assoc.
  - intros [-> [body (Hb & Hc & ->)]]. rewrite ?append_assoc.
    rewrite stripPrefix_append. now rewrite configBody_complete.
Qed.

Lemma configAt_header (body post : string) :
  body <> EmptyString -> hasChar 125 body = false ->
  configAt (headerText body ++ post) = Some ([], post).
Proof. intros Hb Hc. apply configAt_spec. split; [reflexivity | now exists body]. Qed.

Lemma configAt_mark (s : string) :
  isSome (configAt s) = true -> exists r, s = headerMark ++ r.
Proof.
  destruct (configAt s) as [[gs post]|] eqn:E; [|discriminate]. intros _.
  apply configAt_spec in E as [_ [body (_ & _ & ->)]].
  exists (body ++ ") }}" ++ post). unfold headerText. now rewrite ?append_assoc.
Qed.

(** *** Counting headers *)

Lemma headerCount_append (x y : string) :
  headerCount (x ++ y) = (headerCountIn x y + headerCount y)%nat.
Proof.
  induction x as [|c x IH]; [reflexivity|].
  cbn [String.append headerCount headerCountIn]. rewrite IH.
  change (String c (x ++ y)) with (String c x ++ y). lia.
Qed.

Lemma includes_cons (c : ascii) (s needle : string) :
  includes (String c s) needle = startsWith (String c s) needle || includes s needle.
Proof. reflexivity. Qed.

Lemma headerCount_no_mark (s : string) :
  includes s headerMark = false -> headerCount s = 0%nat.
Proof.
  induction s as [|c s IH]; [reflexivity|].
  rewrite includes_cons. intros H. apply orb_false_iff in H as [Hs Hi].
  cbn [headerCount]. rewrite (IH Hi).
  destruct (isSome (configAt (String c s))) eqn:E; [|reflexivity].
  apply configAt_mark in E as [r E]. rewrite E, startsWith_append in Hs. discriminate.
Qed.

Lemma includes_append_false (a b needle : string) :
  includes (a ++ b) needle = false ->
  includes a needle = false /\ includes b needle = false.
Proof.
  intros H. split.
  - destruct (includes a needle) eqn:E; [|reflexivity].
    apply includes_spec in E as [x [y ->]].
    rewrite ?append_assoc, includes_append in H. discriminate.
  - destruct (includes b needle) eqn:E; [|reflexivity].
    apply includes_spec in E as [x [y ->]].
    rewrite <- append_assoc, includes_append in H. discriminate.
Qed.

Lemma configAt_no_brace (c : ascii) (s : string) :
  isChar 123 c = false -> configAt (String c s) = None.
Proof.
  intros Hc. unfold configAt. cbn [stripPrefix].
  assert (Ascii.eqb "{" c = false) as E.
  { rewrite Ascii.eqb_sym. change "{"%char with (ascii_of_nat 123).
    now rewrite eqb_isChar by lia. }
  cbn [stripPrefix]. unfold stripPrefix. now rewrite E.
Qed.

Lemma headerCountIn_no_brace (x y : string) :
  hasChar 123 x = false -> headerCountIn x y = 0%nat.
Proof.
  induction x as [|c x IH]; [reflexivity|].
  cbn [hasChar]. intros H. apply orb_false_iff in H as [Hc Hx].
  cbn [headerCountIn String.append]. now rewrite configAt_no_brace, IH.
Qed.

(** A header whose options hold no brace starts at its first place only. *)
Lemma headerCountIn_header (body post : string) :
  body <> EmptyString -> hasChar 123 body = false -> hasChar 125 body = false ->
  headerCountIn (headerText body) post = 1%nat.
Proof.
  intros Hb H1 H2.
  change (headerText body) with (String "{" (String "{" (" config(" ++ body ++ ") }}"))).
  cbn [headerCountIn].
  change (String "{" (String "{" (" config(" ++ body ++ ") }}")) ++ post)
    with (headerText body ++ post).
  rewrite configAt_header by assumption.
  assert (configAt (String "{" (" config(" ++ body ++ ") }}") ++ post) = None) as ->
    by reflexivity.
  rewrite headerCountIn_no_brace; [reflexivity|].
  now rewrite !hasChar_append, H1.
Qed.

Lemma headerCountIn_header_pos (body post : string) :
  body <> EmptyString -> hasChar 125 body = false ->
  (1 <= headerCountIn (headerText body) post)%nat.
Proof.
  intros Hb H2.
  change (headerText body) with (String "{" (String "{" (" config(" ++ body ++ ") }}"))).
  cbn [headerCountIn].
  change (String "{" (String "{" (" config(" ++ body ++ ") }}")) ++ post)
    with (headerText body ++ post).
  rewrite configAt_header by assumption. cbn [isSome]. lia.
Qed.

Lemma headerText_split (body : string) :
  headerText body = (headerMark ++ body ++ ") ") ++ chr 125 ++ chr 125.
Proof. unfold headerText. now rewrite ?append_assoc. Qed.

(** A place before a header where no header starts stays such a place
    when the header is replaced by another one. *)
Lemma configAt_before_header (x b0 b1 post0 post1 : string) :
  x <> EmptyString ->
  b0 <> EmptyString -> hasChar 125 b0 = false ->
  b1 <> EmptyString -> hasChar 125 b1 = false ->
  configAt (x ++ headerText b0 ++ post0) = None ->
  configAt (x ++ headerText b1 ++ post1) = None.
Proof.
  intros Hx Hb0 Hc0 Hb1 Hc1 Hold.
  destruct (configAt (x ++ headerText b1 ++ post1)) as [[gs r]|] eqn:E; [|reflexivity].
  exfalso. apply configAt_spec in E as [_ [body (Hb & Hc & E)]].
  assert (hasChar 125 (headerMark ++ body ++ ") ") = false) as Hfree
    by now rewrite !hasChar_append, Hc.
  rewrite (headerText_split body), ?append_assoc in E.
  destruct (hasChar 125 x) eqn:Hxc.
  - destruct (splitFirst 125 x) as [[a b']|] eqn:Es;
      [|apply splitFirst_None in Es; congruence].
    apply splitFirst_sound in Es as [-> Ha]; [|lia].
    rewrite ?append_assoc in E. rewrite <- (append_assoc headerMark) in E.
    rewrite <- (append_assoc (headerMark ++ body)) in E.
    rewrite (append_assoc headerMark) in E.
    apply first_occurrence in E as [-> E]; [|lia|exact Ha|exact Hfree].
    destruct b' as [|c b'']; [discriminate|].
    unfold chr in E. cbn in E. injection E as -> _.
    assert (configAt (((headerMark ++ body ++ ") ") ++ chr 125 ++ String "}" b'')
                      ++ headerText b0 ++ post0)
            = Some ([], b'' ++ headerText b0 ++ post0)) as Hnew.
    { apply configAt_spec. split; [reflexivity|]. exists body.
      repeat split; try assumption.
      rewrite (headerText_split body). now rewrite ?append_assoc. }
    assert (Some (@nil string, b'' ++ headerText b0 ++ post0) = None) as Habs
      by (rewrite <- Hnew; exact Hold).
    discriminate.
  - rewrite (headerText_split b1), ?append_assoc in E.
    rewrite <- (append_assoc headerMark body) in E.
    rewrite <- (append_assoc (headerMark ++ body)) in E.
    rewrite <- (append_assoc headerMark b1) in E.
    rewrite <- (append_assoc (headerMark ++ b1)) in E.
    rewrite <- (append_assoc x) in E.
    apply first_occurrence in E as [E _]; [|lia| |].
    + rewrite <- append_assoc in E. apply append_inv_tail in E.
      rewrite <- append_assoc in E.
      apply append_eq_append in E as [l [[E1 E2] | [E1 E2]]].
      * assert (configAt (x ++ headerText b0 ++ post0) = Some ([], post0)) as Hnew.
        { apply configAt_spec. split; [reflexivity|]. exists (l ++ b0).
          repeat split.
          - destruct l; [exact Hb0 | discriminate].
          - rewrite hasChar_append, Hc0, orb_false_r.
            apply (f_equal (hasChar 125)) in E1.
            rewrite !hasChar_append, Hxc in E1. cbn in E1. now symmetry in E1.
          - unfold headerText. rewrite ?append_assoc.
            rewrite <- (append_assoc x headerMark), E1. now rewrite ?append_assoc. }
        congruence.
      * apply (f_equal String.length) in E1. rewrite !length_append in E1.
        destruct x; [contradiction | cbn in E1; lia].
    + rewrite !hasChar_append, Hxc, Hc1. reflexivity.
    + rewrite !hasChar_append, Hc. reflexivity.
Qed.

Lemma headerCountIn_transfer (pre b0 b1 post0 post1 : string) :
  b0 <> EmptyString -> hasChar 125 b0 = false ->
  b1 <> EmptyString -> hasChar 125 b1 = false ->
  headerCountIn pre (headerText b0 ++ post0) = 0%nat ->
  headerCountIn pre (headerText b1 ++ post1) = 0%nat.
Proof.
  intros Hb0 Hc0 Hb1 Hc1. induction pre as [|c pre IH]; [reflexivity|].
  cbn [headerCountIn]. intros H.
  destruct (configAt (String c pre ++ headerText b0 ++ post0)) eqn:E;
    [cbn in H; lia|].
  rewrite (configAt_before_header _ b0 b1 post0 post1) by (assumption || discriminate).
  cbn [isSome] in *. apply IH. lia.
Qed.

(** *** The leftmost header *)

Lemma search_config_inv (s : string) (m : Match) :
  search configAt s = Some m ->
  exists body,
    body <> EmptyString /\ hasChar 125 body = false
    /\ m = mkMatch (m_pre m) (headerText body) [] (m_post m)
    /\ s = m_pre m ++ headerText body ++ m_post m
    /\ headerCountIn (m_pre m) (headerText body ++ m_post m) = 0%nat.
Proof.
  revert m; induction s as [|c s IH]; intros m.
  - cbn. discriminate.
  - cbn [search]. destruct (configAt (String c s)) as [[gs post]|] eqn:E.
    + apply configAt_spec in E as [-> [body (Hb & Hc & E)]].
      rewrite E, substring_prefix. intros [= <-]. exists body.
      cbn [m_pre m_post]. repeat split; assumption || reflexivity.
    + destruct (search configAt s) as [m'|] eqn:Es; [|discriminate].
      intros [= <-].
      destruct (IH m' eq_refl) as [body (Hb & Hc & Hm & Hs & Hn)].
      exists body. cbn [shiftMatch m_pre m_post]. repeat split; try assumption.
      * rewrite Hm. reflexivity.
      * cbn [String.append]. now rewrite <- Hs.
      * cbn [headerCountIn].
        change (String c (m_pre m') ++ headerText body ++ m_post m')
          with (String c (m_pre m' ++ headerText body ++ m_post m')).
        now rewrite <- Hs, E, Hn.
Qed.

(** *** The header [addModelConfig] builds *)

Lemma configLineOf_header (materializedAs : string) (tags : list string) :
  configLineOf materializedAs tags = headerText (optionsText materializedAs tags).
Proof. reflexivity. Qed.

Lemma optionsText_cases (materializedAs : string) (tags : list string) :
  optionsText materializedAs tags = "materialized='" ++ materializedAs ++ "'"
  \/ optionsText materializedAs tags
     = ("materialized='" ++ materializedAs ++ "'") ++ ", "
       ++ "tags=['" ++ join "', '" tags ++ "']".
Proof. unfold optionsText. destruct (0 <? List.length tags)%nat; [now right | now left]. Qed.

Lemma optionsText_nonempty (materializedAs : string) (tags : list string) :
  optionsText materializedAs tags <> EmptyString.
Proof. destruct (optionsText_cases materializedAs tags) as [-> | ->]; discriminate. Qed.

(** A code unit that is in none of the fixed parts of the header and in none
    of the option values is not in the options text. *)
Lemma optionsText_free (n : nat) (materializedAs : string) (tags : list string) :
  hasChar n "materialized=', tags=[']" = false ->
  forallb (fun x => negb (hasChar n x)) (materializedAs :: tags) = true ->
  hasChar n (optionsText materializedAs tags) = false.
Proof.
  intros Hlit H. cbn [forallb] in H. apply andb_true_iff in H as [Hm Ht].
  apply negb_true_iff in Hm.
  assert (hasChar n "materialized='" = false /\ hasChar n "'" = false
          /\ hasChar n ", " = false /\ hasChar n "tags=['" = false
          /\ hasChar n "', '" = false /\ hasChar n "']" = false)
    as (L1 & L2 & L3 & L4 & L5 & L6).
  { cbn [hasChar] in *. repeat (apply orb_false_iff in Hlit as [? Hlit]).
    repeat match goal with E : isChar n _ = false |- _ => rewrite E; clear E end.
    repeat split; reflexivity. }
  destruct (optionsText_cases materializedAs tags) as [-> | ->];
    rewrite !hasChar_append, ?L1, ?L2, ?L3, ?L4, ?L6, ?Hm; try reflexivity.
  now rewrite hasChar_join.
Qed.

Lemma braceFree_options (materializedAs : string) (tags : list string) :
  braceFree materializedAs tags = true ->
  hasChar 123 (optionsText materializedAs tags) = false
  /\ hasChar 125 (optionsText materializedAs tags) = false.
Proof.
  unfold braceFree. intros H. split; apply optionsText_free; try reflexivity;
    apply (forallb_weaken _ _ _ (fun x Hx => Hx)) in H;
    rewrite forallb_forall in *; intros x Hx; specialize (H x Hx);
    apply andb_true_iff in H as [H1 H2]; assumption.
Qed.

Lemma dollarFree_header (materializedAs : string) (tags : list string) :
  dollarFree materializedAs tags = true ->
  hasChar 36 (configLineOf materializedAs tags) = false.
Proof.
  intros H. rewrite configLineOf_header. unfold headerText, headerMark.
  rewrite !hasChar_append, optionsText_free; reflexivity || exact H.
Qed.

(** *** Lines *)

Lemma findIndex_spec {A} (p : A -> bool) (l : list A) (i : nat) :
  findIndex p l = Some i ->
  exists x rest,
    l = (firstn i l ++ x :: rest)%list /\ skipn i l = x :: rest
    /\ p x = true /\ forallb (fun y => negb (p y)) (firstn i l) = true.
Proof.
  revert i; induction l as [|x l IH]; intros i; cbn [findIndex]; [discriminate|].
  destruct (p x) eqn:Ex.
  - intros [= <-]. exists x, l. now repeat split.
  - destruct (findIndex p l) as [j|] eqn:Ej; [|discriminate].
    intros [= <-]. destruct (IH j eq_refl) as [y [rest (Hl & Hs & Hy & Hf)]].
    exists y, rest. cbn [firstn skipn forallb app]. rewrite Ex, Hf.
    repeat split; try assumption. now rewrite <- Hl.
Qed.

Lemma findIndex_None {A} (p : A -> bool) (l : list A) :
  findIndex p l = None -> forallb (fun y => negb (p y)) l = true.
Proof.
  induction l as [|x l IH]; cbn [findIndex forallb]; [reflexivity|].
  destruct (p x); [discriminate|].
  destruct (findIndex p l); [discriminate|]. intros _. now rewrite IH.
Qed.

Lemma join_app (sep : string) (l1 l2 : list string) :
  l2 <> [] ->
  join sep (l1 ++ l2) = concatMap (fun l => l ++ sep) l1 ++ join sep l2.
Proof.
  intros H2. induction l1 as [|x l1 IH]; [reflexivity|].
  cbn [app concatMap fold_right].
  destruct (l1 ++ l2)%list as [|y r] eqn:E.
  - apply app_eq_nil in E as [_ E]. contradiction.
  - change (join sep (x :: y :: r)) with (x ++ sep ++ join sep (y :: r)).
    rewrite IH. now rewrite ?append_assoc.
Qed.

Lemma endsLine_line (l t : string) :
  endsLine t = true -> endsLine (l ++ nl ++ t) = true.
Proof.
  intros Ht. induction l as [|c l IHl].
  - unfold nl, chr. cbn [String.append endsLine]. now destruct t.
  - cbn [String.append endsLine]. destruct (l ++ nl ++ t) eqn:E; [|exact IHl].
    destruct l; discriminate.
Qed.

Lemma endsLine_unlines (ls : list string) : endsLine (unlines ls) = true.
Proof.
  induction ls as [|l ls IH]; [reflexivity|].
  rewrite SchemaFacts.unlines_cons. now apply endsLine_line.
Qed.

Lemma endsLine_tail (c : ascii) (s : string) :
  endsLine (String c s) = true -> endsLine s = true.
Proof. cbn [endsLine]. now destruct s. Qed.

Lemma endsLine_hasChar (c : ascii) (s : string) :
  endsLine (String c s) = true -> hasChar 10 (String c s) = true.
Proof.
  revert c; induction s as [|x s IH]; intros c.
  - cbn. intros ->. reflexivity.
  - intros H. cbn [hasChar]. change (endsLine (String c (String x s)))
      with (endsLine (String x s)) in H.
    rewrite (IH x H) at 1. apply orb_true_r.
Qed.

(** Before a header that follows whole lines without the mark, no header
    starts. *)
Lemma headerCountIn_lines (a y : string) :
  endsLine a = true -> includes a headerMark = false ->
  headerCountIn a y = 0%nat.
Proof.
  induction a as [|c a IH]; [reflexivity|]. intros He Hi.
  rewrite includes_cons in Hi. apply orb_false_iff in Hi as [Hs Hi].
  cbn [headerCountIn]. rewrite (IH (endsLine_tail _ _ He) Hi).
  destruct (isSome (configAt (String c a ++ y))) eqn:E; [|reflexivity].
  exfalso. apply configAt_mark in E as [r E].
  apply append_eq_append in E as [l [[E1 E2] | [E1 E2]]].
  - rewrite E1, startsWith_append in Hs. discriminate.
  - apply endsLine_hasChar in He. apply (f_equal (hasChar 10)) in E1.
    rewrite hasChar_append, He in E1. discriminate.
Qed.

Lemma headerCount_after_blank (b : string) :
  includes b headerMark = false -> headerCount (nl ++ nl ++ b) = 0%nat.
Proof.
  intros H. apply headerCount_no_mark.
  unfold nl, chr. cbn [String.append]. rewrite !includes_cons, H. reflexivity.
Qed.

(** *** [addModelConfig] *)

Lemma search_config_includes (sql : string) (m : Match) :
  search configAt sql = Some m -> includes sql headerMark = true.
Proof.
  intros H. apply search_config_inv in H as [body (_ & _ & _ & -> & _)].
  unfold headerText. rewrite ?append_assoc. apply includes_append.
Qed.

Lemma headerCount_replaced (pre b0 post : string) (materializedAs : string)
    (tags : list string) :
  b0 <> EmptyString -> hasChar 125 b0 = false ->
  headerCountIn pre (headerText b0 ++ post) = 0%nat ->
  braceFree materializedAs tags = true ->
  headerCount (pre ++ headerText b0 ++ post) = 1%nat ->
  headerCount (pre ++ configLineOf materializedAs tags ++ post) = 1%nat.
Proof.
  intros Hb0 Hc0 Hpre Hfree Hone.
  destruct (braceFree_options _ _ Hfree) as [H1 H2].
  pose proof (optionsText_nonempty materializedAs tags) as Hne.
  rewrite !headerCount_append, Hpre in Hone.
  pose proof (headerCountIn_header_pos b0 post Hb0 Hc0) as Hpos.
  rewrite configLineOf_header, !headerCount_append.
  rewrite (headerCountIn_transfer pre b0 _ post post) by assumption.
  rewrite headerCountIn_header by assumption. lia.
Qed.

Lemma headerCount_inserted (a b : string) (materializedAs : string) (tags : list string) :
  endsLine a = true -> includes a headerMark = false -> includes b headerMark = false ->
  braceFree materializedAs tags = true ->
  headerCount (a ++ configLineOf materializedAs tags ++ nl ++ nl ++ b) = 1%nat.
Proof.
  intros Ha Hia Hib Hfree.
  destruct (braceFree_options _ _ Hfree) as [H1 H2].
  pose proof (optionsText_nonempty materializedAs tags) as Hne.
  rewrite configLineOf_header.
  rewrite (headerCount_append a), (headerCount_append (headerText _)).
  rewrite headerCountIn_lines by assumption.
  rewrite headerCountIn_header by assumption.
  now rewrite headerCount_after_blank.
Qed.

Lemma addModelConfig_unfold (sql materializedAs : string) (tags : list string) :
  addModelConfig sql materializedAs tags
  = if includes sql headerMark
    then replace configAt sql (configLineOf materializedAs tags)
    else match findIndex substantive (split "010" sql) with
         | None => configLineOf materializedAs tags ++ nl ++ nl ++ sql
         | Some i =>
             join nl (splice2 i (configLineOf materializedAs tags) EmptyString
                        (split "010" sql))
         end.
Proof. reflexivity. Qed.

(** C4, as the code has it.  When the text holds a configuration header
    (the mark, one or more characters other than a closing brace, and the
    closing text), the first one is replaced by the expansion of the new
    header and the text around it is kept: with options free of [$] the
    new header stands there as it is, and with options free of braces too a
    text with one header gives a text with one header.  When the text holds
    the mark but no header, it comes back unchanged.  When the text does
    not hold the mark, the new header and an empty line are put in front of
    the first line that is neither blank nor a comment, or in front of the
    whole text when there is no such line, and with options free of braces
    the output holds one header. *)
Theorem addModelConfig_header (sql materializedAs : string) (tags : list string) :
  let configLine := configLineOf materializedAs tags in
  let out := addModelConfig sql materializedAs tags in
  let lines := split "010" sql in
  (forall m,
     search configAt sql = Some m ->
     sql = m_pre m ++ m_text m ++ m_post m
     /\ out = m_pre m
              ++ getSubstitution (m_text m) (m_pre m) (m_post m) [] configLine
              ++ m_post m
     /\ (dollarFree materializedAs tags = true ->
         out = m_pre m ++ configLine ++ m_post m
         /\ (braceFree materializedAs tags = true ->
             headerCount sql = 1%nat -> headerCount out = 1%nat)))
  /\ (includes sql headerMark = true -> search configAt sql = None -> out = sql)
  /\ (includes sql headerMark = false ->
      (forall i,
         findIndex substantive lines = Some i ->
         out = join nl (firstn i lines ++ configLine :: EmptyString :: skipn i lines)
         /\ (exists line rest, skipn i lines = line :: rest /\ substantive line = true)
         /\ forallb (fun l => negb (substantive l)) (firstn i lines) = true)
      /\ (findIndex substantive lines = None ->
          out = configLine ++ nl ++ nl ++ sql
          /\ forallb (fun l => negb (substantive l)) lines = true)
      /\ (braceFree materializedAs tags = true -> headerCount out = 1%nat)).
Proof.
  intros configLine out lines. split; [|split].
  - intros m Hs. pose proof (search_config_includes _ _ Hs) as Hi.
    destruct (search_config_inv _ _ Hs) as [body (Hb & Hc & Hm & Hsql & Hpre)].
    assert (out = m_pre m
                  ++ getSubstitution (m_text m) (m_pre m) (m_post m) [] configLine
                  ++ m_post m) as Hout.
    { unfold out. rewrite addModelConfig_unfold, Hi. unfold replace. rewrite Hs.
      rewrite Hm. reflexivity. }
    split; [|split; [exact Hout|]].
    + rewrite Hm. exact Hsql.
    + intros Hd. rewrite Hout.
      rewrite getSubstitution_plain by now apply dollarFree_header.
      split; [reflexivity|]. intros Hf Hone. rewrite Hsql in Hone.
      now apply (headerCount_replaced _ body).
  - intros Hi Hs. unfold out. rewrite addModelConfig_unfold, Hi. unfold replace. now rewrite Hs.
  - intros Hi.
    assert (sql = join nl lines) as Hsql
      by (unfold lines, nl, chr; now rewrite join_split).
    split; [|split].
    + intros i Hf. destruct (findIndex_spec _ _ _ Hf) as [x [rest (Hl & Hsk & Hx & Hfirst)]].
      split; [|split].
      * unfold out. rewrite addModelConfig_unfold, Hi. fold lines. now rewrite Hf.
      * now exists x, rest.
      * exact Hfirst.
    + intros Hf. split.
      * unfold out. rewrite addModelConfig_unfold, Hi. fold lines. now rewrite Hf.
      * now apply findIndex_None.
    + intros Hfree. unfold out. rewrite addModelConfig_unfold, Hi. fold lines.
      destruct (findIndex substantive lines) as [i|] eqn:Hf.
      * destruct (findIndex_spec _ _ _ Hf) as [x [rest (Hl & Hsk & Hx & Hfirst)]].
        unfold splice2. rewrite Hsk.
        rewrite join_app by discriminate.
        change (join nl (configLineOf materializedAs tags :: "" :: x :: rest))
          with (configLineOf materializedAs tags ++ nl ++ "" ++ nl ++ join nl (x :: rest)).
        change ("" ++ nl ++ join nl (x :: rest)) with (nl ++ join nl (x :: rest)).
        rewrite Hl, join_app in Hsql by discriminate.
        rewrite Hsql in Hi. apply includes_append_false in Hi as [Hi1 Hi2].
        apply headerCount_inserted; try assumption.
        apply endsLine_unlines.
      * apply (headerCount_inserted EmptyString); try assumption; reflexivity.
Qed.

Lemma addModelConfig_header_witness :
  addModelConfig ("{{ config(materialized='view') }}" ++ nl ++ nl ++ "select * from users")
    "table" []
  = "{{ config(materialized='table') }}" ++ nl ++ nl ++ "select * from users"
  /\ headerCount
       (addModelConfig
          ("{{ config(materialized='view') }}" ++ nl ++ nl ++ "select * from users")
          "table" [])
     = 1%nat.
Proof.
  pose (sql := "{{ config(materialized='view') }}" ++ nl ++ nl ++ "select * from users").
  pose (m := mkMatch "" "{{ config(materialized='view') }}" []
               (nl ++ nl ++ "select * from users")).
  destruct (addModelConfig_header sql "table" []) as [H _].
  destruct (H m eq_refl) as (_ & _ & H2).
  destruct (H2 eq_refl) as [H3 H4].
  split; [exact H3 | apply H4; reflexivity].
Defined.

(** C4 fails as stated: of two headers only the first is replaced, and a
    text with the mark but no header comes back as it is. *)
Lemma second_header_stays :
  let header := "{{ config(materialized='view') }}" in
  includes (header ++ nl ++ header) headerMark = true
  /\ addModelConfig (header ++ nl ++ header) "table" []
     = "{{ config(materialized='table') }}" ++ nl ++ header
  /\ headerCount (addModelConfig (header ++ nl ++ header) "table" []) = 2%nat
  /\ includes "{{ config() }}" headerMark = true
  /\ addModelConfig "{{ config() }}" "table" [] = "{{ config() }}"
  /\ headerCount (addModelConfig "{{ config() }}" "table" []) = 0%nat.
Proof. repeat split; reflexivity. Qed.

End HeaderFacts.

(** ** The reader on any text: what it builds, and writing it back *)

Module ReaderFacts.
Import JS Spec Notions StrFacts Dbt.

Lemma trimStart_idem (s : string) : trimStart (trimStart s) = trimStart s.
Proof.
  induction s as [|c r IH]; [reflexivity|]. cbn [trimStart].
  destruct (isWhiteSpace c) eqn:E; [exact IH|]. cbn [trimStart]. now rewrite E.
Qed.

Lemma trimEnd_idem (s : string) : trimEnd (trimEnd s) = trimEnd s.
Proof.
  induction s as [|c r IH]; [reflexivity|]. cbn [trimEnd].
  destruct (trimEnd r) as [|d r'] eqn:E.
  - destruct (isWhiteSpace c) eqn:Ec; [reflexivity|]. cbn [trimEnd]. now rewrite Ec.
  - cbn [trimEnd]. cbn [trimEnd] in IH. now rewrite IH.
Qed.

Lemma trimStart_trimEnd (s : string) :
  trimStart s = s -> trimStart (trimEnd s) = trimEnd s.
Proof.
  destruct s as [|c r]; [reflexivity|]. cbn [trimStart].
  destruct (isWhiteSpace c) eqn:Ec.
  - intros H. pose proof (length_trimStart r) as L. rewrite H in L. cbn in L. lia.
  - intros _. cbn [trimEnd]. destruct (trimEnd r); [rewrite Ec|]; cbn [trimStart];
      now rewrite Ec.
Qed.

Lemma trim_idem (s : string) : trim (trim s) = trim s.
Proof.
  unfold trim. rewrite trimStart_trimEnd by apply trimStart_idem. apply trimEnd_idem.
Qed.

(** The parts of a split hold neither the separator nor any code unit the
    whole does not hold. *)
Lemma split_parts (n : nat) (c : ascii) (s part : string) :
  In part (split c s) ->
  (Ascii.eqb c (ascii_of_nat n) = true \/ hasChar n s = false) -> (n < 256)%nat ->
  hasChar n part = false.
Proof.
  intros Hin Hn Hlt. revert part Hin Hn.
  induction s as [|a r IH]; intros part Hin Hn.
  - cbn in Hin. destruct Hin as [<- | []]. reflexivity.
  - cbn [split] in Hin. destruct (Ascii.eqb a c) eqn:Eac.
    + destruct Hin as [<- | Hin]; [reflexivity|]. apply IH; [exact Hin|].
      destruct Hn as [Hn | Hn]; [now left|]. right. cbn [hasChar] in Hn.
      now apply orb_false_iff in Hn.
    + assert (isChar n a = false /\ (Ascii.eqb c (ascii_of_nat n) = true
                                      \/ hasChar n r = false)) as [Ha Hr].
      { destruct Hn as [Hn | Hn].
        - split; [|now left]. apply Ascii.eqb_eq in Hn. subst c.
          rewrite <- (eqb_isChar n a Hlt). exact Eac.
        - cbn [hasChar] in Hn. apply orb_false_iff in Hn as [Ha Hr]. split; [exact Ha|].
          now right. }
      destruct (split c r) as [|h t] eqn:Es.
      * destruct Hin as [<- | []]. cbn [hasChar]. now rewrite Ha.
      * destruct Hin as [<- | Hin].
        -- cbn [hasChar]. rewrite Ha. cbn [orb]. apply IH; [now left | exact Hr].
        -- apply IH; [now right | exact Hr].
Qed.

Lemma nameField_clean (trimmed n : string) :
  hasChar 10 trimmed = false -> nameField trimmed = Some n -> cleanName n = true.
Proof.
  unfold nameField. intros Hnl H.
  destruct (nth_error (split ":" trimmed) 1) as [x|] eqn:E; [|discriminate].
  cbn [option_map] in H. apply some_eq in H. subst n.
  apply nth_error_In in E. unfold cleanName, isTrimmed, noNewline, noColon.
  rewrite trim_idem, String.eqb_refl.
  rewrite (SchemaFacts.hasChar_trim 10), (SchemaFacts.hasChar_trim 58); [reflexivity| |].
  - apply (split_parts 58 ":" trimmed); [exact E | now left | lia].
  - apply (split_parts 10 ":" trimmed); [exact E | now right | lia].
Qed.

Lemma hasChar_skipn (n k : nat) (l : list string) :
  forallb (fun e => negb (hasChar n e)) l = true ->
  forallb (fun e => negb (hasChar n e)) (skipn k l) = true.
Proof.
  revert l; induction k as [|k IH]; intros l H; [now rewrite skipn_O|].
  destruct l as [|x l]; [reflexivity|]. cbn [forallb] in H.
  apply andb_true_iff in H as [_ H]. cbn [skipn]. now apply IH.
Qed.

Lemma descriptionField_clean (trimmed : string) :
  hasChar 10 trimmed = false -> cleanText (descriptionField trimmed) = true.
Proof.
  intros Hnl. unfold cleanText, descriptionField, isTrimmed, noNewline.
  rewrite trim_idem, String.eqb_refl. rewrite SchemaFacts.hasChar_trim; [reflexivity|].
  apply hasChar_join; [reflexivity|]. apply hasChar_skipn.
  apply forallb_forall. intros x Hx.
  now rewrite (split_parts 10 ":" trimmed x Hx) by (try lia; now right).
Qed.

Lemma split_lines_free (content line : string) :
  In line (split "010" content) -> hasChar 10 line = false.
Proof. intros H. apply (split_parts 10 "010" content); [exact H | now left | lia]. Qed.

Lemma openShape_new (n : string) :
  cleanName n = true -> openShape (mkModel n None None None) = true.
Proof.
  intros H. unfold openShape. cbn [sm_name sm_description sm_tests sm_columns].
  now rewrite H.
Qed.

Lemma openShape_withDescription (m : SchemaModel) (d : string) :
  openShape m = true -> cleanText d = true -> openShape (withDescription m d) = true.
Proof.
  unfold openShape, withDescription. cbn [sm_name sm_description sm_tests sm_columns].
  intros H Hd. apply andb_true_iff in H as [H H2]. apply andb_true_iff in H as [H H1].
  apply andb_true_iff in H as [H H0].
  cbn [cleanDescription]. now rewrite H, Hd, H1, H2.
Qed.

Lemma readerInvariant_pushCurrent (st : ParseState) :
  readerInvariant st = true -> inColumns st = false ->
  forallb openShape (pushCurrent st) = true.
Proof.
  unfold readerInvariant, pushCurrent. intros H Hi. rewrite Hi in H. cbn [orb] in H.
  repeat (apply andb_true_iff in H as [H ?]).
  destruct (currentColumns st); [|discriminate].
  destruct (currentModel st) as [m|]; [|exact H].
  cbn. rewrite forallb_app, H. cbn. now rewrite andb_true_r.
Qed.

(** Every line keeps the invariant of the loop. *)
Lemma parseLine_invariant (st st' : ParseState) (line : string) :
  hasChar 10 line = false -> readerInvariant st = true ->
  parseLine st line = Some st' -> readerInvariant st' = true.
Proof.
  intros Hnl Hinv. pose proof (SchemaFacts.hasChar_trim 10 line Hnl) as Ht.
  unfold parseLine.
  destruct (startsWith (trim line) "- name:" && negb (inColumns st)) eqn:E1.
  { apply andb_true_iff in E1 as [_ Hi]. apply negb_true_iff in Hi.
    destruct (nameField (trim line)) as [n|] eqn:En; [|discriminate].
    intros H. injection H as <-. unfold readerInvariant.
    cbn [result currentModel currentColumns inColumns forallb].
    rewrite readerInvariant_pushCurrent by assumption.
    rewrite openShape_new by exact (nameField_clean _ _ Ht En). reflexivity. }
  pose proof Hinv as Hinv0. unfold readerInvariant in Hinv.
  apply andb_true_iff in Hinv as [Hinv Hsc]. apply andb_true_iff in Hinv as [Hinv Hcols].
  apply andb_true_iff in Hinv as [Hres Hcur].
  destruct (startsWith (trim line) "description:" && isSome (currentModel st)) eqn:E2.
  { intros H. injection H as <-. unfold readerInvariant.
    cbn [result currentModel currentColumns inColumns]. rewrite Hres, Hcols, Hsc.
    destruct (currentModel st) as [m|]; [|reflexivity]. cbn [option_map].
    rewrite openShape_withDescription; [reflexivity | exact Hcur |].
    now apply descriptionField_clean. }
  destruct (String.eqb (trim line) "columns:").
  { intros H. injection H as <-. unfold readerInvariant.
    cbn [result currentModel currentColumns inColumns]. now rewrite Hres, Hcols, Hcur. }
  destruct (startsWith (trim line) "- name:" && inColumns st) eqn:E4.
  { apply andb_true_iff in E4 as [_ Hi].
    destruct (nameField (trim line)) as [n|] eqn:En; [|discriminate].
    intros H. injection H as <-. unfold readerInvariant.
    cbn [result currentModel currentColumns inColumns]. rewrite Hres, Hcur, Hi.
    rewrite forallb_app, Hcols. cbn. unfold columnRead. cbn.
    now rewrite (nameField_clean _ _ Ht En). }
  intros H. injection H as <-. exact Hinv0.
Qed.

Lemma parseLines_invariant (lines : list string) (st st' : ParseState) :
  (forall l, In l lines -> hasChar 10 l = false) -> readerInvariant st = true ->
  parseLines st lines = Some st' -> readerInvariant st' = true.
Proof.
  revert st; induction lines as [|l ls IH]; intros st Hl Hinv; cbn [parseLines].
  - now intros [= <-].
  - destruct (parseLine st l) as [st1|] eqn:E; [|discriminate].
    apply IH; [intros x Hx; apply Hl; now right|].
    apply (parseLine_invariant st st1 l); [apply Hl; now left | exact Hinv | exact E].
Qed.

Lemma openShape_clean (m : SchemaModel) :
  openShape m = true ->
  cleanModel m = true /\ readShape m = true /\ isSome (sm_columns m) = false.
Proof.
  unfold openShape, cleanModel, readShape. intros H.
  apply andb_true_iff in H as [H H2]. apply andb_true_iff in H as [H H1].
  apply andb_true_iff in H as [H H0].
  destruct (sm_tests m); [discriminate|]. destruct (sm_columns m); [discriminate|].
  cbn [nonEmptyList forallb isSome negb andb]. now rewrite H, H0.
Qed.

Lemma columnRead_clean (cs : list SchemaColumn) :
  forallb columnRead cs = true ->
  forallb cleanColumn cs = true /\ forallb nameOnly cs = true.
Proof.
  induction cs as [|c cs IH]; [now split|]. cbn [forallb]. intros H.
  apply andb_true_iff in H as [Hc Hcs]. destruct (IH Hcs) as [-> ->].
  unfold columnRead in Hc. apply andb_true_iff in Hc as [Hn Ho]. rewrite Ho.
  unfold cleanColumn. rewrite Hn. unfold nameOnly in Ho.
  apply andb_true_iff in Ho as [Hd Hts].
  destruct (sc_description c); [discriminate|]. destruct (sc_tests c); [discriminate|].
  now split.
Qed.

Lemma columnsLast_snoc (ms : list SchemaModel) (m : SchemaModel) :
  forallb (fun x => negb (isSome (sm_columns x))) ms = true ->
  columnsLast (ms ++ [m]) = true.
Proof.
  induction ms as [|x ms IH]; [reflexivity|]. cbn [forallb]. intros H.
  apply andb_true_iff in H as [Hx Hms]. cbn [app columnsLast]. rewrite (IH Hms), Hx.
  now destruct (ms ++ [m])%list.
Qed.

Lemma columnsLast_none (ms : list SchemaModel) :
  forallb (fun x => negb (isSome (sm_columns x))) ms = true -> columnsLast ms = true.
Proof.
  induction ms as [|x ms IH]; [reflexivity|]. cbn [forallb columnsLast]. intros H.
  apply andb_true_iff in H as [Hx Hms]. rewrite (IH Hms), Hx. now destruct ms.
Qed.

(** What the invariant gives for the models the reader answers. *)
Lemma readerInvariant_answer (st : ParseState) :
  readerInvariant st = true ->
  forallb readShape (pushCurrent st) = true
  /\ columnsLast (pushCurrent st) = true
  /\ forallb cleanModel (pushCurrent st) = true.
Proof.
  unfold readerInvariant. intros H.
  apply andb_true_iff in H as [H _]. apply andb_true_iff in H as [H Hcols].
  apply andb_true_iff in H as [Hres Hcur].
  assert (forallb readShape (result st) = true
          /\ forallb (fun x => negb (isSome (sm_columns x))) (result st) = true
          /\ forallb cleanModel (result st) = true) as (R1 & R2 & R3).
  { clear Hcur Hcols. induction (result st) as [|x l IH]; [now repeat split|].
    cbn [forallb] in *. apply andb_true_iff in Hres as [Hx Hl].
    destruct (IH Hl) as (-> & -> & ->).
    destruct (openShape_clean x Hx) as (-> & -> & ->). now repeat split. }
  unfold pushCurrent. destruct (currentModel st) as [m|].
  - destruct (openShape_clean m Hcur) as (C1 & C2 & C3).
    destruct (columnRead_clean _ Hcols) as [K1 K2].
    rewrite !forallb_app, R1, R3. cbn [forallb andb].
    split; [|split]; [| now apply columnsLast_snoc |].
    + destruct (0 <? List.length (currentColumns st))%nat eqn:E; [|now rewrite C2].
      unfold readShape in *. unfold withColumns. cbn [sm_tests sm_columns].
      apply andb_true_iff in C2 as [-> _]. now rewrite E, K2.
    + destruct (0 <? List.length (currentColumns st))%nat eqn:E; [|now rewrite C1].
      unfold cleanModel in *. unfold withColumns.
      cbn [sm_name sm_description sm_tests sm_columns nonEmptyList].
      apply andb_true_iff in C1 as [C1 _]. now rewrite C1, K1.
  - split; [exact R1|]. split; [now apply columnsLast_none | exact R3].
Qed.

Lemma parseBasicYaml_state (content : string) :
  exists st, parseLines initialState (split "010" content) = Some st
             /\ parseBasicYaml content = mkSchema 2 (pushCurrent st)
             /\ readerInvariant st = true.
Proof.
  destruct (DbtFacts.parseLines_defined (split "010" content) initialState) as [st Hst].
  exists st. split; [exact Hst|]. split.
  - unfold parseBasicYaml, parseBasicYamlTry. now rewrite Hst.
  - apply (parseLines_invariant (split "010" content) initialState st);
      [apply split_lines_free | reflexivity | exact Hst].
Qed.

(** X1: on every text the reader answers models without tests whose columns
    are names only; only the last model answered has columns, and never an
    empty list of them; names are trimmed, on one line and without colon,
    descriptions trimmed and on one line. *)
Theorem reader_answer_shape (content : string) :
  let ms := models (parseBasicYaml content) in
  version (parseBasicYaml content) = 2%N
  /\ forallb readShape ms = true
  /\ columnsLast ms = true
  /\ forallb cleanModel ms = true.
Proof.
  destruct (parseBasicYaml_state content) as (st & _ & -> & Hinv).
  cbn [models version]. split; [reflexivity|]. now apply readerInvariant_answer.
Qed.

Lemma readable_of_shape (ms : list SchemaModel) :
  forallb cleanModel ms = true -> columnsLast ms = true -> readable ms = true.
Proof.
  induction ms as [|m ms IH]; [reflexivity|]. cbn [forallb columnsLast readable].
  intros H1 H2. apply andb_true_iff in H1 as [Hm Hms].
  apply andb_true_iff in H2 as [Hc Hl]. rewrite Hm, (IH Hms Hl).
  destruct ms; [reflexivity|]. unfold noColumns.
  destruct (sm_columns m); [discriminate | reflexivity].
Qed.

Lemma fullyRead_of_shape (m : SchemaModel) : readShape m = true -> fullyRead m = true.
Proof.
  unfold readShape, fullyRead. intros H. apply andb_true_iff in H as [Ht Hc].
  destruct (sm_tests m); [discriminate|]. cbn.
  destruct (sm_columns m) as [cs|]; [|reflexivity]. cbn.
  apply andb_true_iff in Hc as [_ Hc].
  apply (forallb_weaken nameOnly); [|exact Hc]. intros c H. unfold nameOnly in H.
  unfold bareColumn. apply andb_true_iff in H as [Hd Hts].
  destruct (sc_description c); [discriminate|]. now destruct (sc_tests c).
Qed.

Lemma yamlModel_reread (ms : list SchemaModel) :
  forallb readShape ms = true -> map yamlModel (map readModel ms) = map yamlModel ms.
Proof.
  induction ms as [|m ms IH]; [reflexivity|]. cbn [forallb map]. intros H.
  apply andb_true_iff in H as [Hm Hms].
  rewrite SchemaFacts.yamlModel_fullyRead by now apply fullyRead_of_shape.
  now rewrite IH.
Qed.

(** X2: writing what the reader answered is a normal form: read again and
    written again, the text is the same, whatever the first text was. *)
Theorem rewrite_is_stable (content : string) :
  let normal := generateBasicYaml (parseBasicYaml content) in
  generateBasicYaml (parseBasicYaml normal) = normal.
Proof.
  destruct (parseBasicYaml_state content) as (st & _ & E & Hinv). cbv zeta. rewrite E.
  destruct (readerInvariant_answer st Hinv) as (H1 & H2 & H3).
  rewrite SchemaFacts.parse_generate by now apply readable_of_shape.
  apply SchemaFacts.generateBasicYaml_ext. now apply yamlModel_reread.
Qed.

End ReaderFacts.

(** ** The upsert: which entries it touches, and doing it twice *)

Module UpsertFacts.
Import JS Spec Notions StrFacts FsFacts Dbt ReaderFacts.

Lemma updateEntry_name (description : string) (columns : list DbtColumn)
    (tests : list string) (entry : SchemaModel) :
  sm_name (updateEntry description columns tests entry) = sm_name entry.
Proof.
  unfold updateEntry. destruct (truthy description), (0 <? List.length tests)%nat,
    (0 <? List.length columns)%nat; reflexivity.
Qed.

Lemma updateFound_spec (n : string) (f : SchemaModel -> SchemaModel)
    (ms : list SchemaModel) :
  match updateFound n f ms with
  | Some ms' =>
      exists l1 m l2, ms = (l1 ++ m :: l2)%list /\ sm_name m = n
                      /\ ~ In n (map sm_name l1) /\ ms' = (l1 ++ f m :: l2)%list
  | None => ~ In n (map sm_name ms)
  end.
Proof.
  induction ms as [|x ms IH]; cbn [updateFound]; [now intros []|].
  destruct (String.eqb (sm_name x) n) eqn:E.
  - apply String.eqb_eq in E. exists [], x, ms. now repeat split.
  - apply String.eqb_neq in E. destruct (updateFound n f ms) as [ms'|]; cbn [option_map].
    + destruct IH as (l1 & m & l2 & -> & Hm & Hl & ->).
      exists (x :: l1), m, l2. repeat split; [exact Hm|].
      cbn [map]. intros [H | H]; [now apply E | now apply Hl].
    + cbn [map]. intros [H | H]; [now apply E | now apply IH].
Qed.

Lemma updateFound_None (n : string) (f : SchemaModel -> SchemaModel)
    (ms : list SchemaModel) :
  ~ In n (map sm_name ms) -> updateFound n f ms = None.
Proof.
  intros H. pose proof (updateFound_spec n f ms) as S.
  destruct (updateFound n f ms) as [ms'|]; [|reflexivity].
  destruct S as (l1 & m & l2 & -> & Hm & _ & _). exfalso. apply H.
  rewrite map_app, in_app_iff. right. now left.
Qed.

(** X3: the upsert keeps the version, every entry it does not name, and the
    order; of the entries of the name given only the first is changed, and
    a name that is not there is added once, at the end: the names listed
    are the old ones, followed by the new one if it was missing. *)
Theorem upsert_touches_one_entry (schemaData : SchemaData) (modelName description : string)
    (columns : list DbtColumn) (tests : list string) :
  let f := updateEntry description columns tests in
  let after := upsertModel schemaData modelName description columns tests in
  let names := map sm_name (models schemaData) in
  version after = version schemaData
  /\ map sm_name (models after)
     = (if existsb (String.eqb modelName) names then names else names ++ [modelName])%list
  /\ ((exists l1 m l2,
         models schemaData = (l1 ++ m :: l2)%list /\ sm_name m = modelName
         /\ ~ In modelName (map sm_name l1)
         /\ models after = (l1 ++ f m :: l2)%list)
      \/ (~ In modelName names
          /\ models after
             = (models schemaData ++ [f (mkModel modelName None None None)])%list)).
Proof.
  cbv zeta. unfold upsertModel. cbn [version models]. split; [reflexivity|].
  pose proof (updateFound_spec modelName (updateEntry description columns tests)
                (models schemaData)) as S.
  destruct (updateFound _ _ _) as [ms'|].
  - destruct S as (l1 & m & l2 & E & Hm & Hl & ->). split.
    + assert (existsb (String.eqb modelName) (map sm_name (models schemaData)) = true)
        as ->.
      { apply DagsterFacts.existsb_eqb. rewrite E, map_app, in_app_iff. right. now left. }
      rewrite E, !map_app. cbn [map]. now rewrite updateEntry_name.
    + left. now exists l1, m, l2.
  - split.
    + assert (existsb (String.eqb modelName) (map sm_name (models schemaData)) = false)
        as ->.
      { destruct (existsb _ _) eqn:X; [|reflexivity].
        apply DagsterFacts.existsb_eqb in X. contradiction. }
      rewrite map_app. cbn [map]. now rewrite updateEntry_name.
    + right. now split.
Qed.

(** *** Doing it twice *)

Lemma updateEntry_plain (d : string) (m : SchemaModel) :
  updateEntry d [] [] m = if truthy d then withDescription m d else m.
Proof. reflexivity. Qed.

Lemma updateEntry_twice (description : string) (columns : list DbtColumn)
    (tests : list string) (m : SchemaModel) :
  updateEntry description columns tests (updateEntry description columns tests m)
  = updateEntry description columns tests m.
Proof.
  unfold updateEntry. destruct (truthy description), (0 <? List.length tests)%nat,
    (0 <? List.length columns)%nat; reflexivity.
Qed.

Lemma upsertModel_twice (schemaData : SchemaData) (n description : string)
    (columns : list DbtColumn) (tests : list string) :
  upsertModel (upsertModel schemaData n description columns tests)
    n description columns tests
  = upsertModel schemaData n description columns tests.
Proof.
  unfold upsertModel. cbn [version models]. f_equal.
  pose proof (updateFound_spec n (updateEntry description columns tests)
                (models schemaData)) as S.
  destruct (updateFound n _ (models schemaData)) as [ms'|] eqn:E.
  - destruct S as (l1 & m & l2 & _ & Hm & Hl & ->).
    rewrite SchemaFacts.updateFound_In; [now rewrite updateEntry_twice | | exact Hl].
    now rewrite updateEntry_name.
  - rewrite SchemaFacts.updateFound_In; [now rewrite updateEntry_twice | | exact S].
    apply updateEntry_name.
Qed.

Lemma updateFound_map (n : string) (f g : SchemaModel -> SchemaModel)
    (ms : list SchemaModel) :
  (forall m, sm_name (g m) = sm_name m) -> (forall m, f (g m) = g (f m)) ->
  updateFound n f (map g ms) = option_map (map g) (updateFound n f ms).
Proof.
  intros Hn Hc. induction ms as [|x ms IH]; [reflexivity|]. cbn [map updateFound].
  rewrite Hn. destruct (String.eqb (sm_name x) n).
  - cbn [option_map map]. now rewrite Hc.
  - rewrite IH. now destruct (updateFound n f ms).
Qed.

Lemma sayModel_updateEntry (d : string) (m : SchemaModel) :
  updateEntry d [] [] (sayModel m) = sayModel (updateEntry d [] [] m).
Proof.
  rewrite !updateEntry_plain. destruct (truthy d) eqn:E; [|reflexivity].
  unfold sayModel, withDescription. cbn [sm_name sm_description sm_tests sm_columns said].
  now rewrite E.
Qed.

Lemma upsertModel_say (v : N) (ms : list SchemaModel) (n d : string) :
  upsertModel (mkSchema v (map sayModel ms)) n d [] []
  = mkSchema v (map sayModel (models (upsertModel (mkSchema v ms) n d [] []))).
Proof.
  unfold upsertModel. cbn [version models]. f_equal.
  rewrite (updateFound_map n _ sayModel); [|reflexivity | apply sayModel_updateEntry].
  destruct (updateFound n _ ms); cbn [option_map]; [reflexivity|].
  rewrite map_app. cbn [map]. now rewrite <- sayModel_updateEntry.
Qed.

Lemma readColumn_nameOnly (cs : list SchemaColumn) :
  forallb nameOnly cs = true -> map readColumn cs = cs.
Proof.
  induction cs as [|c cs IH]; [reflexivity|]. cbn [forallb map]. intros H.
  apply andb_true_iff in H as [Hc Hcs]. rewrite (IH Hcs). f_equal.
  unfold nameOnly in Hc. apply andb_true_iff in Hc as [Hd Ht].
  destruct c as [n [x|] [y|]]; try discriminate. reflexivity.
Qed.

Lemma readModel_say (m : SchemaModel) : readShape m = true -> readModel m = sayModel m.
Proof.
  intros H. unfold readModel, sayModel.
  rewrite SchemaFacts.readDescription_undocumented
    by (apply SchemaFacts.fullyRead_undocumented; now apply fullyRead_of_shape).
  unfold readShape in H. apply andb_true_iff in H as [Ht Hc].
  destruct (sm_tests m); [discriminate|]. f_equal. unfold readColumns.
  destruct (sm_columns m) as [cs|]; [|reflexivity]. cbn [nonEmptyList].
  apply andb_true_iff in Hc as [Hl Hn]. rewrite <- (readColumn_nameOnly cs Hn) at 2.
  destruct cs; [discriminate | reflexivity].
Qed.

Lemma columnsLast_ext (ms ms' : list SchemaModel) :
  map (fun m => isSome (sm_columns m)) ms = map (fun m => isSome (sm_columns m)) ms' ->
  columnsLast ms = columnsLast ms'.
Proof.
  revert ms'; induction ms as [|x ms IH]; intros [|y ms'] H; try discriminate;
    [reflexivity|].
  cbn [map] in H. injection H as Hx Hms. cbn [columnsLast]. rewrite (IH ms' Hms), Hx.
  destruct ms, ms'; try discriminate; reflexivity.
Qed.

Lemma updateEntry_shape (d : string) (m : SchemaModel) :
  cleanText d = true ->
  sm_columns (updateEntry d [] [] m) = sm_columns m
  /\ (cleanModel m = true -> cleanModel (updateEntry d [] [] m) = true)
  /\ (readShape m = true -> readShape (updateEntry d [] [] m) = true).
Proof.
  intros Hd. rewrite updateEntry_plain. destruct (truthy d); [|now repeat split].
  split; [reflexivity|]. split; [|trivial].
  unfold cleanModel, withDescription. cbn [sm_name sm_description sm_tests sm_columns].
  intros H. apply andb_true_iff in H as [H H3]. apply andb_true_iff in H as [H H2].
  apply andb_true_iff in H as [H H1]. cbn [cleanDescription]. now rewrite H, Hd, H2, H3.
Qed.

Lemma forallb_app_inv {A} (p : A -> bool) (l1 l2 : list A) :
  forallb p (l1 ++ l2) = true -> forallb p l1 = true /\ forallb p l2 = true.
Proof. rewrite forallb_app. apply andb_true_iff. Qed.

(** The upsert of a description keeps the shape of what the reader
    answered. *)
Lemma upsertModel_shape (ms : list SchemaModel) (n d : string) :
  cleanText d = true ->
  In n (map sm_name ms) \/ (cleanName n = true /\ withoutColumns ms = true) ->
  forallb cleanModel ms = true -> forallb readShape ms = true -> columnsLast ms = true ->
  let ms1 := models (upsertModel (mkSchema 2 ms) n d [] []) in
  forallb cleanModel ms1 = true /\ forallb readShape ms1 = true /\ columnsLast ms1 = true.
Proof.
  intros Hd Hn H1 H2 H3. cbv zeta. unfold upsertModel. cbn [version models].
  pose proof (updateFound_spec n (updateEntry d [] []) ms) as S.
  destruct (updateFound n _ ms) as [ms'|].
  - destruct S as (l1 & m & l2 & -> & _ & _ & ->).
    destruct (updateEntry_shape d m Hd) as (Ec & Em & Er).
    apply forallb_app_inv in H1 as [A1 A2]. apply forallb_app_inv in H2 as [B1 B2].
    cbn [forallb] in A2, B2. apply andb_true_iff in A2 as [A2 A3].
    apply andb_true_iff in B2 as [B2 B3].
    rewrite !forallb_app. cbn [forallb]. rewrite A1, A3, B1, B3, (Em A2), (Er B2).
    repeat split. rewrite <- H3. apply columnsLast_ext. rewrite !map_app. cbn [map].
    now rewrite Ec.
  - destruct Hn as [Hn | [Hn Hw]]; [contradiction|].
    destruct (updateEntry_shape d (mkModel n None None None) Hd) as (Ec & Em & Er).
    rewrite !forallb_app. cbn [forallb]. rewrite H1, H2, Em, Er; try reflexivity.
    + repeat split. now apply columnsLast_snoc.
    + unfold cleanModel. cbn. now rewrite Hn.
Qed.

Lemma yamlModel_sayModel (ms : list SchemaModel) :
  map yamlModel (map sayModel ms) = map yamlModel ms.
Proof.
  rewrite map_map. apply map_ext. intros m. unfold sayModel.
  rewrite SchemaFacts.yamlModel_said. now destruct m.
Qed.

Lemma updateSchemaContent_again (ms : list SchemaModel) (n d : string) :
  cleanText d = true ->
  In n (map sm_name ms) \/ (cleanName n = true /\ withoutColumns ms = true) ->
  forallb cleanModel ms = true -> forallb readShape ms = true -> columnsLast ms = true ->
  let written := generateBasicYaml (upsertModel (mkSchema 2 ms) n d [] []) in
  updateSchemaContent (Some written) n d [] [] = written.
Proof.
  intros Hd Hn H1 H2 H3. cbv zeta.
  destruct (upsertModel_shape ms n d Hd Hn H1 H2 H3) as (S1 & S2 & S3).
  unfold updateSchemaContent.
  assert (upsertModel (mkSchema 2 ms) n d [] []
          = mkSchema 2 (models (upsertModel (mkSchema 2 ms) n d [] []))) as E
    by reflexivity.
  rewrite E at 1. rewrite SchemaFacts.parse_generate by now apply readable_of_shape.
  rewrite (map_ext_in readModel sayModel).
  2:{ intros m Hm. apply readModel_say. rewrite forallb_forall in S2. now apply S2. }
  rewrite upsertModel_say. rewrite <- E, upsertModel_twice.
  rewrite E at 2. apply SchemaFacts.generateBasicYaml_ext. apply yamlModel_sayModel.
Qed.

(** X4: an upsert that gives a description only (clean, or empty), for a
    model the reader finds in the file, or for a new model with a clean
    name when the reader finds no model with columns, can be done again:
    the second call writes the text the first call wrote, whatever the file
    held before and also when there was no file. *)
Theorem updateSchema_again (cfg : DbtConfig) (modelDir modelName description : string)
    (fs : Fs.t) :
  let found :=
    models match Fs.readFile (schemaPath cfg modelDir) fs with
           | Some existingContent => parseBasicYaml existingContent
           | None => emptySchema
           end in
  let once := updateSchema cfg modelDir modelName description [] [] fs in
  let twice := updateSchema cfg modelDir modelName description [] [] once in
  cleanText description = true ->
  In modelName (map sm_name found)
  \/ (cleanName modelName = true /\ withoutColumns found = true) ->
  Fs.files twice = Fs.files once
  /\ Fs.readFile (schemaPath cfg modelDir) twice
     = Fs.readFile (schemaPath cfg modelDir) once.
Proof.
  cbv zeta. intros Hd Hn.
  assert (Fs.files (updateSchema cfg modelDir modelName description [] []
                      (updateSchema cfg modelDir modelName description [] [] fs))
          = Fs.files (updateSchema cfg modelDir modelName description [] [] fs)) as E.
  { unfold updateSchema at 1. rewrite SchemaFacts.readFile_updateSchema.
    unfold updateSchema, Fs.writeFile. cbn [Fs.files].
    destruct (Fs.readFile (schemaPath cfg modelDir) fs) as [c|].
    - change (updateSchemaContent (Some c) modelName description [] [])
        with (generateBasicYaml (upsertModel (parseBasicYaml c) modelName description [] [])).
      destruct (parseBasicYaml_state c) as (st & _ & Ec & Hinv). rewrite Ec in *.
      cbn [models] in Hn.
      destruct (readerInvariant_answer st Hinv) as (S1 & S2 & S3).
      rewrite updateSchemaContent_again by assumption. apply insert_insert_eq.
    - change (updateSchemaContent None modelName description [] [])
        with (generateBasicYaml (upsertModel (mkSchema 2 []) modelName description [] [])).
      cbn [models emptySchema] in Hn.
      rewrite updateSchemaContent_again by (try assumption; reflexivity).
      apply insert_insert_eq. }
  split; [exact E|]. unfold Fs.readFile. now rewrite E.
Qed.

Lemma updateSchema_again_witness :
  let fs := Fs.writeFile (schemaPath exampleConfig "staging")
              ("models:" ++ nl ++ "- name:   stg_users  " ++ nl ++ "  tests: [unique]" ++ nl
               ++ "  description:" ++ nl) Fs.empty in
  let once := updateSchema exampleConfig "staging" "stg_users" "Users: staged" [] [] fs in
  Fs.files (updateSchema exampleConfig "staging" "stg_users" "Users: staged" [] [] once)
  = Fs.files once.
Proof.
  apply (updateSchema_again exampleConfig "staging" "stg_users" "Users: staged").
  - reflexivity.
  - left. vm_compute. now left.
Defined.

End UpsertFacts.

(** ** The reader on a written document with [columns] blocks anywhere *)

Module ColumnsFacts.
Import JS Spec Notions StrFacts FsFacts Dbt SchemaFacts ReaderFacts UpsertFacts.

(** The description the reader keeps after the columns [cs], from [d0]. *)
Lemma parseLine_absorbedName (st : ParseState) (n : string) :
  cleanName n = true -> inColumns st = true ->
  parseLine st ("  - name: " ++ n)
  = Some (mkState (result st) (currentModel st)
            (currentColumns st ++ [mkColumn n None None]) true).
Proof.
  intros Hn Hin. apply cleanName_inv in Hn as (Ht & _ & Hc).
  unfold parseLine. rewrite trim_modelNameLine by exact Ht.
  rewrite startsWith_nameLine, Hin, nameField_nameLine by assumption.
  assert (startsWith (trimmedNameLine n) "description:" = false) as ->
    by (unfold trimmedNameLine; now destruct (truthy n)).
  assert (String.eqb (trimmedNameLine n) "columns:" = false) as ->
    by (unfold trimmedNameLine; now destruct (truthy n)).
  reflexivity.
Qed.

(** A written model read in column scope. *)
Lemma parseLines_absorb (m : SchemaModel) (n0 : string) (d0 : option string)
    (st : ParseState) :
  cleanModel m = true -> inColumns st = true ->
  currentModel st = Some (mkModel n0 d0 None None) ->
  parseLines st (modelLines m)
  = Some (mkState (result st)
            (Some (mkModel n0
                     (fold_left
                        (fun acc c => match said (sc_description c) with
                                      | Some d => Some d
                                      | None => acc
                                      end) (asColumns m) d0)
                     None None))
            (currentColumns st ++ map readColumn (asColumns m)) true).
Proof.
  intros Hm Hin Hcur. unfold cleanModel in Hm.
  apply andb_true_iff in Hm as [Hm Hcs]. apply andb_true_iff in Hm as [Hm Hts].
  apply andb_true_iff in Hm as [Hn Hd].
  unfold modelLines, asColumns. cbn [parseLines fold_left map sc_description].
  rewrite parseLine_absorbedName by assumption.
  rewrite parseLines_app.
  set (d1 := match said (sm_description m) with Some d => Some d | None => d0 end).
  assert (parseLines
            (mkState (result st) (currentModel st)
               (currentColumns st ++ [mkColumn (sm_name m) None None]) true)
            (descriptionLines "    " (sm_description m))
          = Some (mkState (result st) (Some (mkModel n0 d1 None None))
                    (currentColumns st ++ [mkColumn (sm_name m) None None]) true)) as ->.
  { unfold descriptionLines, d1. destruct (said (sm_description m)) as [d|] eqn:E.
    - destruct (cleanDescription_said _ _ Hd E) as [Ht _]. cbn [parseLines].
      rewrite (parseLine_description _ (mkModel n0 d0 None None) _ d) by
        (try assumption; now rewrite <- trimEnd_descriptionLine).
      reflexivity.
    - cbn [parseLines]. now rewrite Hcur. }
  rewrite parseLines_app, parseLines_tests by (assumption || reflexivity).
  rewrite parseLines_app. unfold readColumn at 1. cbn [sc_name].
  destruct (nonEmptyList (sm_columns m)) as [|c cs] eqn:E.
  - cbn [columnsLines app parseLines map fold_left]. now rewrite parseLine_ignored.
  - unfold columnsLines. cbn [parseLines]. rewrite parseLine_columnsHeader.
    rewrite (parseLines_columns (c :: cs) n0 d1) by (assumption || reflexivity).
    cbn [parseLines result currentModel currentColumns].
    rewrite parseLine_ignored by reflexivity. now rewrite <- app_assoc.
Qed.

Lemma parseLines_absorb_all (rest : list SchemaModel) (n0 : string) (d0 : option string)
    (st : ParseState) :
  forallb cleanModel rest = true -> inColumns st = true ->
  currentModel st = Some (mkModel n0 d0 None None) ->
  parseLines st (flat_map modelLines rest)
  = Some (mkState (result st)
            (Some (mkModel n0
                     (fold_left
                        (fun acc c => match said (sc_description c) with
                                      | Some d => Some d
                                      | None => acc
                                      end) (flat_map asColumns rest) d0)
                     None None))
            (currentColumns st ++ map readColumn (flat_map asColumns rest)) true).
Proof.
  revert d0 st; induction rest as [|m rest IH]; intros d0 st Hc Hin Hcur.
  - cbn. rewrite app_nil_r, <- Hcur, <- Hin. now destruct st.
  - cbn [forallb] in Hc. apply andb_true_iff in Hc as [Hm Hrest].
    cbn [flat_map]. rewrite parseLines_app, (parseLines_absorb m n0 d0) by assumption.
    erewrite IH; [|exact Hrest|reflexivity|reflexivity].
    cbn [result currentColumns]. now rewrite fold_left_app, map_app, <- app_assoc.
Qed.

Lemma parseLines_reread (ms : list SchemaModel) (st : ParseState) :
  forallb cleanModel ms = true -> inColumns st = false ->
  exists st', parseLines st (flat_map modelLines ms) = Some st'
              /\ pushCurrent st' = (pushCurrent st ++ reread ms)%list.
Proof.
  revert st; induction ms as [|m ms IH]; intros st Hc Hin.
  - exists st. split; [reflexivity | now rewrite app_nil_r].
  - cbn [forallb] in Hc. apply andb_true_iff in Hc as [Hm Hms].
    cbn [flat_map reread]. rewrite parseLines_app, parseLines_model by assumption.
    destruct (noColumns m) eqn:En; cbn [negb].
    + pose proof (pushCurrent_model st m) as Hp. rewrite En in Hp. cbn [negb] in Hp.
      edestruct IH as [st' [-> Hst']]; [exact Hms | reflexivity |].
      exists st'. split; [reflexivity|]. now rewrite Hst', Hp, <- app_assoc.
    + rewrite (parseLines_absorb_all ms (sm_name m) (readDescription m))
        by (assumption || reflexivity).
      eexists. split; [reflexivity|]. unfold pushCurrent at 1.
      cbn [currentModel result currentColumns]. f_equal.
      unfold noColumns in En. unfold readModel, readDescription, readColumns, withColumns.
      cbn [sm_name sm_description sm_columns nonEmptyList].
      destruct (nonEmptyList (sm_columns m)) as [|c cs]; [discriminate|].
      rewrite fold_left_app. cbn [map app]. now rewrite map_app.
Qed.

(** On a written text the [try] block of the reader ends without exception. *)
Lemma parseBasicYamlTry_written (ms : list SchemaModel) :
  forallb cleanModel ms = true ->
  parseBasicYamlTry (generateBasicYaml (mkSchema 2 ms)) = Some (mkSchema 2 (reread ms)).
Proof.
  intros Hc. unfold parseBasicYamlTry.
  rewrite generateBasicYaml_lines, split_unlines.
  - unfold documentLines.
    change (("version: 2" :: "" :: "models:" :: flat_map modelLines ms) ++ [""])%list
      with (["version: 2"; ""; "models:"] ++ flat_map modelLines ms ++ [""])%list.
    rewrite parseLines_app.
    change (parseLines initialState ["version: 2"; ""; "models:"]) with (Some initialState).
    cbv beta iota. rewrite parseLines_app.
    destruct (parseLines_reread ms initialState Hc eq_refl) as [st' [-> Hst']].
    cbn [parseLines]. rewrite parseLine_ignored by reflexivity.
    now rewrite Hst'.
  - unfold documentLines. cbn [forallb]. change (noNewline "version: 2") with true.
    change (noNewline "") with true. change (noNewline "models:") with true.
    cbn [andb]. apply forallb_flat_map. intros m Hm.
    apply noNewline_modelLines. rewrite forallb_forall in Hc. now apply Hc.
Qed.

(** X5: what the reader makes of the text the writer wrote for any list of
    models of the written dialect: the models up to the first one with
    columns are read one by one (names, descriptions, column names), and
    that model takes in every model after it, whose names and column names
    become its columns and whose descriptions overwrite its own. *)
Theorem read_of_written (ms : list SchemaModel) :
  forallb cleanModel ms = true ->
  parseBasicYaml (generateBasicYaml (mkSchema 2 ms)) = mkSchema 2 (reread ms).
Proof.
  intros Hc. unfold parseBasicYaml. now rewrite parseBasicYamlTry_written.
Qed.

Lemma read_of_written_witness :
  parseBasicYaml
    (generateBasicYaml
       (mkSchema 2 [mkModel "a" (Some "first") None (Some [mkColumn "id" None None]);
                    mkModel "b" (Some "second") (Some ["unique"]) None]))
  = mkSchema 2 [mkModel "a" (Some "second") None
                  (Some [mkColumn "id" None None; mkColumn "b" None None])].
Proof.
  apply (read_of_written
           [mkModel "a" (Some "first") None (Some [mkColumn "id" None None]);
            mkModel "b" (Some "second") (Some ["unique"]) None]).
  reflexivity.
Defined.

(** *** A new model after a model with columns *)

Lemma said_idem (o : option string) : said (said o) = said o.
Proof.
  unfold said. destruct o as [d|]; [|reflexivity].
  destruct (truthy d) eqn:E; [now rewrite E | reflexivity].
Qed.

Lemma said_readDescription (m : SchemaModel) : said (readDescription m) = readDescription m.
Proof.
  unfold readDescription. generalize (said_idem (sm_description m)).
  generalize (said (sm_description m)).
  induction (nonEmptyList (sm_columns m)) as [|c cs IH]; intros acc Hacc; [exact Hacc|].
  cbn [fold_left]. apply IH.
  destruct (said (sc_description c)) as [d|] eqn:E; [|exact Hacc].
  rewrite <- E. apply said_idem.
Qed.

Lemma readColumn_idem (cs : list SchemaColumn) :
  map readColumn (map readColumn cs) = map readColumn cs.
Proof. rewrite map_map. now apply map_ext. Qed.

Lemma fold_description_read (cs : list SchemaColumn) (acc : option string) :
  fold_left
    (fun acc c => match said (sc_description c) with Some d => Some d | None => acc end)
    (map readColumn cs) acc = acc.
Proof. revert acc; induction cs as [|c cs IH]; intros acc; [reflexivity | apply IH]. Qed.

Lemma repeat_read (B : string) (k : nat) :
  map readColumn (repeat (mkColumn B None None) k) = repeat (mkColumn B None None) k.
Proof. induction k as [|k IH]; [reflexivity|]. cbn [repeat map]. now rewrite IH. Qed.

Lemma readModel_withColumns (m : SchemaModel) (cs : list SchemaColumn) :
  cs <> [] ->
  readModel (withColumns m cs)
  = mkModel (sm_name m)
      (fold_left
         (fun acc c => match said (sc_description c) with Some d => Some d | None => acc end)
         cs (said (sm_description m)))
      None (Some (map readColumn cs)).
Proof.
  intros H. unfold readModel, withColumns, readDescription, readColumns.
  cbn [sm_name sm_description sm_columns nonEmptyList]. now destruct cs.
Qed.

Lemma grown_columns (A : SchemaModel) (B : string) (k : nat) :
  ((map readColumn (nonEmptyList (sm_columns A)) ++ repeat (mkColumn B None None) k)
   ++ [mkColumn B None None])%list
  = map readColumn (nonEmptyList (sm_columns A) ++ repeat (mkColumn B None None) (S k)).
Proof.
  rewrite map_app, repeat_read, <- app_assoc. f_equal.
  change [mkColumn B None None] with (repeat (mkColumn B None None) 1).
  rewrite <- repeat_app. f_equal. lia.
Qed.

(** The file with [grown A B k] and the model [B], read again. *)
Lemma reread_grown (A : SchemaModel) (B : string) (k : nat) :
  noColumns A = false ->
  reread [grown A B k; mkModel B None None None] = [grown A B (S k)].
Proof.
  intros HA.
  assert (noColumns (grown A B k) = false) as HG.
  { unfold noColumns, grown in *. cbn [sm_columns nonEmptyList].
    now destruct (nonEmptyList (sm_columns A)). }
  cbn [reread]. rewrite HG. f_equal.
  cbn [flat_map asColumns sm_name sm_description sm_columns nonEmptyList app].
  unfold grown at 2. cbn [sm_columns nonEmptyList].
  rewrite readModel_withColumns.
  2:{ intros H. now apply app_eq_nil in H as [_ H]. }
  unfold grown at 1 2. cbn [sm_name sm_description].
  rewrite grown_columns, fold_description_read, readColumn_idem, said_readDescription.
  unfold grown. now rewrite map_app, repeat_read.
Qed.

Lemma cleanModel_grown (A : SchemaModel) (B : string) (k : nat) :
  cleanModel A = true -> cleanName B = true -> cleanModel (grown A B k) = true.
Proof.
  intros HA HB. pose proof HA as HA0. unfold cleanModel in HA.
  apply andb_true_iff in HA as [HA Hcs]. apply andb_true_iff in HA as [HA _].
  apply andb_true_iff in HA as [Hn _].
  unfold cleanModel, grown. cbn [sm_name sm_description sm_tests sm_columns nonEmptyList].
  rewrite Hn. cbn [forallb andb]. rewrite forallb_app.
  assert (cleanDescription (readDescription A) = true) as ->.
  { pose proof (parseBasicYamlTry_written [A]) as R. cbn [forallb] in R. rewrite HA0 in R.
    specialize (R eq_refl).
    destruct (ReaderFacts.parseBasicYaml_state (generateBasicYaml (mkSchema 2 [A])))
      as (st & _ & E & Hinv).
    destruct (ReaderFacts.readerInvariant_answer st Hinv) as (_ & _ & Hc).
    unfold parseBasicYaml in E. rewrite R in E. injection E as E.
    rewrite <- E in Hc. cbn [reread] in Hc.
    destruct (noColumns A); cbn [forallb] in Hc; apply andb_true_iff in Hc as [Hc _];
      unfold cleanModel, readModel in Hc; cbn [sm_name sm_description] in Hc;
      apply andb_true_iff in Hc as [Hc _]; apply andb_true_iff in Hc as [Hc _];
      apply andb_true_iff in Hc as [_ Hc]; [exact Hc|].
    unfold readDescription, withColumns in Hc. cbn [sm_columns sm_description nonEmptyList]
      in Hc. now rewrite app_nil_r in Hc. }
  cbn [andb]. apply andb_true_iff. split.
  - rewrite forallb_forall in *. intros x Hx. apply in_map_iff in Hx as [c [<- Hc]].
    specialize (Hcs c Hc). unfold cleanColumn in *. cbn [readColumn sc_name sc_description
      sc_tests nonEmptyList forallb cleanDescription].
    apply andb_true_iff in Hcs as [Hcs _]. apply andb_true_iff in Hcs as [-> _].
    reflexivity.
  - induction k as [|k IH]; [reflexivity|]. cbn [repeat forallb]. rewrite IH.
    unfold cleanColumn. cbn. now rewrite HB.
Qed.

(** X6: when the only model [A] of the schema file has columns, a first
    upsert of a new model [B] writes [B] after [A]; at every later upsert
    of [B] the reader takes the entry of [B] for one more column of [A]
    and finds no model [B], so [B] is added again: after [k + 1] calls the
    file lists [A] with [k] columns named [B], and [B]. *)
Theorem upsert_after_columns (A : SchemaModel) (B : string) (k : nat) :
  cleanModel A = true -> noColumns A = false -> cleanName B = true -> sm_name A <> B ->
  let again := fun content => updateSchemaContent (Some content) B "" [] [] in
  let content := Nat.iter (S k) again (generateBasicYaml (mkSchema 2 [A])) in
  content = generateBasicYaml (mkSchema 2 [grown A B k; mkModel B None None None])
  /\ parseBasicYaml content = mkSchema 2 [grown A B (S k)].
Proof.
  intros HA Hcols HB Hne. cbv zeta.
  assert (forall j,
            updateSchemaContent
              (Some (generateBasicYaml
                       (mkSchema 2 [grown A B j; mkModel B None None None]))) B "" [] []
            = generateBasicYaml
                (mkSchema 2 [grown A B (S j); mkModel B None None None])) as Step.
  { intros j. unfold updateSchemaContent, parseBasicYaml.
    rewrite parseBasicYamlTry_written.
    - rewrite reread_grown by exact Hcols. unfold upsertModel.
      cbn [version models updateFound grown sm_name].
      apply String.eqb_neq in Hne. now rewrite Hne.
    - cbn [forallb]. rewrite cleanModel_grown by assumption.
      unfold cleanModel. cbn. now rewrite HB. }
  assert (Nat.iter (S k) (fun content => updateSchemaContent (Some content) B "" [] [])
            (generateBasicYaml (mkSchema 2 [A]))
          = generateBasicYaml (mkSchema 2 [grown A B k; mkModel B None None None])) as E.
  { induction k as [|k IH].
    - cbn [Nat.iter nat_rect]. unfold updateSchemaContent, parseBasicYaml.
      rewrite parseBasicYamlTry_written by (cbn [forallb]; now rewrite HA).
      cbn [reread]. rewrite Hcols. unfold upsertModel.
      cbn [version models updateFound readModel withColumns sm_name].
      apply String.eqb_neq in Hne. rewrite Hne. cbn [option_map app].
      apply generateBasicYaml_ext. cbn [map]. f_equal.
      unfold grown, readModel, readDescription, readColumns, withColumns.
      cbn [sm_name sm_description sm_columns nonEmptyList flat_map repeat].
      rewrite !app_nil_r. unfold noColumns in Hcols.
      now destruct (nonEmptyList (sm_columns A)).
    - change (Nat.iter (S (S k)) ?f ?x) with (f (Nat.iter (S k) f x)).
      rewrite IH. apply Step. }
  split; [exact E|]. rewrite E. unfold parseBasicYaml.
  rewrite parseBasicYamlTry_written.
  - now rewrite reread_grown.
  - cbn [forallb]. rewrite cleanModel_grown by assumption.
    unfold cleanModel. cbn. now rewrite HB.
Qed.

Lemma upsert_after_columns_witness :
  let A := mkModel "stg_users" (Some "Users") None (Some [mkColumn "id" None None]) in
  let again := fun content => updateSchemaContent (Some content) "stg_orders" "" [] [] in
  parseBasicYaml (again (again (again (generateBasicYaml (mkSchema 2 [A])))))
  = mkSchema 2 [mkModel "stg_users" (Some "Users") None
                  (Some [mkColumn "id" None None; mkColumn "stg_orders" None None;
                         mkColumn "stg_orders" None None;
                         mkColumn "stg_orders" None None])].
Proof.
  apply (upsert_after_columns
           (mkModel "stg_users" (Some "Users") None (Some [mkColumn "id" None None]))
           "stg_orders" 2); [reflexivity | reflexivity | reflexivity | discriminate].
Defined.

End ColumnsFacts.

(** ** The configuration header: the last call decides *)

Module ConfigFacts.
Import JS Spec Notions StrFacts FsFacts Dbt HeaderFacts.

(** The first match is where no header starts before. *)
Lemma search_config_at (pre y : string) (gs : list string) (post : string) :
  headerCountIn pre y = 0%nat -> configAt y = Some (gs, post) ->
  search configAt (pre ++ y)
  = Some (mkMatch pre (substring 0 (String.length y - String.length post) y) gs post).
Proof.
  intros Hn Hy. induction pre as [|c r IH].
  - cbn [String.append]. destruct y as [|a y']; cbn [search]; now rewrite Hy.
  - cbn [headerCountIn] in Hn.
    destruct (configAt (String c r ++ y)) eqn:E; [cbn in Hn; lia|].
    cbn [isSome Nat.add] in Hn.
    change (String c r ++ y) with (String c (r ++ y)) in *. cbn [search]. rewrite E.
    now rewrite IH.
Qed.

Lemma replace_header (pre body post template : string) :
  body <> EmptyString -> hasChar 125 body = false ->
  headerCountIn pre (headerText body ++ post) = 0%nat ->
  hasChar 36 template = false ->
  replace configAt (pre ++ headerText body ++ post) template = pre ++ template ++ post.
Proof.
  intros Hb Hc Hn Ht. unfold replace.
  rewrite (search_config_at pre _ [] post Hn) by now apply configAt_header.
  cbn [m_pre m_text m_groups m_post]. now rewrite getSubstitution_plain.
Qed.

Lemma includes_header (pre body post : string) :
  includes (pre ++ headerText body ++ post) headerMark = true.
Proof.
  unfold headerText. rewrite !append_assoc. apply includes_append.
Qed.

(** Where the header is, or goes: the text before and after it, the same
    for every header built. *)
Lemma addModelConfig_place (sql : string) :
  (search configAt sql = None /\ includes sql headerMark = true)
  \/ exists pre post,
       (forall materializedAs tags,
          dollarFree materializedAs tags = true ->
          addModelConfig sql materializedAs tags
          = pre ++ configLineOf materializedAs tags ++ post)
       /\ forall body, body <> EmptyString -> hasChar 125 body = false ->
                       headerCountIn pre (headerText body ++ post) = 0%nat.
Proof.
  destruct (includes sql headerMark) eqn:Hi.
  - destruct (search configAt sql) as [m|] eqn:Hs; [|now left]. right.
    destruct (search_config_inv _ _ Hs) as [b0 (Hb & Hc & Hm & Hsql & Hpre)].
    exists (m_pre m), (m_post m). split.
    + intros materializedAs tags Hd. rewrite addModelConfig_unfold, Hi.
      unfold replace. rewrite Hs.
      now rewrite getSubstitution_plain by now apply dollarFree_header.
    + intros body Hb1 Hc1.
      now apply (headerCountIn_transfer (m_pre m) b0 body (m_post m) (m_post m)).
  - right. destruct (findIndex substantive (split "010" sql)) as [i|] eqn:Hf.
    + destruct (findIndex_spec _ _ _ Hf) as [x [rest (Hl & Hsk & Hx & Hfirst)]].
      assert (sql = join nl (split "010" sql)) as Hsql
        by (unfold nl, chr; now rewrite join_split).
      rewrite Hl, join_app in Hsql by discriminate.
      exists (concatMap (fun l => l ++ nl) (firstn i (split "010" sql))),
             (nl ++ nl ++ join nl (x :: rest)).
      split.
      * intros materializedAs tags _. rewrite addModelConfig_unfold, Hi, Hf.
        unfold splice2. rewrite Hsk, join_app by discriminate. reflexivity.
      * intros body _ _. rewrite Hsql in Hi.
        apply includes_append_false in Hi as [Hi1 _].
        apply headerCountIn_lines; [apply endsLine_unlines | exact Hi1].
    + exists EmptyString, (nl ++ nl ++ sql). split.
      * intros materializedAs tags _. now rewrite addModelConfig_unfold, Hi, Hf.
      * reflexivity.
Qed.

(** X7: of two calls of [addModelConfig] in a row the last one decides: for
    option values without [$], the first ones also without braces, the
    result is the one of the second call alone on the first text; so a
    call repeated with the same values changes nothing. *)
Theorem addModelConfig_last_wins (sql m1 m2 : string) (t1 t2 : list string) :
  braceFree m1 t1 = true -> dollarFree m1 t1 = true -> dollarFree m2 t2 = true ->
  addModelConfig (addModelConfig sql m1 t1) m2 t2 = addModelConfig sql m2 t2
  /\ addModelConfig (addModelConfig sql m1 t1) m1 t1 = addModelConfig sql m1 t1.
Proof.
  intros Hb1 Hd1 Hd2.
  assert (forall m t, dollarFree m t = true ->
            addModelConfig (addModelConfig sql m1 t1) m t = addModelConfig sql m t) as H.
  { intros m t Hd. destruct (addModelConfig_place sql) as [[Hs Hi] | (pre & post & Ho & Hn)].
    - assert (forall a b, addModelConfig sql a b = sql) as E.
      { intros a b. rewrite addModelConfig_unfold, Hi. unfold replace. now rewrite Hs. }
      now rewrite !E.
    - rewrite (Ho m1 t1 Hd1), (Ho m t Hd).
      destruct (braceFree_options m1 t1 Hb1) as [_ Hc].
      rewrite (configLineOf_header m1 t1), addModelConfig_unfold, includes_header.
      apply replace_header.
      + apply optionsText_nonempty.
      + exact Hc.
      + apply Hn; [apply optionsText_nonempty | exact Hc].
      + now apply dollarFree_header. }
  split; now apply H.
Qed.

Lemma addModelConfig_last_wins_witness :
  addModelConfig (addModelConfig ("-- staged" ++ nl ++ "select 1") "table" ["daily"])
    "view" []
  = addModelConfig ("-- staged" ++ nl ++ "select 1") "view" [].
Proof.
  apply (addModelConfig_last_wins ("-- staged" ++ nl ++ "select 1") "table" "view"
           ["daily"] []); reflexivity.
Defined.

(** *** The model file [generateModel] writes *)

Lemma generateDefaultSql_text (modelName : string) :
  generateDefaultSql modelName
  = defaultModelText modelName (headerText "materialized='view'").
Proof.
  unfold generateDefaultSql, defaultModelText, headerText, headerMark.
  now rewrite !append_assoc.
Qed.

Lemma addModelConfig_default (modelName materializedAs : string) (tags : list string) :
  hasChar 123 modelName = false -> dollarFree materializedAs tags = true ->
  addModelConfig (generateDefaultSql modelName) materializedAs tags
  = defaultModelText modelName (configLineOf materializedAs tags).
Proof.
  intros Hn Hd. rewrite generateDefaultSql_text. unfold defaultModelText.
  rewrite addModelConfig_unfold, includes_header.
  apply replace_header; [discriminate | reflexivity | | now apply dollarFree_header].
  apply headerCountIn_no_brace. rewrite !hasChar_append, Hn. reflexivity.
Qed.

Lemma orString_said (o : option string) (d : string) :
  said o = None -> orString o d = d.
Proof. unfold said, orString. destruct o as [x|]; [|reflexivity]. now destruct (truthy x). Qed.

Lemma existsDir_mkdir (p q : string) (fs : Fs.t) :
  Fs.existsDir q (Fs.mkdir p fs) = (String.eqb p q || Fs.existsDir q fs).
Proof.
  unfold Fs.existsDir, Fs.mkdir. cbn [Fs.dirs].
  destruct (String.eqb p q) eqn:E.
  - apply String.eqb_eq in E. subst q. apply bool_decide_eq_true_2.
    apply elem_of_union_l. now apply elem_of_singleton.
  - apply String.eqb_neq in E. cbn [orb]. apply bool_decide_ext.
    rewrite elem_of_union, elem_of_singleton. split; [intros [H | H]|]; auto; congruence.
Qed.

(** X8: for a name that is one path segment, where [Fs.join] is
    [path.join], and when the file operations succeed, [generateModel] asks
    for two writes, the model file and then the schema file of the
    directory the name selects, and leaves every other file as it was; the
    directory exists afterwards, and when it existed before no directory
    is made. *)
Theorem generateModel_frame (cfg : DbtConfig) (options : DbtModelOptions) (fs : Fs.t) :
  let name := opt_name options in
  let modelPath := Fs.join (modelsDir cfg) (getModelDirectory name) in
  let sqlFile := Fs.join modelPath (name ++ ".sql") in
  let schemaFile := schemaPath cfg (getModelDirectory name) in
  oneSegment name = true ->
  exists fs',
    generateModel cfg options fs = Resolved fs'
    /\ map fst (Fs.written fs') = schemaFile :: sqlFile :: map fst (Fs.written fs)
    /\ (forall p, p <> sqlFile -> p <> schemaFile -> Fs.readFile p fs' = Fs.readFile p fs)
    /\ Fs.existsDir modelPath fs' = true
    /\ (Fs.existsDir modelPath fs = true -> Fs.dirs fs' = Fs.dirs fs).
Proof.
  cbv zeta. intros _. unfold generateModel. eexists. split; [reflexivity|].
  set (fs1 := if Fs.existsDir _ fs then fs else Fs.mkdir _ fs).
  assert (Fs.files fs1 = Fs.files fs /\ Fs.written fs1 = Fs.written fs) as [Ef Ew]
    by (unfold fs1; now destruct (Fs.existsDir _ fs)).
  split; [|split; [|split]].
  - unfold updateSchema, Fs.writeFile. cbn [Fs.written map fst]. now rewrite Ew.
  - intros p H1 H2. unfold updateSchema.
    rewrite readFile_other by (intros E; now apply H2).
    rewrite readFile_other by (intros E; now apply H1).
    unfold Fs.readFile. now rewrite Ef.
  - unfold updateSchema, Fs.writeFile, Fs.existsDir. cbn [Fs.dirs]. unfold fs1.
    destruct (Fs.existsDir _ fs) eqn:E; [exact E|].
    change (bool_decide (?d ∈ Fs.dirs (Fs.mkdir ?p fs))) with (Fs.existsDir d (Fs.mkdir p fs)).
    now rewrite existsDir_mkdir, String.eqb_refl.
  - intros Hd. unfold updateSchema, Fs.writeFile. cbn [Fs.dirs]. unfold fs1.
    now rewrite Hd.
Qed.

Lemma generateModel_frame_witness :
  let fs := Fs.writeFile "proj/models/marts/fct_sales.sql" "select 2" Fs.empty in
  exists fs',
    generateModel exampleConfig
      (mkOptions "stg_users" (Some "select 1") None None None None None) fs
    = Resolved fs'
    /\ map fst (Fs.written fs')
       = ["proj/models/staging/schema.yml"; "proj/models/staging/stg_users.sql";
          "proj/models/marts/fct_sales.sql"]
    /\ Fs.readFile "proj/models/marts/fct_sales.sql" fs' = Some "select 2"
    /\ Fs.existsDir "proj/models/staging" fs' = true.
Proof.
  intros fs.
  destruct (generateModel_frame exampleConfig
              (mkOptions "stg_users" (Some "select 1") None None None None None) fs
              eq_refl) as (fs' & H1 & H2 & H3 & H4 & _).
  exists fs'. split; [exact H1|]. split; [exact H2|]. split; [|exact H4].
  rewrite H3; [reflexivity | discriminate | discriminate].
Defined.

(** X9: when no SQL is given (or an empty one) and the name holds no opening
    brace, the model file [generateModel] writes is the default text with
    its header line replaced by the header of the options asked for ([$]
    apart); with the default options it is the default text itself. *)
Theorem generateModel_default_text (cfg : DbtConfig) (options : DbtModelOptions)
    (fs : Fs.t) :
  let name := opt_name options in
  let materializedAs := orElse (opt_materializedAs options) "view" in
  let tags := orElse (opt_tags options) [] in
  let sqlFile :=
    Fs.join (Fs.join (modelsDir cfg) (getModelDirectory name)) (name ++ ".sql") in
  said (opt_sql options) = None -> hasChar 123 name = false ->
  dollarFree materializedAs tags = true ->
  (exists fs',
     generateModel cfg options fs = Resolved fs'
     /\ Fs.readFile sqlFile fs'
        = Some (defaultModelText name (configLineOf materializedAs tags)))
  /\ defaultModelText name (configLineOf "view" []) = generateDefaultSql name.
Proof.
  cbv zeta. intros Hs Hn Hd. split.
  - unfold generateModel. eexists. split; [reflexivity|].
    unfold updateSchema.
    rewrite readFile_other by (intros E; symmetry in E; revert E;
                               apply SchemaFacts.sql_path_not_schema).
    rewrite readFile_writeFile, orString_said by exact Hs.
    now rewrite addModelConfig_default.
  - now rewrite generateDefaultSql_text.
Qed.

Lemma generateModel_default_text_witness :
  exists fs',
    generateModel exampleConfig
      (mkOptions "fct_sales" None None (Some "table") None None (Some ["daily"])) Fs.empty
    = Resolved fs'
    /\ Fs.readFile "proj/models/marts/fct_sales.sql" fs'
       = Some (defaultModelText "fct_sales"
                 "{{ config(materialized='table', tags=['daily']) }}").
Proof.
  apply (generateModel_default_text exampleConfig
           (mkOptions "fct_sales" None None (Some "table") None None (Some ["daily"]))
           Fs.empty); reflexivity.
Defined.

End ConfigFacts.

(** ** The index file and the files of an asset *)

Module AssetFacts.
Import JS Spec Notions StrFacts FsFacts Dagster DagsterCode DagsterFacts.

(** *** Paths *)

Lemma join_inj (dir a b : string) : Fs.join dir a = Fs.join dir b -> a = b.
Proof.
  unfold Fs.join. intros H. apply append_inv_head in H. now apply append_inv_head in H.
Qed.

Lemma py_not_init (name : string) :
  name <> "__init__" -> forall dir, Fs.join dir (name ++ ".py") <> Fs.join dir "__init__.py".
Proof.
  intros Hn dir E. apply join_inj in E. apply Hn.
  change "__init__.py" with ("__init__" ++ ".py") in E. now apply append_inv_tail in E.
Qed.

Lemma schedule_not_init (name dir : string) :
  Fs.join dir (name ++ "_schedule.py") <> Fs.join dir "__init__.py".
Proof.
  intros E. apply join_inj in E. apply (f_equal String.length) in E.
  rewrite length_append in E. cbn in E. lia.
Qed.

(** *** What a call of [updateInitFile] leaves *)

Lemma updateInitFile_other (initPath itemName p : string) (fs : Fs.t) :
  p <> initPath -> Fs.readFile p (updateInitFile initPath itemName fs) = Fs.readFile p fs.
Proof.
  intros H. unfold updateInitFile. destruct (updateInitContent _ _); [|reflexivity].
  apply readFile_other. congruence.
Qed.

Lemma updateInitFile_dirs (initPath itemName : string) (fs : Fs.t) :
  Fs.dirs (updateInitFile initPath itemName fs) = Fs.dirs fs.
Proof. unfold updateInitFile. now destruct (updateInitContent _ _). Qed.

Lemma update_none (existing : option string) (itemName : string) :
  updateInitContent existing itemName = None ->
  exists content, existing = Some content /\ includes content (importLine itemName) = true.
Proof.
  unfold updateInitContent. destruct existing as [c|].
  - destruct (includes c (importLine itemName)) eqn:E; [intros _; now exists c|].
    destruct (search allAt _); [destruct (existsb _ _)|]; discriminate.
  - assert (includes "" (importLine itemName) = false) as -> by reflexivity.
    destruct (search allAt _); [destruct (existsb _ _)|]; discriminate.
Qed.

Lemma updateInitFile_includes (initPath itemName : string) (fs : Fs.t) :
  hasChar 93 itemName = false ->
  exists c, Fs.readFile initPath (updateInitFile initPath itemName fs) = Some c
            /\ includes c (importLine itemName) = true.
Proof.
  intros H. unfold updateInitFile.
  destruct (updateInitContent (Fs.readFile initPath fs) itemName) as [c'|] eqn:E.
  - exists c'. split; [apply readFile_writeFile | now apply (update_includes _ _ _ H E)].
  - destruct (update_none _ _ E) as [c [Hc Hi]]. now exists c.
Qed.

Lemma updateInitFile_present (initPath itemName content : string) (fs : Fs.t) :
  Fs.readFile initPath fs = Some content ->
  includes content (importLine itemName) = true ->
  updateInitFile initPath itemName fs = fs.
Proof.
  intros Hr Hi. unfold updateInitFile. now rewrite Hr, (update_present _ _ Hi).
Qed.

Lemma In_filter_truthy (x : string) (l : list string) :
  truthy x = true -> In x l -> In x (List.filter truthy l).
Proof. intros Ht Hx. apply filter_In. now split. Qed.

(** X10: after a call of [updateInitFile] with a name without closing
    bracket the index file exists and holds the import line of the name;
    no other file and no directory is changed.  When the call finds a
    well-formed index without that import line and the name is a plain
    symbol, the name is a member of the exported list afterwards. *)
Theorem updateInitFile_registers (initPath itemName : string) (fs : Fs.t) :
  hasChar 93 itemName = false ->
  let before := match Fs.readFile initPath fs with Some c => c | None => EmptyString end in
  let fs' := updateInitFile initPath itemName fs in
  (exists c, Fs.readFile initPath fs' = Some c /\ includes c (importLine itemName) = true)
  /\ (forall p, p <> initPath -> Fs.readFile p fs' = Fs.readFile p fs)
  /\ Fs.dirs fs' = Fs.dirs fs
  /\ (wellFormedIndex before -> plainSymbol itemName = true ->
      includes before (importLine itemName) = false ->
      exists c, Fs.readFile initPath fs' = Some c /\ In itemName (members c)).
Proof.
  intros H. cbv zeta. split; [now apply updateInitFile_includes|].
  split; [intros p Hp; now apply updateInitFile_other|].
  split; [apply updateInitFile_dirs|].
  intros Hw Hp Hi. rewrite readFile_updateInitFile. eexists. split; [reflexivity|].
  set (before := match Fs.readFile initPath fs with Some c => c | None => "" end) in *.
  destruct (plainSymbol_inv _ Hp) as (Hm & _ & Ht).
  unfold afterUpdate, members. unfold wellFormedIndex in Hw.
  destruct (fileItems before) as [items|] eqn:Ef.
  - destruct Hw as [_ Hplain].
    destruct (in_dec string_dec itemName items) as [Hin | Hnin].
    + destruct (update_listed before itemName items Hi Ef Hin) as [E1 E2].
      rewrite E1, E2. now apply In_filter_truthy.
    + destruct (update_appended before itemName items Hi Ef Hnin Hplain Hm)
        as (pre & post & -> & ->).
      apply In_filter_truthy; [exact Ht|]. apply in_or_app. right. now left.
  - destruct (update_created before itemName Hi Hw Hp) as [E1 E2].
    rewrite E1, E2. now apply In_filter_truthy; [|left].
Qed.

Lemma updateInitFile_registers_witness :
  exists c,
    Fs.readFile "assets/__init__.py"
      (updateInitFile "assets/__init__.py" "orders"
         (Fs.writeFile "assets/__init__.py"
            ("from .users import users" ++ nl ++ nl ++ "__all__ = ['users']" ++ nl)
            Fs.empty))
    = Some c
    /\ In "orders" (members c).
Proof.
  apply (updateInitFile_registers "assets/__init__.py" "orders"); try reflexivity.
  vm_compute. split; [|reflexivity]. repeat constructor. intros [].
Defined.

(** *** The files of an asset *)

Lemma existsDir_made (p : string) (fs : Fs.t) :
  Fs.existsDir p (if Fs.existsDir p fs then fs else Fs.mkdir p fs) = true
  /\ (forall d, d <> p ->
        Fs.existsDir d (if Fs.existsDir p fs then fs else Fs.mkdir p fs)
        = Fs.existsDir d fs)
  /\ Fs.files (if Fs.existsDir p fs then fs else Fs.mkdir p fs) = Fs.files fs.
Proof.
  destruct (Fs.existsDir p fs) eqn:E; [now repeat split|].
  split; [|split; [|reflexivity]].
  - rewrite ConfigFacts.existsDir_mkdir. now rewrite String.eqb_refl.
  - intros d Hd. rewrite ConfigFacts.existsDir_mkdir.
    assert (String.eqb p d = false) as -> by (apply String.eqb_neq; congruence).
    reflexivity.
Qed.

Lemma existsDir_dirs (d : string) (fs fs' : Fs.t) :
  Fs.dirs fs' = Fs.dirs fs -> Fs.existsDir d fs' = Fs.existsDir d fs.
Proof. unfold Fs.existsDir. now intros ->. Qed.

Lemma existsDir_written (d initPath itemName q content : string) (fs : Fs.t) :
  Fs.existsDir d (updateInitFile initPath itemName (Fs.writeFile q content fs))
  = Fs.existsDir d fs.
Proof. apply existsDir_dirs. now rewrite updateInitFile_dirs. Qed.

Lemma readFile_files (p : string) (fs fs' : Fs.t) :
  Fs.files fs' = Fs.files fs -> Fs.readFile p fs' = Fs.readFile p fs.
Proof. unfold Fs.readFile. now intros ->. Qed.

(** The code [generateAsset] writes into the asset file. *)
Lemma generateAsset_unfold (cfg : DagsterConfig) (options : DagsterAssetOptions)
    (fs : Fs.t) :
  given (ao_schedule options) = None ->
  generateAsset cfg options fs
  = updateAssetsInit cfg (ao_name options)
      (Fs.writeFile (Fs.join (assetsPath cfg) (ao_name options ++ ".py"))
         (Dbt.orString (ao_code options)
            (generateDefaultAssetCode (ao_name options) (ao_description options)
               (Dbt.orElse (ao_dependencies options) []) (ao_partitions options)
               (Dbt.orElse (ao_tags options) []) (ao_compute_kind options)
               (ao_io_manager options)))
         (if Fs.existsDir (assetsPath cfg) fs then fs else Fs.mkdir (assetsPath cfg) fs)).
Proof. intros H. unfold generateAsset. now rewrite H. Qed.

(** X11: [generateAsset] without a schedule, for a name that is one path
    segment, makes the assets directory when it is missing and none when
    it is there, and changes no file but the asset file and the index
    file.  For a name other than [__init__] the asset file holds the code
    given, or the default code when none or an empty one is
    given; for a name without closing bracket the index file holds the
    import line of the name.  For the name [__init__] the asset file is
    the index file: what the index held is replaced by the asset code, to
    which the registration is then applied. *)
Theorem generateAsset_effects (cfg : DagsterConfig) (options : DagsterAssetOptions)
    (fs : Fs.t) :
  let name := ao_name options in
  let assetFile := Fs.join (assetsPath cfg) (name ++ ".py") in
  let initFile := Fs.join (assetsPath cfg) "__init__.py" in
  let assetCode :=
    Dbt.orString (ao_code options)
      (generateDefaultAssetCode name (ao_description options)
         (Dbt.orElse (ao_dependencies options) []) (ao_partitions options)
         (Dbt.orElse (ao_tags options) []) (ao_compute_kind options)
         (ao_io_manager options)) in
  let fs' := generateAsset cfg options fs in
  given (ao_schedule options) = None -> oneSegment name = true ->
  (forall p, p <> assetFile -> p <> initFile -> Fs.readFile p fs' = Fs.readFile p fs)
  /\ Fs.existsDir (assetsPath cfg) fs' = true
  /\ (Fs.existsDir (assetsPath cfg) fs = true -> Fs.dirs fs' = Fs.dirs fs)
  /\ (name <> "__init__" -> Fs.readFile assetFile fs' = Some assetCode)
  /\ (hasChar 93 name = false ->
      exists c, Fs.readFile initFile fs' = Some c /\ includes c (importLine name) = true)
  /\ (name = "__init__" -> Fs.readFile initFile fs' = Some (afterUpdate assetCode name)).
Proof.
  cbv zeta. intros Hs _. rewrite (generateAsset_unfold _ _ _ Hs). unfold updateAssetsInit.
  destruct (existsDir_made (assetsPath cfg) fs) as (D1 & D2 & D3).
  split; [|split; [|split; [|split; [|split]]]].
  - intros p H1 H2. rewrite updateInitFile_other by exact H2.
    rewrite readFile_other by congruence. now apply readFile_files.
  - now rewrite existsDir_written.
  - intros Hd. rewrite updateInitFile_dirs. cbn [Fs.writeFile Fs.dirs]. now rewrite Hd.
  - intros Hn. rewrite updateInitFile_other by now apply py_not_init.
    apply readFile_writeFile.
  - intros Hb. now apply updateInitFile_includes.
  - intros Hn. rewrite readFile_updateInitFile. rewrite Hn.
    change ("__init__" ++ ".py") with "__init__.py". now rewrite readFile_writeFile.
Qed.

Lemma generateAsset_effects_witness :
  let options :=
    mkAssetOptions "orders" None None (Some "custom = 1") None None None None None in
  let fs' :=
    generateAsset (Build_DagsterConfig "proj" "proj/dagster" "proj/assets" "proj/jobs")
      options Fs.empty in
  Fs.readFile "proj/assets/orders.py" fs' = Some "custom = 1"
  /\ Fs.existsDir "proj/assets" fs' = true.
Proof.
  pose proof (generateAsset_effects
                (Build_DagsterConfig "proj" "proj/dagster" "proj/assets" "proj/jobs")
                (mkAssetOptions "orders" None None (Some "custom = 1") None None None
                   None None) Fs.empty eq_refl eq_refl) as (_ & H2 & _ & H4 & _).
  split; [apply H4; discriminate | exact H2].
Defined.

(** X12: an asset generated again under the same name (one path segment,
    without closing bracket, other than [__init__], no schedule) gets the code of the
    second call, while the index file, every other file and the
    directories stay as the first call left them. *)
Theorem generateAsset_again (cfg : DagsterConfig) (first second : DagsterAssetOptions)
    (fs : Fs.t) :
  let name := ao_name first in
  let assetFile := Fs.join (assetsPath cfg) (name ++ ".py") in
  let fs1 := generateAsset cfg first fs in
  let fs2 := generateAsset cfg second fs1 in
  ao_name second = name -> oneSegment name = true -> name <> "__init__" ->
  hasChar 93 name = false ->
  given (ao_schedule first) = None -> given (ao_schedule second) = None ->
  Fs.readFile assetFile fs2
  = Some (Dbt.orString (ao_code second)
            (generateDefaultAssetCode name (ao_description second)
               (Dbt.orElse (ao_dependencies second) []) (ao_partitions second)
               (Dbt.orElse (ao_tags second) []) (ao_compute_kind second)
               (ao_io_manager second)))
  /\ (forall p, p <> assetFile -> Fs.readFile p fs2 = Fs.readFile p fs1)
  /\ Fs.dirs fs2 = Fs.dirs fs1.
Proof.
  cbv zeta. intros Hname _ Hn Hb Hs1 Hs2.
  rewrite (generateAsset_unfold cfg second _ Hs2), Hname.
  set (fs1 := generateAsset cfg first fs).
  assert (Fs.existsDir (assetsPath cfg) fs1 = true) as Hd.
  { unfold fs1. rewrite (generateAsset_unfold _ _ _ Hs1). unfold updateAssetsInit.
    rewrite existsDir_written. apply existsDir_made. }
  assert (exists c, Fs.readFile (Fs.join (assetsPath cfg) "__init__.py") fs1 = Some c
                    /\ includes c (importLine (ao_name first)) = true) as (c & Hc & Hi).
  { unfold fs1. rewrite (generateAsset_unfold _ _ _ Hs1). unfold updateAssetsInit.
    now apply updateInitFile_includes. }
  rewrite Hd. unfold updateAssetsInit. rewrite (updateInitFile_present _ _ c).
  - split; [apply readFile_writeFile|]. split; [|reflexivity].
    intros p Hp. apply readFile_other. congruence.
  - rewrite readFile_other; [exact Hc|]. now apply py_not_init.
  - exact Hi.
Qed.

Lemma generateAsset_again_witness :
  let cfg := Build_DagsterConfig "proj" "proj/dagster" "proj/assets" "proj/jobs" in
  let first := mkAssetOptions "orders" None None (Some "v = 1") None None None None None in
  let second := mkAssetOptions "orders" None None (Some "v = 2") None None None None None in
  Fs.readFile "proj/assets/orders.py"
    (generateAsset cfg second (generateAsset cfg first Fs.empty))
  = Some "v = 2".
Proof.
  apply (generateAsset_again
           (Build_DagsterConfig "proj" "proj/dagster" "proj/assets" "proj/jobs")
           (mkAssetOptions "orders" None None (Some "v = 1") None None None None None)
           (mkAssetOptions "orders" None None (Some "v = 2") None None None None None)
           Fs.empty); try reflexivity.
  discriminate.
Defined.

(** *** Schedules *)

Lemma generateSchedule_unfold (cfg : DagsterConfig) (name schedule : string)
    (isJob : bool) (fs : Fs.t) :
  generateSchedule cfg name schedule isJob fs
  = updateInitFile (Fs.join (Fs.join (dagsterPath cfg) "schedules") "__init__.py")
      (name ++ "_schedule")
      (Fs.writeFile
         (Fs.join (Fs.join (dagsterPath cfg) "schedules") (name ++ "_schedule.py"))
         (generateScheduleCode name schedule isJob)
         (if Fs.existsDir (Fs.join (dagsterPath cfg) "schedules") fs then fs
          else Fs.mkdir (Fs.join (dagsterPath cfg) "schedules") fs)).
Proof. reflexivity. Qed.

(** X13: the schedule of an asset and the schedule of a job of the same name
    are one file: of two calls of [generateSchedule] for a name (one path
    segment, without closing bracket) the second one decides the schedule
    file, whatever the kinds and cron expressions, and the name is
    registered once: the second call leaves the index of the schedules,
    every other file and the directories as the first call left them. *)
Theorem generateSchedule_last_wins (cfg : DagsterConfig) (name s1 s2 : string)
    (job1 job2 : bool) (fs : Fs.t) :
  let schedules := Fs.join (dagsterPath cfg) "schedules" in
  let scheduleFile := Fs.join schedules (name ++ "_schedule.py") in
  let fs1 := generateSchedule cfg name s1 job1 fs in
  let fs2 := generateSchedule cfg name s2 job2 fs1 in
  oneSegment name = true -> hasChar 93 name = false ->
  Fs.readFile scheduleFile fs1 = Some (generateScheduleCode name s1 job1)
  /\ Fs.readFile scheduleFile fs2 = Some (generateScheduleCode name s2 job2)
  /\ (exists c, Fs.readFile (Fs.join schedules "__init__.py") fs1 = Some c
                /\ includes c (importLine (name ++ "_schedule")) = true)
  /\ (forall p, p <> scheduleFile -> Fs.readFile p fs2 = Fs.readFile p fs1)
  /\ Fs.dirs fs2 = Fs.dirs fs1.
Proof.
  cbv zeta. intros _ Hb.
  assert (hasChar 93 (name ++ "_schedule") = false) as Hb'
    by (rewrite hasChar_append, Hb; reflexivity).
  set (fs1 := generateSchedule cfg name s1 job1 fs).
  assert (Fs.existsDir (Fs.join (dagsterPath cfg) "schedules") fs1 = true) as Hd.
  { unfold fs1. rewrite generateSchedule_unfold.
    rewrite existsDir_written. apply existsDir_made. }
  assert (exists c, Fs.readFile (Fs.join (Fs.join (dagsterPath cfg) "schedules")
                                   "__init__.py") fs1 = Some c
                    /\ includes c (importLine (name ++ "_schedule")) = true)
    as (c & Hc & Hi).
  { unfold fs1. rewrite generateSchedule_unfold. now apply updateInitFile_includes. }
  split.
  { unfold fs1. rewrite generateSchedule_unfold.
    rewrite updateInitFile_other by apply schedule_not_init. apply readFile_writeFile. }
  rewrite (generateSchedule_unfold cfg name s2 job2 fs1), Hd.
  rewrite (updateInitFile_present _ _ c).
  - split; [apply readFile_writeFile|]. split; [now exists c|]. split; [|reflexivity].
    intros p Hp. apply readFile_other. congruence.
  - rewrite readFile_other; [exact Hc|]. apply schedule_not_init.
  - exact Hi.
Qed.

Lemma generateSchedule_last_wins_witness :
  let cfg := Build_DagsterConfig "proj" "proj/dagster" "proj/assets" "proj/jobs" in
  Fs.readFile "proj/dagster/schedules/daily_schedule.py"
    (generateSchedule cfg "daily" "0 9 * * *" true
       (generateSchedule cfg "daily" "0 6 * * *" false Fs.empty))
  = Some (generateScheduleCode "daily" "0 9 * * *" true).
Proof.
  apply (generateSchedule_last_wins
           (Build_DagsterConfig "proj" "proj/dagster" "proj/assets" "proj/jobs")
           "daily" "0 6 * * *" "0 9 * * *" false true Fs.empty); reflexivity.
Defined.

(** *** The asset of a DBT model *)

Lemma generateDbtAssetCode_truthy (modelName : string) :
  truthy (generateDbtAssetCode modelName) = true.
Proof. reflexivity. Qed.

(** X14: [generateDbtAsset] for a model whose name is one path segment is
    [generateAsset] for the name [dbt_] followed by the model name, with
    the DBT code as the code given, whenever the assets directory exists;
    it never makes a directory.  So it writes the DBT code into the asset
    file of that name and registers that name in the index of the
    assets. *)
Theorem generateDbtAsset_as_asset (cfg : DagsterConfig) (modelName : string) (fs : Fs.t) :
  let name := "dbt_" ++ modelName in
  let options :=
    mkAssetOptions name None None (Some (generateDbtAssetCode modelName)) None None None
      None None in
  let fs' := generateDbtAsset cfg modelName fs in
  oneSegment modelName = true ->
  Fs.dirs fs' = Fs.dirs fs
  /\ Fs.readFile (Fs.join (assetsPath cfg) (name ++ ".py")) fs'
     = Some (generateDbtAssetCode modelName)
  /\ (Fs.existsDir (assetsPath cfg) fs = true -> generateAsset cfg options fs = fs')
  /\ (hasChar 93 modelName = false ->
      exists c, Fs.readFile (Fs.join (assetsPath cfg) "__init__.py") fs' = Some c
                /\ includes c (importLine name) = true).
Proof.
  cbv zeta. intros _. unfold generateDbtAsset, updateAssetsInit.
  change ("dbt_" ++ modelName ++ ".py") with (("dbt_" ++ modelName) ++ ".py").
  split; [|split; [|split]].
  - now rewrite updateInitFile_dirs.
  - rewrite updateInitFile_other; [apply readFile_writeFile|].
    apply py_not_init. discriminate.
  - intros Hd. rewrite generateAsset_unfold by reflexivity.
    cbn [ao_name ao_code]. rewrite Hd. unfold updateAssetsInit.
    unfold Dbt.orString. now rewrite generateDbtAssetCode_truthy.
  - intros Hb. apply updateInitFile_includes. cbn [hasChar String.append].
    exact Hb.
Qed.

Lemma generateDbtAsset_as_asset_witness :
  let cfg := Build_DagsterConfig "proj" "proj/dagster" "proj/assets" "proj/jobs" in
  let fs := Fs.mkdir "proj/assets" Fs.empty in
  Fs.readFile "proj/assets/dbt_stg_users.py" (generateDbtAsset cfg "stg_users" fs)
  = Some (generateDbtAssetCode "stg_users")
  /\ generateAsset cfg
       (mkAssetOptions "dbt_stg_users" None None (Some (generateDbtAssetCode "stg_users"))
          None None None None None) fs
     = generateDbtAsset cfg "stg_users" fs.
Proof.
  pose proof (generateDbtAsset_as_asset
                (Build_DagsterConfig "proj" "proj/dagster" "proj/assets" "proj/jobs")
                "stg_users" (Fs.mkdir "proj/assets" Fs.empty) eq_refl)
    as (_ & H2 & H3 & _).
  split; [exact H2 | apply H3; reflexivity].
Defined.

(** *** The decorator of the default asset code *)





End AssetFacts.

(** ** The reader sees trimmed lines; a model generated again *)

Module AgainFacts.
Import JS Spec Notions StrFacts FsFacts Dbt SchemaFacts ReaderFacts UpsertFacts ColumnsFacts.

Lemma parseLine_trim (st : ParseState) (line : string) :
  parseLine st (trim line) = parseLine st line.
Proof. unfold parseLine. now rewrite trim_idem. Qed.

Lemma parseLines_trim (lines : list string) (st : ParseState) :
  parseLines st (map trim lines) = parseLines st lines.
Proof.
  revert st; induction lines as [|l ls IH]; intros st; [reflexivity|].
  cbn [map parseLines]. rewrite parseLine_trim. destruct (parseLine st l); [apply IH|].
  reflexivity.
Qed.

(** X16: the reader looks at the trimmed lines only: two texts whose lines
    are the same once trimmed are read alike, so indentation, trailing
    blanks and carriage returns at the line ends make no difference. *)
Theorem reader_sees_trimmed_lines (content1 content2 : string) :
  map trim (split "010" content1) = map trim (split "010" content2) ->
  parseBasicYaml content1 = parseBasicYaml content2.
Proof.
  intros H. unfold parseBasicYaml, parseBasicYamlTry.
  now rewrite <- (parseLines_trim (split "010" content1)), H, parseLines_trim.
Qed.

Lemma reader_sees_trimmed_lines_witness :
  parseBasicYaml ("models:" ++ chr 13 ++ nl ++ "- name: a" ++ chr 13 ++ nl
                  ++ "columns:  " ++ chr 13 ++ nl ++ chr 9 ++ "- name: id" ++ chr 13 ++ nl)
  = parseBasicYaml ("models:" ++ nl ++ "  - name: a" ++ nl ++ "    columns:" ++ nl
                    ++ "      - name: id" ++ nl).
Proof.
  apply (reader_sees_trimmed_lines
           ("models:" ++ chr 13 ++ nl ++ "- name: a" ++ chr 13 ++ nl
            ++ "columns:  " ++ chr 13 ++ nl ++ chr 9 ++ "- name: id" ++ chr 13 ++ nl)
           ("models:" ++ nl ++ "  - name: a" ++ nl ++ "    columns:" ++ nl
            ++ "      - name: id" ++ nl)).
  reflexivity.
Defined.

(** *** A model generated again *)

Lemma reread_single (m : SchemaModel) : reread [m] = [readModel m].
Proof.
  cbn [reread]. destruct (noColumns m) eqn:E; [reflexivity|].
  cbn [flat_map]. now rewrite app_nil_r.
Qed.

Lemma updateSchemaContent_same (m : SchemaModel) (n description : string)
    (columns : list DbtColumn) (tests : list string) :
  cleanModel m = true -> sm_name m = n ->
  updateSchemaContent (Some (generateBasicYaml (mkSchema 2 [m]))) n description
    columns tests
  = generateBasicYaml (mkSchema 2 [updateEntry description columns tests (readModel m)]).
Proof.
  intros Hm <-. unfold updateSchemaContent.
  unfold parseBasicYaml.
  rewrite ColumnsFacts.parseBasicYamlTry_written by (cbn [forallb]; now rewrite Hm).
  rewrite reread_single. unfold upsertModel.
  cbn [version models updateFound readModel sm_name]. now rewrite String.eqb_refl.
Qed.

(** What a call of [generateModel] leaves in its two files. *)
Lemma generateModel_files (cfg : DbtConfig) (options : DbtModelOptions) (fs : Fs.t) :
  let name := opt_name options in
  let dir := getModelDirectory name in
  exists fs',
    generateModel cfg options fs = Resolved fs'
    /\ Fs.readFile (schemaPath cfg dir) fs'
       = Some (updateSchemaContent (Fs.readFile (schemaPath cfg dir) fs) name
                 (orString (opt_description options) EmptyString)
                 (orElse (opt_columns options) []) (orElse (opt_tests options) []))
    /\ Fs.readFile (Fs.join (Fs.join (modelsDir cfg) dir) (name ++ ".sql")) fs'
       = Some (addModelConfig
                 (orString (opt_sql options) (generateDefaultSql name))
                 (orElse (opt_materializedAs options) "view")
                 (orElse (opt_tags options) [])).
Proof.
  cbv zeta. unfold generateModel. eexists. split; [reflexivity|]. split.
  - rewrite readFile_updateSchema. do 2 f_equal.
    rewrite readFile_other by apply sql_path_not_schema.
    now destruct (Fs.existsDir _ fs).
  - unfold updateSchema. rewrite readFile_other; [apply readFile_writeFile|].
    intros E. symmetry in E. revert E. apply sql_path_not_schema.
Qed.

(** The reader on an entry whose column has a description and which has
    none of its own, by evaluation of [parseBasicYaml]: the line of the
    column is the description of the model.  Below, the two calls of
    [generateModel] evaluated on the empty file system. *)
Example described_column_read :
  parseBasicYaml ("version: 2" ++ nl ++ nl
                  ++ "models:" ++ nl
                  ++ "  - name: stg_users" ++ nl
                  ++ "    columns:" ++ nl
                  ++ "      - name: id" ++ nl
                  ++ "        description: Key" ++ nl
                  ++ nl)
  = mkSchema 2 [mkModel "stg_users" (Some "Key") None (Some [mkColumn "id" None None])]
  /\ match generateModel exampleConfig
             (mkOptions "stg_users" None None None
                (Some [mkDbtColumn "id" (Some "Key") None None]) None None) Fs.empty with
     | Resolved fs1 =>
         match generateModel exampleConfig
                 (mkOptions "stg_users" None None None None None None) fs1 with
         | Resolved fs2 => Fs.readFile "proj/models/staging/schema.yml" fs2
         | Rejected _ => None
         end
     | Rejected _ => None
     end
     = Some ("version: 2" ++ nl ++ nl
             ++ "models:" ++ nl
             ++ "  - name: stg_users" ++ nl
             ++ "    description: Key" ++ nl
             ++ "    columns:" ++ nl
             ++ "      - name: id" ++ nl
             ++ nl).
Proof. split; reflexivity. Qed.

(** X17: a model generated a second time is not listed twice.  When the
    name is one path segment, the directory has no schema file yet and the
    first call leaves an entry of the written dialect, the schema file
    after the second call for the same name lists one model: what the
    reader kept of the first entry, updated with what the second call
    gives; the model file holds the SQL of the second call.  What the
    reader keeps is [readModel]: the names of the columns, and for the
    description the last [description:] line of the entry, since the
    reader assigns every such line to the current model, in column scope
    too (its test asks for [currentModel] only, see
    [SchemaFacts.parseLine_description]); so the description given to a
    column by the first call is the description of the model after the
    second, unless the second call gives one. *)
Theorem generateModel_again (cfg : DbtConfig) (first second : DbtModelOptions)
    (fs : Fs.t) :
  let name := opt_name first in
  let dir := getModelDirectory name in
  let entry :=
    updateEntry (orString (opt_description first) EmptyString)
      (orElse (opt_columns first) []) (orElse (opt_tests first) [])
      (mkModel name None None None) in
  oneSegment name = true -> opt_name second = name -> cleanModel entry = true ->
  Fs.readFile (schemaPath cfg dir) fs = None ->
  exists fs1 fs2,
    generateModel cfg first fs = Resolved fs1
    /\ generateModel cfg second fs1 = Resolved fs2
    /\ Fs.readFile (schemaPath cfg dir) fs1 = Some (generateBasicYaml (mkSchema 2 [entry]))
    /\ Fs.readFile (schemaPath cfg dir) fs2
       = Some (generateBasicYaml
                 (mkSchema 2
                    [updateEntry (orString (opt_description second) EmptyString)
                       (orElse (opt_columns second) []) (orElse (opt_tests second) [])
                       (readModel entry)]))
    /\ Fs.readFile (Fs.join (Fs.join (modelsDir cfg) dir) (name ++ ".sql")) fs2
       = Some (addModelConfig
                 (orString (opt_sql second) (generateDefaultSql name))
                 (orElse (opt_materializedAs second) "view")
                 (orElse (opt_tags second) [])).
Proof.
  cbv zeta. intros _ Hname Hclean Hnone.
  destruct (generateModel_files cfg first fs) as (fs1 & G1 & S1 & _).
  destruct (generateModel_files cfg second fs1) as (fs2 & G2 & S2 & Q2).
  rewrite Hname in S2, Q2. rewrite Hnone in S1.
  exists fs1, fs2. split; [exact G1|]. split; [exact G2|].
  split; [exact S1|]. split; [|exact Q2].
  rewrite S2, S1.
  change (updateSchemaContent None ?n ?d ?cs ?ts)
    with (generateBasicYaml (mkSchema 2 [updateEntry d cs ts (mkModel n None None None)])).
  f_equal. apply updateSchemaContent_same; [exact Hclean | apply updateEntry_name].
Qed.

Lemma generateModel_again_witness :
  exists fs1 fs2,
    generateModel exampleConfig
      (mkOptions "stg_users" None None None
         (Some [mkDbtColumn "id" (Some "Key") None None]) None None) Fs.empty
    = Resolved fs1
    /\ generateModel exampleConfig
         (mkOptions "stg_users" None None None None None None) fs1
       = Resolved fs2
    /\ Fs.readFile "proj/models/staging/schema.yml" fs1
       = Some ("version: 2" ++ nl ++ nl
               ++ "models:" ++ nl
               ++ "  - name: stg_users" ++ nl
               ++ "    columns:" ++ nl
               ++ "      - name: id" ++ nl
               ++ "        description: Key" ++ nl
               ++ nl)
    /\ Fs.readFile "proj/models/staging/schema.yml" fs2
       = Some ("version: 2" ++ nl ++ nl
               ++ "models:" ++ nl
               ++ "  - name: stg_users" ++ nl
               ++ "    description: Key" ++ nl
               ++ "    columns:" ++ nl
               ++ "      - name: id" ++ nl
               ++ nl).
Proof.
  destruct (generateModel_again exampleConfig
              (mkOptions "stg_users" None None None
                 (Some [mkDbtColumn "id" (Some "Key") None None]) None None)
              (mkOptions "stg_users" None None None None None None)
              Fs.empty eq_refl eq_refl eq_refl eq_refl)
    as (fs1 & fs2 & H1 & H2 & H3 & H4 & _).
  exists fs1, fs2. split; [exact H1|]. split; [exact H2|].
  split; [exact H3 | exact H4].
Defined.

End AgainFacts.

(** ** The list options of the command line *)

Module CliFacts.
Import JS Spec Notions StrFacts Cli ReaderFacts.

Lemma trimStart_space (w s : string) : allSpace w = true -> trimStart (w ++ s) = trimStart s.
Proof.
  induction w as [|c w IH]; [reflexivity|]. cbn [allSpace]. intros H.
  apply andb_true_iff in H as [Hc Hw]. cbn [String.append trimStart]. rewrite Hc.
  now apply IH.
Qed.

Lemma split_space (w s : string) :
  allSpace w = true -> map trim (split "," (w ++ s)) = map trim (split "," s).
Proof.
  intros Hw. assert (hasChar 44 w = false) as Hc.
  { apply AllFacts.allSpace_hasChar; [|exact Hw]. intros c.
    apply (AllFacts.space_not 44); [lia | reflexivity]. }
  induction w as [|c w IH]; [reflexivity|].
  cbn [allSpace] in Hw. apply andb_true_iff in Hw as [Hcw Hw].
  cbn [hasChar] in Hc. apply orb_false_iff in Hc as [Hc1 Hc2].
  cbn [String.append split].
  assert (Ascii.eqb c "," = false) as ->
    by (change ","%char with (ascii_of_nat 44); now rewrite eqb_isChar by lia).
  specialize (IH Hw Hc2).
  destruct (split "," (w ++ s)) as [|h t] eqn:E; [now apply split_nonempty in E|].
  destruct (split "," s) as [|h' t'] eqn:E'; [now apply split_nonempty in E'|].
  cbn [map] in *. injection IH as Hh Ht. rewrite Ht. f_equal.
  unfold trim in *. cbn [trimStart]. now rewrite Hcw.
Qed.

Lemma listOption_join (w : string) (l : list string) :
  allSpace w = true -> l <> [] -> forallb (fun e => negb (hasChar 44 e)) l = true ->
  map trim (split "," (join ("," ++ w) l)) = map trim l.
Proof.
  intros Hw. induction l as [|e l IH]; [contradiction|]. intros _ H.
  cbn [forallb] in H. apply andb_true_iff in H as [He Hl]. apply negb_true_iff in He.
  destruct l as [|e' l].
  - cbn [join map]. change ","%char with (ascii_of_nat 44).
    now rewrite split_no_sep by (lia || assumption).
  - change (join ("," ++ w) (e :: e' :: l))
      with (e ++ chr 44 ++ w ++ join ("," ++ w) (e' :: l)).
    change ","%char with (ascii_of_nat 44). rewrite split_append by (lia || assumption).
    change (ascii_of_nat 44) with ","%char. cbn [map]. f_equal.
    rewrite split_space by exact Hw. apply IH; [discriminate | exact Hl].
Qed.

(** X18: a list option of the command line ([--tags], [--deps], [--assets])
    is read by cutting at the commas and trimming: no element read holds a
    comma or a blank at either end, and a list of names without comma,
    written with a comma and any blanks between the names, is read back
    as the names, trimmed; no option and the empty option give no
    element. *)
Theorem listOption_reads_back (w : string) (l : list string) :
  (forall o x, In x (listOption o) -> trim x = x /\ hasChar 44 x = false)
  /\ (allSpace w = true -> forallb (fun e => negb (hasChar 44 e)) l = true ->
      truthy (join ("," ++ w) l) = true ->
      listOption (Some (join ("," ++ w) l)) = map trim l)
  /\ listOption None = [] /\ listOption (Some EmptyString) = [].
Proof.
  split; [|split; [|split; reflexivity]].
  - intros o x. unfold listOption. destruct o as [s|]; [|intros []].
    destruct (truthy s); [|intros []]. intros H. apply in_map_iff in H as [y [<- Hy]].
    split; [apply trim_idem|]. apply SchemaFacts.hasChar_trim.
    apply (split_parts 44 "," s y Hy); [now left | lia].
  - intros Hw Hl Ht. unfold listOption. rewrite Ht. apply listOption_join; try assumption.
    intros ->. discriminate.
Qed.

Lemma listOption_reads_back_witness :
  listOption (Some "daily , core") = ["daily"; "core"].
Proof.
  destruct (listOption_reads_back " " ["daily "; "core"]) as (_ & H & _).
  apply H; reflexivity.
Defined.

End CliFacts.

(** ** The answer of the provider, read back *)

Module AiFacts.
Import JS Spec Notions StrFacts Ai.

(** *** A match at a known place *)

Lemma search_at_head (matchAt : string -> option (list string * string))
    (before y : string) (gs : list string) (post : string) :
  (forall p q, before = p ++ q -> q <> EmptyString -> matchAt (q ++ y) = None) ->
  matchAt y = Some (gs, post) ->
  search matchAt (before ++ y)
  = Some (mkMatch before (substring 0 (String.length y - String.length post) y) gs post).
Proof.
  intros Hn Hy. induction before as [|c b IH].
  - cbn [String.append]. destruct y; cbn [search]; now rewrite Hy.
  - change (String c b ++ y) with (String c (b ++ y)). cbn [search].
    change (String c (b ++ y)) with (String c b ++ y).
    rewrite (Hn EmptyString (String c b)) by (reflexivity || discriminate).
    rewrite IH; [reflexivity|]. intros p q -> Hq. apply (Hn (String c p)); [reflexivity|].
    exact Hq.
Qed.

Lemma search_none (matchAt : string -> option (list string * string)) (s : string) :
  search matchAt s = None <-> forall p q, s = p ++ q -> matchAt q = None.
Proof.
  induction s as [|c r IH].
  - cbn [search]. destruct (matchAt "") as [[gs post]|] eqn:E.
    + split; [discriminate|]. intros H. now rewrite (H "" "" eq_refl) in E.
    + split; [|reflexivity]. intros _ p q H. symmetry in H.
      apply append_eq_nil in H as [_ ->]. exact E.
  - cbn [search]. destruct (matchAt (String c r)) as [[gs post]|] eqn:E.
    + split; [discriminate|]. intros H. now rewrite (H "" (String c r) eq_refl) in E.
    + destruct (search matchAt r) as [m|] eqn:Es; cbn [option_map].
      * split; [discriminate|]. intros H. exfalso.
        assert (Some m = None) as X; [|discriminate].
        apply IH. intros p q ->. apply (H (String c p)). reflexivity.
      * split; [|reflexivity]. intros _ p q H. destruct p as [|a p].
        -- cbn in H. now subst q.
        -- cbn in H. injection H as _ H. destruct IH as [IH _].
           now apply (IH eq_refl p q).
Qed.

(** *** The fenced block *)

Lemma splitAt_sound (needle s a b : string) :
  splitAt needle s = Some (a, b) -> s = a ++ needle ++ b.
Proof.
  revert a; induction s as [|c r IH]; intros a; cbn [splitAt].
  - destruct (stripPrefix needle "") as [rest|] eqn:E; [|discriminate].
    intros [= <- <-]. now apply stripPrefix_spec in E.
  - destruct (stripPrefix needle (String c r)) as [rest|] eqn:E.
    + intros [= <- <-]. now apply stripPrefix_spec in E.
    + destruct (splitAt needle r) as [[a' b']|]; [|discriminate].
      intros [= <- <-]. cbn [String.append]. f_equal. now apply IH.
Qed.

Lemma splitAt_complete (needle a b : string) :
  exists a' b', splitAt needle (a ++ needle ++ b) = Some (a', b').
Proof.
  induction a as [|c a IH].
  - exists EmptyString, b. cbn [String.append]. destruct (needle ++ b) eqn:E;
      cbn [splitAt]; rewrite <- E; now rewrite stripPrefix_append.
  - cbn [String.append splitAt].
    destruct (stripPrefix needle (String c (a ++ needle ++ b))); [eauto|].
    destruct IH as (a' & b' & ->). eauto.
Qed.

Lemma fenceClose_head (c : ascii) (r : string) :
  isChar 96 c = false -> stripPrefix fenceClose (String "010" (String c r)) = None.
Proof.
  intros H. rewrite <- (eqb_isChar 96 c) in H by lia.
  change (ascii_of_nat 96) with "`"%char in H.
  unfold fenceClose, nl, chr. change (ascii_of_nat 10) with "010"%char. cbn.
  now rewrite (Ascii.eqb_sym "`" c), H.
Qed.

Lemma splitAt_fence (code rest : string) :
  hasChar 96 code = false ->
  splitAt fenceClose (code ++ fenceClose ++ rest) = Some (code, rest).
Proof.
  intros H. induction code as [|c r IH].
  - reflexivity.
  - cbn [hasChar] in H. apply orb_false_iff in H as [Hc Hr].
    cbn [String.append splitAt].
    assert (stripPrefix fenceClose (String c (r ++ fenceClose ++ rest)) = None) as ->.
    { destruct (Ascii.eqb "010" c) eqn:E.
      - apply Ascii.eqb_eq in E. subst c. destruct r as [|d r'].
        + reflexivity.
        + cbn [hasChar] in Hr. apply orb_false_iff in Hr as [Hd _].
          now apply fenceClose_head.
      - unfold fenceClose, nl, chr. change (ascii_of_nat 10) with "010"%char. cbn.
        now rewrite E. }
    now rewrite (IH Hr).
Qed.

Lemma fenceAt_backtick (lang : string) (c : ascii) (s : string) :
  isChar 96 c = false -> fenceAt lang (String c s) = None.
Proof.
  intros H. rewrite <- (eqb_isChar 96 c) in H by lia.
  change (ascii_of_nat 96) with "`"%char in H.
  unfold fenceAt, fenceOpen. cbn. now rewrite (Ascii.eqb_sym "`" c), H.
Qed.

Lemma search_fence (lang intro code rest : string) :
  hasChar 96 intro = false -> hasChar 96 code = false ->
  search (fenceAt lang) (intro ++ fenceOpen lang ++ code ++ fenceClose ++ rest)
  = Some (mkMatch intro (fenceOpen lang ++ code ++ fenceClose) [code] rest).
Proof.
  intros Hi Hc.
  rewrite (search_at_head _ intro _ [code] rest).
  - f_equal. f_equal.
    replace (fenceOpen lang ++ code ++ fenceClose ++ rest)
      with ((fenceOpen lang ++ code ++ fenceClose) ++ rest)
      by now rewrite !append_assoc.
    apply substring_prefix.
  - intros p [|c q] -> Hq; [contradiction|]. cbn [String.append].
    apply fenceAt_backtick. rewrite hasChar_append in Hi.
    apply orb_false_iff in Hi as [_ Hi]. cbn [hasChar] in Hi.
    now apply orb_false_iff in Hi.
  - unfold fenceAt. now rewrite stripPrefix_append, splitAt_fence.
Qed.

(** *** The description line *)

Lemma lineTerminator_space (c : ascii) : isLineTerminator c = true -> isWhiteSpace c = true.
Proof.
  unfold isLineTerminator, isWhiteSpace. intros H. apply orb_true_iff in H as [-> | ->];
    now rewrite ?orb_true_r.
Qed.

Lemma lineRun_line (a tail : string) :
  oneLine a = true -> lineEnd tail = true -> lineRun (a ++ tail) = (a, tail).
Proof.
  intros Ha Ht. induction a as [|c a IH].
  - cbn [String.append]. destruct tail as [|d t]; [reflexivity|].
    cbn [lineEnd] in Ht. cbn [lineRun]. now rewrite Ht.
  - cbn [oneLine] in Ha. apply andb_true_iff in Ha as [Hc Ha].
    apply negb_true_iff in Hc. cbn [String.append lineRun]. now rewrite Hc, (IH Ha).
Qed.

Lemma spaceThenLine_skip (w s : string) (found : string * string) :
  allSpace w = true -> spaceThenLine s = Some found ->
  spaceThenLine (w ++ s) = Some found.
Proof.
  intros Hw Hs. induction w as [|c w IH]; [exact Hs|].
  cbn [allSpace] in Hw. apply andb_true_iff in Hw as [Hc Hw].
  cbn [String.append spaceThenLine]. now rewrite Hc, (IH Hw).
Qed.

Lemma trimStart_split (s : string) :
  exists w, allSpace w = true /\ s = w ++ trimStart s.
Proof.
  induction s as [|c r IH]; [now exists EmptyString|]. cbn [trimStart].
  destruct (isWhiteSpace c) eqn:E.
  - destruct IH as (w & Hw & Hr). exists (String c w). cbn [allSpace String.append].
    rewrite E, Hw. split; [reflexivity|]. now rewrite <- Hr.
  - now exists EmptyString.
Qed.

Lemma trimStart_head (s : string) (c : ascii) (r : string) :
  trimStart s = String c r -> isWhiteSpace c = false.
Proof.
  induction s as [|a s IH]; [discriminate|]. cbn [trimStart].
  destruct (isWhiteSpace a) eqn:E; [exact IH|]. now intros [= <- _].
Qed.

Lemma oneLine_append (a b : string) : oneLine (a ++ b) = oneLine a && oneLine b.
Proof.
  induction a as [|c a IH]; [reflexivity|]. cbn [String.append oneLine].
  now rewrite IH, andb_assoc.
Qed.

(** The description read from the text after [DESCRIPTION:]. *)
Lemma spaceThenLine_description (description tail : string) :
  oneLine description = true -> truthy (trim description) = true ->
  lineEnd tail = true ->
  spaceThenLine (String " " (description ++ tail)) = Some (trimStart description, tail).
Proof.
  intros Hd Ht Hl. destruct (trimStart_split description) as (w & Hw & E).
  assert (oneLine (trimStart description) = true) as Ho.
  { rewrite E, oneLine_append in Hd. now apply andb_true_iff in Hd as [_ Hd]. }
  rewrite E at 1. rewrite append_assoc.
  apply (spaceThenLine_skip (String " " w)); [exact Hw|].
  destruct (trimStart description) as [|c r] eqn:Et.
  - unfold trim in Ht. now rewrite Et in Ht.
  - cbn [String.append spaceThenLine]. rewrite (trimStart_head _ _ _ Et).
    change (String c (r ++ tail)) with (String c r ++ tail). now rewrite lineRun_line.
Qed.

Lemma includes_sep (n : nat) (a b needle : string) :
  (n < 256)%nat -> hasChar n needle = false ->
  includes (a ++ chr n ++ b) needle = includes a needle || includes b needle.
Proof.
  intros Hn Hf. destruct (includes (a ++ chr n ++ b) needle) eqn:E.
  - apply includes_spec in E as (x & y & E). symmetry.
    destruct (append_eq_append _ _ _ _ E) as [l [[Ha Hy] | [Hx Hb]]].
    + (* a = x ++ l, needle ++ y = l ++ chr n ++ b *)
      symmetry in Hy. destruct (append_eq_append _ _ _ _ Hy) as [k [[H1 H2] | [H1 H2]]].
      * (* l = needle ++ k *)
        apply orb_true_iff. left. apply includes_spec. exists x, k. now rewrite Ha, H1.
      * (* needle = l ++ k, chr n ++ b = k ++ y *)
        destruct k as [|d k].
        -- apply orb_true_iff. left. apply includes_spec. exists x, EmptyString.
           rewrite append_nil_r in H1. now rewrite Ha, H1, append_nil_r.
        -- unfold chr in H2. cbn in H2. injection H2 as Hd _. subst d.
           rewrite H1, hasChar_append in Hf. cbn [hasChar] in Hf.
           rewrite isChar_ascii in Hf by exact Hn. now rewrite orb_true_r in Hf.
    + (* x = a ++ l, chr n ++ b = l ++ needle ++ y *)
      destruct l as [|d l].
      * cbn in Hb. destruct needle as [|e needle'].
        -- apply orb_true_iff. left. apply includes_spec. now exists a, EmptyString;
             rewrite append_nil_r.
        -- unfold chr in Hb. cbn in Hb. injection Hb as He _. subst e.
           cbn [hasChar] in Hf. now rewrite isChar_ascii in Hf by exact Hn.
      * unfold chr in Hb. cbn in Hb. injection Hb as _ Hb.
        apply orb_true_iff. right. apply includes_spec. now exists l, y.
  - symmetry. apply orb_false_iff. split.
    + destruct (includes a needle) eqn:Ea; [|reflexivity].
      apply includes_spec in Ea as (x & y & ->).
      rewrite !append_assoc, includes_append in E. discriminate.
    + destruct (includes b needle) eqn:Eb; [|reflexivity].
      apply includes_spec in Eb as (x & y & ->).
      assert (includes ((a ++ chr n ++ x) ++ needle ++ y) needle = true) as X
        by apply includes_append.
      rewrite !append_assoc in X. rewrite X in E. discriminate.
Qed.

(** No occurrence of a text starts before the place where it is put. *)
Lemma no_start_before (stem : string) (last : ascii) (before z : string) :
  includes (before ++ stem) (stem ++ String last "") = false ->
  forall p q, before = p ++ q -> q <> EmptyString ->
              stripPrefix (stem ++ String last "") (q ++ (stem ++ String last "") ++ z)
              = None.
Proof.
  intros Hi p q -> Hq.
  destruct (stripPrefix _ _) as [r|] eqn:E; [|reflexivity]. exfalso.
  apply stripPrefix_spec in E.
  assert (q ++ (stem ++ String last "") ++ z = (q ++ stem) ++ String last z) as X
    by now rewrite !append_assoc.
  rewrite X in E. clear X.
  assert (exists l, q ++ stem = (stem ++ String last "") ++ l) as [l Hl].
  { destruct (append_eq_append _ _ _ _ E) as [l [[H1 H2] | [H1 H2]]]; [now exists l|].
    pose proof (f_equal String.length H1) as L. rewrite !length_append in L.
    destruct q as [|c q]; [contradiction|]. cbn [String.length] in L.
    destruct l as [|d l]; [|cbn [String.length] in L; lia].
    exists EmptyString. now rewrite H1, !append_nil_r. }
  assert (includes ((p ++ q) ++ stem) (stem ++ String last "") = true) as Y.
  { rewrite append_assoc, Hl. apply includes_append. }
  rewrite Y in Hi. discriminate.
Qed.

Lemma includes_backtick (b needle : string) :
  hasChar 96 needle = false -> includes (chr 96 ++ b) needle = includes b needle.
Proof.
  intros H. change (chr 96 ++ b) with (EmptyString ++ chr 96 ++ b).
  rewrite (includes_sep 96) by (lia || assumption).
  destruct needle; [now destruct b | reflexivity].
Qed.

Lemma search_description (intro lang code description tail : string) :
  includes intro "DESCRIPTION:" = false -> includes lang "DESCRIPTION:" = false ->
  includes code "DESCRIPTION:" = false ->
  oneLine description = true -> truthy (trim description) = true ->
  lineEnd tail = true ->
  exists m, search descriptionAt (documented intro lang code description tail) = Some m
            /\ Dagster.group1 m = trimStart description.
Proof.
  intros Hi Hl Hc Hd Ht He. unfold documented.
  set (y := "DESCRIPTION: " ++ description ++ tail).
  replace (intro ++ fenceOpen lang ++ code ++ fenceClose ++ nl ++ nl ++ y)
    with ((intro ++ fenceOpen lang ++ code ++ fenceClose ++ nl ++ nl) ++ y)
    by now rewrite !append_assoc.
  assert (includes ((intro ++ fenceOpen lang ++ code ++ fenceClose ++ nl ++ nl)
                    ++ "DESCRIPTION") ("DESCRIPTION" ++ String ":" "") = false) as Hinc.
  { unfold fenceOpen, fenceClose, nl. rewrite !append_assoc.
    change ("```" ++ ?x) with (chr 96 ++ chr 96 ++ chr 96 ++ x).
    rewrite (includes_sep 96 intro) by (lia || reflexivity).
    change ("DESCRIPTION" ++ String ":" "") with "DESCRIPTION:". rewrite Hi. cbn [orb].
    rewrite !includes_backtick by reflexivity.
    rewrite (includes_sep 10 lang) by (lia || reflexivity). rewrite Hl. cbn [orb].
    rewrite (includes_sep 10 code) by (lia || reflexivity). rewrite Hc. reflexivity. }
  eexists. split.
  - apply (search_at_head _ _ _ [trimStart description] tail).
    + intros p q E Hq. unfold descriptionAt, y.
      change ("DESCRIPTION: " ++ description ++ tail)
        with (("DESCRIPTION" ++ String ":" "") ++ String " " (description ++ tail)).
      now rewrite (no_start_before "DESCRIPTION" ":" _ _ Hinc p q E Hq).
    + unfold descriptionAt, y.
      change ("DESCRIPTION: " ++ description ++ tail)
        with ("DESCRIPTION:" ++ String " " (description ++ tail)).
      now rewrite stripPrefix_append, spaceThenLine_description.
  - reflexivity.
Qed.

Lemma trim_trimStart (s : string) : trim (trimStart s) = trim s.
Proof. unfold trim. now rewrite ReaderFacts.trimStart_idem. Qed.

(** X19: an answer in the format the prompts ask for is read back: when the
    introduction and the code hold no backtick and not the text
    [DESCRIPTION:], and the description is one line that is not blank,
    followed by nothing or by a line end, [parseDbtResponse] answers the
    code and the description, both trimmed, for a block fenced as [sql],
    and [parseDagsterResponse] does so for a block fenced as [python]. *)
Theorem documented_answer_read (intro code description tail : string) :
  hasChar 96 intro = false -> hasChar 96 code = false ->
  includes intro "DESCRIPTION:" = false -> includes code "DESCRIPTION:" = false ->
  oneLine description = true -> truthy (trim description) = true ->
  lineEnd tail = true ->
  parseDbtResponse (documented intro "sql" code description tail)
  = Parsed (trim code) (trim description)
  /\ parseDagsterResponse (documented intro "python" code description tail)
     = Parsed (trim code) (trim description).
Proof.
  intros Hbi Hbc Hi Hc Hd Ht He. split.
  - unfold parseDbtResponse.
    destruct (search_description intro "sql" code description tail Hi eq_refl Hc Hd Ht He)
      as (m & -> & ->).
    unfold documented. rewrite search_fence by assumption.
    unfold Dagster.group1. cbn [m_groups nth]. now rewrite trim_trimStart.
  - unfold parseDagsterResponse.
    destruct (search_description intro "python" code description tail Hi eq_refl Hc Hd Ht
                He) as (m & -> & ->).
    unfold documented. rewrite search_fence by assumption.
    unfold Dagster.group1. cbn [m_groups nth]. now rewrite trim_trimStart.
Qed.

Lemma documented_answer_read_witness :
  parseDbtResponse
    ("Here is the model:" ++ nl ++ nl ++ "```sql" ++ nl
     ++ "{{ config(materialized='view') }}" ++ nl ++ nl ++ "select * from users" ++ nl
     ++ "```" ++ nl ++ nl ++ "DESCRIPTION: A simple user model")
  = Parsed ("{{ config(materialized='view') }}" ++ nl ++ nl ++ "select * from users")
      "A simple user model".
Proof.
  apply (documented_answer_read ("Here is the model:" ++ nl ++ nl)
           ("{{ config(materialized='view') }}" ++ nl ++ nl ++ "select * from users")
           "A simple user model" EmptyString); reflexivity.
Defined.

(** *** No fenced block *)

Lemma fenceAt_spec (lang q : string) :
  fenceAt lang q <> None <-> exists b c, q = fenceOpen lang ++ b ++ fenceClose ++ c.
Proof.
  unfold fenceAt. split.
  - destruct (stripPrefix (fenceOpen lang) q) as [r|] eqn:E; [|now intros []].
    apply stripPrefix_spec in E. subst q.
    destruct (splitAt fenceClose r) as [[cap post]|] eqn:Es; [|now intros []].
    intros _. apply splitAt_sound in Es. now exists cap, post; subst r.
  - intros (b & c & ->). rewrite stripPrefix_append.
    destruct (splitAt_complete fenceClose b c) as (a' & b' & ->). discriminate.
Qed.

Lemma search_fence_none (lang response : string) :
  search (fenceAt lang) response = None
  <-> ~ exists a b c, response = a ++ fenceOpen lang ++ b ++ fenceClose ++ c.
Proof.
  rewrite search_none. split.
  - intros H (a & b & c & E). specialize (H a _ E).
    apply (proj2 (fenceAt_spec lang (fenceOpen lang ++ b ++ fenceClose ++ c)));
      [now exists b, c | exact H].
  - intros H p q E. destruct (fenceAt lang q) eqn:F; [|reflexivity]. exfalso. apply H.
    destruct (proj1 (fenceAt_spec lang q)) as (b & c & Hq); [now rewrite F|].
    exists p, b, c. now rewrite E, Hq.
Qed.

Lemma search_description_none (response : string) :
  includes response "DESCRIPTION:" = false -> search descriptionAt response = None.
Proof.
  intros H. apply search_none. intros p q E. unfold descriptionAt.
  destruct (stripPrefix "DESCRIPTION:" q) as [r|] eqn:S; [|reflexivity].
  apply stripPrefix_spec in S. subst q. rewrite E, includes_append in H. discriminate.
Qed.

(** X20: [parseDbtResponse] throws exactly when the answer holds no opening
    line of a block fenced as [sql] with a closing fence line after it,
    [parseDagsterResponse] exactly when it holds none fenced as [python];
    the messages are the fixed ones.  An answer with a block and without
    the text [DESCRIPTION:] gets the fixed description. *)
Theorem answer_thrown_iff (response : string) :
  (parseDbtResponse response = Thrown "Could not parse SQL from AI response"
   <-> ~ exists a b c, response = a ++ fenceOpen "sql" ++ b ++ fenceClose ++ c)
  /\ (parseDagsterResponse response = Thrown "Could not parse Python code from AI response"
      <-> ~ exists a b c, response = a ++ fenceOpen "python" ++ b ++ fenceClose ++ c)
  /\ (forall message,
        (parseDbtResponse response = Thrown message ->
         message = "Could not parse SQL from AI response")
        /\ (parseDagsterResponse response = Thrown message ->
            message = "Could not parse Python code from AI response"))
  /\ (includes response "DESCRIPTION:" = false ->
      forall code description,
        (parseDbtResponse response = Parsed code description ->
         description = "AI-generated DBT model")
        /\ (parseDagsterResponse response = Parsed code description ->
            description = "AI-generated Dagster asset")).
Proof.
  split; [|split; [|split]].
  - rewrite <- search_fence_none. unfold parseDbtResponse.
    destruct (search (fenceAt "sql") response); split; congruence.
  - rewrite <- search_fence_none. unfold parseDagsterResponse.
    destruct (search (fenceAt "python") response); split; congruence.
  - intros message. unfold parseDbtResponse, parseDagsterResponse. split.
    + destruct (search (fenceAt "sql") response); congruence.
    + destruct (search (fenceAt "python") response); congruence.
  - intros H code description. unfold parseDbtResponse, parseDagsterResponse.
    rewrite (search_description_none _ H). split.
    + destruct (search (fenceAt "sql") response); congruence.
    + destruct (search (fenceAt "python") response); congruence.
Qed.

Lemma answer_thrown_iff_witness :
  ~ exists a b c, "select 1" = a ++ fenceOpen "sql" ++ b ++ fenceClose ++ c.
Proof.
  destruct (answer_thrown_iff "select 1") as ([H _] & _). apply H. reflexivity.
Defined.

End AiFacts.

(** ** The index file after a sequence of registrations *)

Module IndexFacts.
Import JS Spec Notions StrFacts FsFacts Dagster AllFacts DagsterFacts SchemaFacts.

(** *** Identifiers *)

Lemma allWord_hasChar (n : nat) (x : string) :
  (n < 256)%nat -> isWordChar (ascii_of_nat n) = false -> allWord x = true ->
  hasChar n x = false.
Proof.
  intros Hn Hw. induction x as [|c r IH]; [reflexivity|]. cbn [allWord hasChar].
  intros H. apply andb_true_iff in H as [Hc Hr]. rewrite (IH Hr), orb_false_r.
  destruct (isChar n c) eqn:E; [|reflexivity].
  apply isChar_eq in E; [|exact Hn]. subst c. now rewrite Hc in Hw.
Qed.

Lemma wordChar_not_space (c : ascii) : isWordChar c = true -> isWhiteSpace c = false.
Proof.
  unfold isWordChar, isWhiteSpace, isChar. cbv zeta. intros H.
  destruct (Nat.eqb (nat_of_ascii c) 9) eqn:E9; [apply Nat.eqb_eq in E9; rewrite E9 in H; discriminate|].
  destruct (Nat.eqb (nat_of_ascii c) 10) eqn:E10; [apply Nat.eqb_eq in E10; rewrite E10 in H; discriminate|].
  destruct (Nat.eqb (nat_of_ascii c) 11) eqn:E11; [apply Nat.eqb_eq in E11; rewrite E11 in H; discriminate|].
  destruct (Nat.eqb (nat_of_ascii c) 12) eqn:E12; [apply Nat.eqb_eq in E12; rewrite E12 in H; discriminate|].
  destruct (Nat.eqb (nat_of_ascii c) 13) eqn:E13; [apply Nat.eqb_eq in E13; rewrite E13 in H; discriminate|].
  destruct (Nat.eqb (nat_of_ascii c) 32) eqn:E32; [apply Nat.eqb_eq in E32; rewrite E32 in H; discriminate|].
  destruct (Nat.eqb (nat_of_ascii c) 160) eqn:E160; [apply Nat.eqb_eq in E160; rewrite E160 in H; discriminate|].
  reflexivity.
Qed.

Lemma allWord_trimEnd (x : string) : allWord x = true -> trimEnd x = x.
Proof.
  induction x as [|c r IH]; [reflexivity|]. cbn [allWord trimEnd]. intros H.
  apply andb_true_iff in H as [Hc Hr]. rewrite (IH Hr).
  destruct r; [now rewrite (wordChar_not_space c Hc) | reflexivity].
Qed.

Lemma allWord_trim (x : string) : allWord x = true -> trim x = x.
Proof.
  intros H. unfold trim. destruct x as [|c r]; [reflexivity|].
  cbn [allWord] in H. pose proof H as H0. apply andb_true_iff in H as [Hc _].
  cbn [trimStart]. rewrite (wordChar_not_space c Hc). now apply allWord_trimEnd.
Qed.

Lemma identifier_plain (x : string) :
  identifier x = true ->
  plainSymbol x = true /\ hasChar 32 x = false /\ hasChar 46 x = false
  /\ hasChar 10 x = false.
Proof.
  unfold identifier. intros H. apply andb_true_iff in H as [Ht Hw].
  assert (forall n, (n < 256)%nat -> isWordChar (ascii_of_nat n) = false ->
                    hasChar n x = false) as Hf
    by (intros n Hn Hc; now apply allWord_hasChar).
  unfold plainSymbol, plainMember, isTrimmed.
  rewrite (allWord_trim x Hw), String.eqb_refl, Ht.
  rewrite !Hf by (lia || reflexivity). now repeat split.
Qed.

(** *** An import line inside the index text *)

Lemma includes_hasChar (n : nat) (l needle : string) :
  includes l needle = true -> hasChar n needle = true -> hasChar n l = true.
Proof.
  intros H Hn. apply includes_spec in H as (a & b & ->).
  rewrite !hasChar_append, Hn. now rewrite orb_true_r.
Qed.

Lemma countChar_zero (n : nat) (s : string) : countChar n s = 0%nat <-> hasChar n s = false.
Proof.
  induction s as [|c r IH]; [now split|]. cbn [countChar hasChar].
  destruct (isChar n c); cbn [orb]; [split; [lia | discriminate]|]. exact IH.
Qed.

Lemma importLine_dots (x : string) :
  hasChar 46 x = false -> countChar 46 (importLine x) = 1%nat.
Proof.
  intros H. apply countChar_zero in H. unfold importLine.
  rewrite !countChar_append, H. reflexivity.
Qed.

(** Among identifiers an import line holds the import line of its own
    name only. *)
Lemma importLine_within (n x : string) :
  hasChar 46 n = false -> hasChar 32 n = false ->
  hasChar 46 x = false -> hasChar 32 x = false ->
  includes (importLine n) (importLine x) = true -> n = x.
Proof.
  intros Hdn Hsn Hdx Hsx H. apply includes_spec in H as (a & b & E).
  pose proof (f_equal (countChar 46) E) as C.
  rewrite !countChar_append, !importLine_dots in C by assumption.
  assert (hasChar 46 a = false) as Ha by (apply countChar_zero; lia).
  unfold importLine in E.
  change ("from ." ++ n ++ " import " ++ n)
    with ("from " ++ chr 46 ++ n ++ " import " ++ n) in E.
  change ("from ." ++ x ++ " import " ++ x)
    with ("from " ++ chr 46 ++ x ++ " import " ++ x) in E.
  rewrite <- !append_assoc in E. rewrite !append_assoc in E.
  replace (a ++ "from " ++ chr 46 ++ x ++ " import " ++ x ++ b)
    with ((a ++ "from ") ++ chr 46 ++ x ++ " import " ++ x ++ b) in E
    by now rewrite !append_assoc.
  apply first_occurrence in E as [_ E]; [|lia|reflexivity|].
  2:{ rewrite hasChar_append, Ha. reflexivity. }
  change (n ++ " import " ++ n) with (n ++ chr 32 ++ "import " ++ n) in E.
  change (x ++ " import " ++ x ++ b) with (x ++ chr 32 ++ "import " ++ x ++ b) in E.
  now apply first_occurrence in E as [E _]; [|lia|assumption|assumption].
Qed.

Lemma includes_unlines (needle : string) (lines : list string) :
  hasChar 10 needle = false -> truthy needle = true ->
  includes (unlines lines) needle = existsb (fun l => includes l needle) lines.
Proof.
  intros Hn Ht. induction lines as [|l ls IH].
  - now destruct needle.
  - rewrite unlines_cons. unfold nl. rewrite (AiFacts.includes_sep 10) by (lia || assumption).
    cbn [existsb]. now rewrite <- IH.
Qed.

(** *** The list as written *)

Lemma listed_snoc (xs : list string) (y : string) :
  listed (xs ++ [y]) = (xs ++ [quoted y])%list.
Proof.
  induction xs as [|x xs IH]; [reflexivity|]. cbn [app listed]. rewrite IH.
  now destruct xs.
Qed.

Lemma nonempty_snoc {A} (l : list A) : l <> [] -> exists xs y, l = (xs ++ [y])%list.
Proof.
  intros H. destruct (exists_last H) as (xs & y & ->). now exists xs, y.
Qed.

Lemma identifiers_plain (regs : list string) :
  forallb identifier regs = true ->
  forallb plainMember regs = true /\ List.filter truthy regs = regs
  /\ forall n, (n = 46 \/ n = 93 \/ n = 36)%nat ->
                forallb (fun e => negb (hasChar n e)) regs = true.
Proof.
  induction regs as [|x regs IH]; [now repeat split|]. cbn [forallb List.filter].
  intros H. apply andb_true_iff in H as [Hx Hr]. destruct (IH Hr) as (I1 & I2 & I3).
  destruct (identifier_plain x Hx) as (Hp & _ & Hd & _).
  destruct (plainSymbol_inv x Hp) as (Hm & _ & Ht).
  destruct (plainMember_inv x Hm) as (_ & H36 & _ & H93 & _).
  rewrite Hm, I1, Ht, I2. repeat split. intros n Hn. rewrite (I3 n Hn).
  destruct Hn as [-> | [-> | ->]]; [now rewrite Hd | now rewrite H93 | now rewrite H36].
Qed.

(** The list text of registered identifiers holds none of the code units
    [n] that neither the names nor the punctuation hold. *)
Lemma listed_free (n : nat) (regs : list string) :
  regs <> [] -> hasChar n ", " = false -> hasChar n dq = false ->
  forallb (fun e => negb (hasChar n e)) regs = true ->
  hasChar n (join ", " (listed regs)) = false.
Proof.
  intros Hne H1 H2 Hr. destruct (nonempty_snoc regs Hne) as (xs & y & ->).
  rewrite listed_snoc. rewrite forallb_app in Hr. apply andb_true_iff in Hr as [Hxs Hy].
  cbn [forallb] in Hy. apply andb_true_iff in Hy as [Hy _]. apply negb_true_iff in Hy.
  now apply hasChar_updated.
Qed.

Lemma parseItems_listed (regs : list string) :
  regs <> [] -> forallb plainMember regs = true ->
  parseItems (join ", " (listed regs)) = regs.
Proof.
  intros Hne Hr. destruct (nonempty_snoc regs Hne) as (xs & y & ->).
  rewrite listed_snoc. rewrite forallb_app in Hr. apply andb_true_iff in Hr as [Hxs Hy].
  cbn [forallb] in Hy. apply andb_true_iff in Hy as [Hy _].
  now apply parseItems_updated.
Qed.

(** *** One registration on a text whose list is known *)

Lemma update_at (pre cap post itemName : string) :
  opens pre = false -> hasChar 93 cap = false ->
  includes (pre ++ allConstruct [cap] ++ post) (importLine itemName) = false ->
  ~ In itemName (parseItems cap) -> forallb plainMember (parseItems cap) = true ->
  plainMember itemName = true ->
  updateInitContent (Some (pre ++ allConstruct [cap] ++ post)) itemName
  = Some (pre ++ allConstruct (List.filter truthy (parseItems cap) ++ [quoted itemName])
            ++ post ++ importLine itemName ++ nl).
Proof.
  intros Ho Hc Hi Hin Hitems Hname. unfold updateInitContent. rewrite Hi.
  assert (search allAt ((pre ++ allConstruct [cap] ++ post) ++ importLine itemName ++ nl)
          = Some (mkMatch pre (constructText " " " " cap) [cap]
                    (post ++ importLine itemName ++ nl))) as Hs.
  { rewrite allConstruct_text. cbn [join]. rewrite !append_assoc.
    now apply search_construct. }
  rewrite Hs. cbn [group1 m_groups nth].
  destruct (existsb (String.eqb itemName) (parseItems cap)) eqn:Ex;
    [now apply existsb_eqb in Ex|].
  unfold replace. rewrite Hs. cbn [m_pre m_text m_groups m_post].
  rewrite getSubstitution_plain; [reflexivity|].
  pose proof (plainMember_inv _ Hname) as (_ & Hd & _).
  unfold allConstruct. rewrite !hasChar_append.
  rewrite hasChar_updated; try reflexivity; try assumption.
  apply forallb_filter. apply (forallb_weaken plainMember); [|exact Hitems].
  intros x Hx. apply plainMember_inv in Hx as (_ & Hx & _). now rewrite Hx.
Qed.

(** *** The index text, one registration more *)

Lemma indexText_lines (first : string) (rest : list string) :
  indexText (first :: rest)
  = unlines ([importLine first; EmptyString; allConstruct (listed (first :: rest))]
             ++ map importLine rest).
Proof.
  rewrite unlines_app. unfold indexText. rewrite !unlines_cons.
  change (unlines []) with EmptyString. now rewrite !append_assoc.
Qed.

Lemma importLine_one_line (x : string) :
  hasChar 10 x = false ->
  hasChar 10 (importLine x) = false /\ truthy (importLine x) = true
  /\ hasChar 46 (importLine x) = true.
Proof.
  intros H. unfold importLine. rewrite !hasChar_append, H. now repeat split.
Qed.

(** The index text of identifiers holds the import line of an identifier
    exactly when the name is registered. *)
Lemma indexText_includes (regs : list string) (x : string) :
  forallb identifier regs = true -> identifier x = true ->
  includes (indexText regs) (importLine x) = existsb (String.eqb x) regs.
Proof.
  intros Hr Hx. destruct (identifier_plain x Hx) as (_ & Hsx & Hdx & Hnx).
  destruct (importLine_one_line x Hnx) as (L1 & L2 & L3).
  destruct regs as [|first rest]; [now destruct x|].
  rewrite indexText_lines, includes_unlines by assumption.
  assert (forall n, identifier n = true ->
            includes (importLine n) (importLine x) = String.eqb x n) as Hone.
  { intros n Hn. destruct (identifier_plain n Hn) as (_ & Hsn & Hdn & _).
    destruct (String.eqb x n) eqn:E.
    - apply String.eqb_eq in E. subst n. apply includes_spec.
      exists EmptyString, EmptyString. now rewrite append_nil_r.
    - destruct (includes (importLine n) (importLine x)) eqn:I; [|reflexivity].
      apply importLine_within in I; try assumption. subst n.
      now rewrite String.eqb_refl in E. }
  assert (forall l, forallb identifier l = true ->
            existsb (fun line => includes line (importLine x)) (map importLine l)
            = existsb (String.eqb x) l) as Himports.
  { induction l as [|n l IH]; [reflexivity|]. cbn [forallb map existsb]. intros H.
    apply andb_true_iff in H as [Hn Hl]. now rewrite (IH Hl), (Hone n Hn). }
  assert (includes (allConstruct (listed (first :: rest))) (importLine x) = false) as HC.
  { destruct (includes _ _) eqn:I; [|reflexivity].
    apply (includes_hasChar 46) in I; [|exact L3].
    unfold allConstruct in I. rewrite !hasChar_append in I.
    rewrite listed_free in I; try reflexivity; try discriminate.
    apply (identifiers_plain _ Hr). now left. }
  assert (includes "" (importLine x) = false) as HB by reflexivity.
  cbn [forallb] in Hr. apply andb_true_iff in Hr as [Hfirst Hrest].
  rewrite existsb_app, (Himports rest Hrest). cbn [existsb].
  rewrite (Hone first Hfirst), HB, HC. cbn [orb]. now rewrite orb_false_r.
Qed.

Lemma afterUpdate_index (regs : list string) (x : string) :
  forallb identifier regs = true -> identifier x = true ->
  afterUpdate (indexText regs) x = indexText (register regs x).
Proof.
  intros Hr Hx. unfold afterUpdate, register.
  pose proof (indexText_includes regs x Hr Hx) as Hi.
  destruct (existsb (String.eqb x) regs) eqn:Ex.
  - now rewrite (update_present _ _ Hi).
  - destruct (identifier_plain x Hx) as (Hp & _).
    destruct (plainSymbol_inv x Hp) as (Hm & Hb & _).
    destruct regs as [|first rest].
    + change (indexText []) with EmptyString in *.
      destruct (update_created EmptyString x Hi eq_refl Hp) as [-> _].
      cbn [app indexText listed map]. unfold allConstruct. cbn [join].
      change (unlines []) with EmptyString. cbn [String.append].
      now rewrite !append_assoc, append_nil_r.
    + destruct (identifiers_plain _ Hr) as (Hplain & Hfilter & Hfree).
      assert (forallb identifier [first] = true) as Hf
        by (cbn [forallb] in *; apply andb_true_iff in Hr as [-> _]; reflexivity).
      cbn [forallb] in Hf. rewrite andb_true_r in Hf.
      destruct (identifier_plain first Hf) as (Hpf & _).
      destruct (plainSymbol_inv first Hpf) as (_ & Hbf & _).
      set (cap := join ", " (listed (first :: rest))).
      assert (parseItems cap = first :: rest) as Hitems
        by (apply parseItems_listed; [discriminate | exact Hplain]).
      assert (indexText (first :: rest)
              = (importLine first ++ nl ++ nl) ++ allConstruct [cap]
                ++ nl ++ unlines (map importLine rest)) as E
        by (unfold indexText; now rewrite !append_assoc).
      rewrite E in *. rewrite update_at; rewrite ?Hitems; try assumption.
      * rewrite Hfilter. unfold indexText. cbn [app].
        change (first :: rest ++ [x])%list with ((first :: rest) ++ [x])%list.
        rewrite listed_snoc, map_app, unlines_app. cbn [map].
        rewrite unlines_cons. change (unlines []) with EmptyString.
        now rewrite !append_assoc, append_nil_r.
      * destruct (opens (importLine first ++ nl ++ nl)) eqn:O; [|reflexivity].
        apply opens_hasChar in O. unfold importLine in O.
        rewrite !hasChar_append, Hbf in O. discriminate.
      * apply listed_free; try reflexivity; [discriminate|]. apply Hfree. right. now left.
      * intros Hin. apply existsb_eqb in Hin. now rewrite Hin in Ex.
Qed.

Lemma register_identifiers (regs : list string) (x : string) :
  forallb identifier regs = true -> identifier x = true ->
  forallb identifier (register regs x) = true.
Proof.
  intros Hr Hx. unfold register. destruct (existsb _ _); [exact Hr|].
  rewrite forallb_app, Hr. cbn [forallb]. now rewrite Hx.
Qed.

Lemma afterUpdates_index (names regs : list string) :
  forallb identifier regs = true -> forallb identifier names = true ->
  afterUpdates names (indexText regs) = indexText (fold_left register names regs).
Proof.
  revert regs; induction names as [|x names IH]; intros regs Hr Hn; [reflexivity|].
  cbn [forallb] in Hn. apply andb_true_iff in Hn as [Hx Hn].
  unfold afterUpdates. cbn [fold_left]. fold (afterUpdates names).
  rewrite afterUpdate_index by assumption.
  apply IH; [now apply register_identifiers | exact Hn].
Qed.

Lemma readFile_updates (initPath content : string) (names : list string) (fs : Fs.t) :
  Fs.readFile initPath fs = Some content ->
  Fs.readFile initPath (fold_left (fun fs n => updateInitFile initPath n fs) names fs)
  = Some (afterUpdates names content).
Proof.
  revert content fs; induction names as [|x names IH]; intros content fs H;
    [exact H|].
  cbn [fold_left]. unfold afterUpdates. cbn [fold_left]. fold (afterUpdates names).
  apply IH. now rewrite readFile_updateInitFile, H.
Qed.

(** X21: a sequence of registrations of identifiers (letters, digits,
    underscores), starting without index file, leaves this index file: the
    import line of the first name, an empty line, the list of the names,
    each once and in the order of its first registration, all bare but the
    last one, which stands between double quotes, and then the import
    lines of the other names in that order. *)
Theorem index_after_registrations (initPath : string) (names : list string) (fs : Fs.t) :
  forallb identifier names = true ->
  afterUpdates names EmptyString = indexText (registered names)
  /\ (Fs.readFile initPath fs = None -> names <> [] ->
      Fs.readFile initPath (fold_left (fun fs n => updateInitFile initPath n fs) names fs)
      = Some (indexText (registered names))).
Proof.
  intros Hn.
  assert (afterUpdates names "" = indexText (registered names)) as E
    by (apply (afterUpdates_index names []); [reflexivity | exact Hn]).
  split; [exact E|]. intros Hnone Hne. rewrite <- E.
  destruct names as [|x names]; [contradiction|]. cbn [fold_left].
  rewrite (readFile_updates initPath (afterUpdate "" x)).
  - reflexivity.
  - now rewrite readFile_updateInitFile, Hnone.
Qed.

Lemma index_after_registrations_witness :
  Fs.readFile "assets/__init__.py"
    (fold_left (fun fs n => updateInitFile "assets/__init__.py" n fs)
       ["users"; "orders"; "users"; "daily_2"] Fs.empty)
  = Some ("from .users import users" ++ nl ++ nl
          ++ "__all__ = [users, orders, " ++ dq ++ "daily_2" ++ dq ++ "]" ++ nl
          ++ "from .orders import orders" ++ nl
          ++ "from .daily_2 import daily_2" ++ nl).
Proof.
  apply (index_after_registrations "assets/__init__.py"
           ["users"; "orders"; "users"; "daily_2"] Fs.empty eq_refl);
    [reflexivity | discriminate].
Defined.

End IndexFacts.
